(** * Event indexer for two Solana programs: decoder, log parser, processor,
      store and RPC client, embedded from the Go sources.

    Go strings are byte sequences and are modelled by [string]; byte slices
    are [list byte]; [uint64] values are [Z] with the wrap-around written
    out; Go maps are [gmap]; [nil]-able pointers are [option]. *)

From Stdlib Require Import ZArith Lia List Ascii String.
From Stdlib Require Import Init.Byte Strings.Byte.
From coqutil Require Import Byte Word.LittleEndianList.
From stdpp Require Import base option list strings gmap.

Local Open Scope Z_scope.
Local Open Scope string_scope.
Local Open Scope list_scope.

(** ** Bytes and strings *)

Definition bytes_of_string (s : string) : list byte := list_byte_of_string s.
Definition string_of_bytes (bs : list byte) : string := string_of_list_byte bs.

(** ** crypto/sha256 (FIPS 180-4), on 32-bit words held in [Z] *)

Module SHA256.

Definition w32 (x : Z) : Z := x mod 2 ^ 32.
Definition add32 (x y : Z) : Z := w32 (x + y).
Definition rotr (n x : Z) : Z :=
  Z.lor (Z.shiftr x n) (w32 (Z.shiftl x (32 - n))).
Definition not32 (x : Z) : Z := 2 ^ 32 - 1 - x.

Definition Ch (x y z : Z) : Z := Z.lxor (Z.land x y) (Z.land (not32 x) z).
Definition Maj (x y z : Z) : Z :=
  Z.lxor (Z.lxor (Z.land x y) (Z.land x z)) (Z.land y z).
Definition bsig0 (x : Z) : Z := Z.lxor (Z.lxor (rotr 2 x) (rotr 13 x)) (rotr 22 x).
Definition bsig1 (x : Z) : Z := Z.lxor (Z.lxor (rotr 6 x) (rotr 11 x)) (rotr 25 x).
Definition ssig0 (x : Z) : Z := Z.lxor (Z.lxor (rotr 7 x) (rotr 18 x)) (Z.shiftr x 3).
Definition ssig1 (x : Z) : Z := Z.lxor (Z.lxor (rotr 17 x) (rotr 19 x)) (Z.shiftr x 10).

(** The constants are fixed by the standard as roots of primes: the
    round constants are the first 32 bits of the fractional parts of the cube
    roots of the first 64 primes, the initial hash value those of the square
    roots of the first 8 primes. They are computed here as defined. *)
Definition is_prime (n : Z) : bool :=
  Z.ltb 1 n &&
  forallb (fun d => negb (Z.eqb (n mod d) 0)) (map Z.of_nat (seq 2 (Z.to_nat n - 2))).

Definition primes_below (n : nat) : list Z :=
  List.filter is_prime (map Z.of_nat (seq 0 n)).

(** The largest [r] below [2^bits] with [r^k <= n], found bit by bit. *)
Fixpoint root_bits (k n : Z) (bits : nat) (r : Z) : Z :=
  match bits with
  | O => r
  | S b =>
      let r' := r + 2 ^ Z.of_nat b in
      root_bits k n b (if Z.leb (r' ^ k) n then r' else r)
  end.

Definition frac_root32 (k p : Z) : Z :=
  w32 (root_bits k (p * 2 ^ (32 * k)) 40 0).

Definition K : list Z := map (frac_root32 3) (firstn 64 (primes_below 320)).

Definition H0 : list Z := map (frac_root32 2) (firstn 8 (primes_below 320)).

(** Big-endian packing of bytes into a number and back. *)
Definition be_combine (bs : list Z) : Z :=
  fold_left (fun acc b => acc * 256 + b) bs 0.
Fixpoint be_split (n : nat) (x : Z) : list Z :=
  match n with
  | O => []
  | S n' => (x / 256 ^ Z.of_nat n') mod 256 :: be_split n' x
  end.

(** Padding: a 1 bit, zeros up to 56 mod 64, the bit length on 8 bytes. *)
Definition pad (msg : list Z) : list Z :=
  let len := Z.of_nat (length msg) in
  let zeros := Z.to_nat ((55 - len) mod 64) in
  msg ++ 0x80 :: repeat 0 zeros ++ be_split 8 (8 * len).

Fixpoint chunks {A} (fuel size : nat) (l : list A) : list (list A) :=
  match fuel with
  | O => []
  | S fuel' =>
      match l with
      | [] => []
      | _ => firstn size l :: chunks fuel' size (skipn size l)
      end
  end.

(** The message schedule: [w] holds W[0..t-1], most recent first. *)
Fixpoint extend (n : nat) (w : list Z) : list Z :=
  match n with
  | O => w
  | S n' =>
      let nw := add32 (add32 (ssig1 (nth 1 w 0)) (nth 6 w 0))
                      (add32 (ssig0 (nth 14 w 0)) (nth 15 w 0)) in
      extend n' (nw :: w)
  end.

Definition schedule (block : list Z) : list Z :=
  let w16 := map be_combine (chunks 16 4 block) in
  rev (extend 48 (rev w16)).

Record regs := Regs { ra : Z; rb : Z; rc : Z; rd : Z; re : Z; rf : Z; rg : Z; rh : Z }.

Definition round (s : regs) (kw : Z * Z) : regs :=
  let '(k, w) := kw in
  let t1 := add32 (add32 (add32 (rh s) (bsig1 (re s))) (Ch (re s) (rf s) (rg s)))
                  (add32 k w) in
  let t2 := add32 (bsig0 (ra s)) (Maj (ra s) (rb s) (rc s)) in
  Regs (add32 t1 t2) (ra s) (rb s) (rc s) (add32 (rd s) t1) (re s) (rf s) (rg s).

Definition regs_of (h : list Z) : regs :=
  Regs (nth 0 h 0) (nth 1 h 0) (nth 2 h 0) (nth 3 h 0)
       (nth 4 h 0) (nth 5 h 0) (nth 6 h 0) (nth 7 h 0).
Definition list_of (s : regs) : list Z :=
  [ra s; rb s; rc s; rd s; re s; rf s; rg s; rh s].

Definition compress (h : list Z) (block : list Z) : list Z :=
  let s := fold_left round (combine K (schedule block)) (regs_of h) in
  map (fun p => add32 (fst p) (snd p)) (combine h (list_of s)).

Definition sum256Z (msg : list Z) : list Z :=
  let p := pad msg in
  let h := fold_left compress (chunks (length p) 64 p) H0 in
  flat_map (be_split 4) h.

(** [sha256.Sum256]: the 32-byte digest of a byte slice. *)
Definition Sum256 (msg : list byte) : list byte :=
  map byte.of_Z (sum256Z (map byte.unsigned msg)).

End SHA256.

(** ** encoding/base64, [StdEncoding.EncodeToString] *)

Module Base64.

Definition alphabet : string :=
  "ABCDEFGHIJKLMNOPQRSTUVWXYZabcdefghijklmnopqrstuvwxyz0123456789+/".

Definition enc (v : Z) : ascii :=
  match String.get (Z.to_nat (v mod 64)) alphabet with
  | Some c => c
  | None => "="%char
  end.

Fixpoint encode_Z (bs : list Z) : string :=
  match bs with
  | [] => ""
  | [a] =>
      String (enc (a / 4)) (String (enc (a mod 4 * 16)) "==")
  | [a; b] =>
      String (enc (a / 4)) (String (enc (a mod 4 * 16 + b / 16))
        (String (enc (b mod 16 * 4)) "="))
  | a :: b :: c :: rest =>
      String (enc (a / 4)) (String (enc (a mod 4 * 16 + b / 16))
        (String (enc (b mod 16 * 4 + c / 64)) (String (enc (c mod 64))
          (encode_Z rest))))
  end.

Definition EncodeToString (bs : list byte) : string :=
  encode_Z (map byte.unsigned bs).

End Base64.

Definition hex_of_bytes_Z (bs : list byte) : list Z := map byte.unsigned bs.





(** ** package models *)

Module models.

(** [type EventType string] *)
Definition EventType := string.

Definition EventTypeTokensMinted : EventType := "TokensMintedEvent".
Definition EventTypeTokensTransferred : EventType := "TokensTransferredEvent".
Definition EventTypeTokensBurned : EventType := "TokensBurnedEvent".
Definition EventTypeDelegateApproved : EventType := "DelegateApprovedEvent".
Definition EventTypeDelegateRevoked : EventType := "DelegateRevokedEvent".
Definition EventTypeTokenAccountClosed : EventType := "TokenAccountClosedEvent".
Definition EventTypeTokenAccountFrozen : EventType := "TokenAccountFrozenEvent".
Definition EventTypeTokenAccountThawed : EventType := "TokenAccountThawedEvent".
Definition EventTypeUserAccountCreated : EventType := "UserAccountCreatedEvent".
Definition EventTypeUserAccountUpdated : EventType := "UserAccountUpdatedEvent".
Definition EventTypeUserAccountClosed : EventType := "UserAccountClosedEvent".
Definition EventTypeConfigUpdated : EventType := "ConfigUpdatedEvent".
Definition EventTypeProgramPaused : EventType := "ProgramPausedEvent".
Definition EventTypeNftCollectionCreated : EventType := "NftCollectionCreatedEvent".
Definition EventTypeNftMinted : EventType := "NftMintedEvent".
Definition EventTypeNftListed : EventType := "NftListedEvent".
Definition EventTypeNftSold : EventType := "NftSoldEvent".
Definition EventTypeNftListingCancelled : EventType := "NftListingCancelledEvent".
Definition EventTypeNftOfferCreated : EventType := "NftOfferCreatedEvent".
Definition EventTypeNftOfferAccepted : EventType := "NftOfferAcceptedEvent".

Definition EventTypeCounterInitialized : EventType := "CounterInitializedEvent".
Definition EventTypeCounterIncremented : EventType := "CounterIncrementedEvent".
Definition EventTypeCounterDecremented : EventType := "CounterDecrementedEvent".
Definition EventTypeCounterAdded : EventType := "CounterAddedEvent".
Definition EventTypeCounterReset : EventType := "CounterResetEvent".
Definition EventTypeCounterPaymentReceived : EventType := "CounterPaymentReceivedEvent".

(** [solana.PublicKey] is a [[32]byte] array. *)
Definition PublicKey := list byte.
Definition zeroPublicKey : PublicKey := repeat x00 32.

(** [BaseEvent]; times are Unix seconds. *)
Record BaseEvent := mkBaseEvent {
  ID : string;
  EventType_ : EventType;
  Signature : string;
  Slot : Z;
  BlockTime : Z;
  ProgramID : PublicKey;
  CreatedAt : Z;
  RawData : list byte
}.

Definition zeroBaseEvent : BaseEvent :=
  mkBaseEvent "" "" "" 0 0 zeroPublicKey 0 [].

(** The event structs, one constructor per struct, fields in declaration
    order after the inlined [BaseEvent]. *)
Inductive Event :=
| TokensMintedEvent (base : BaseEvent) (Mint Recipient : PublicKey) (Amount Timestamp : Z)
| TokensTransferredEvent (base : BaseEvent) (Mint From To : PublicKey) (Amount Timestamp : Z)
| TokensBurnedEvent (base : BaseEvent) (Mint Owner : PublicKey) (Amount Timestamp : Z)
| UserAccountCreatedEvent (base : BaseEvent) (User Authority : PublicKey) (Timestamp : Z)
| UserAccountUpdatedEvent (base : BaseEvent) (User : PublicKey) (OldPoints NewPoints Timestamp : Z)
| ConfigUpdatedEvent (base : BaseEvent) (Admin : PublicKey) (OldFee NewFee Timestamp : Z)
| NftMintedEvent (base : BaseEvent) (NftMint Collection Owner : PublicKey)
                 (Name Uri : string) (Timestamp : Z)
| CounterInitializedEvent (base : BaseEvent) (Counter Authority : PublicKey) (InitialCount : Z)
| CounterIncrementedEvent (base : BaseEvent) (Counter : PublicKey) (OldValue NewValue : Z)
| CounterDecrementedEvent (base : BaseEvent) (Counter : PublicKey) (OldValue NewValue : Z)
| CounterAddedEvent (base : BaseEvent) (Counter : PublicKey) (OldValue AddedValue NewValue : Z)
| CounterResetEvent (base : BaseEvent) (Counter Authority : PublicKey) (OldValue : Z)
| CounterPaymentReceivedEvent (base : BaseEvent) (Counter Payer FeeCollector : PublicKey)
                              (Payment NewCount : Z).

(** The name of the struct type of an event value. *)
Definition struct_name (e : Event) : string :=
  match e with
  | TokensMintedEvent _ _ _ _ _ => "TokensMintedEvent"
  | TokensTransferredEvent _ _ _ _ _ _ => "TokensTransferredEvent"
  | TokensBurnedEvent _ _ _ _ _ => "TokensBurnedEvent"
  | UserAccountCreatedEvent _ _ _ _ => "UserAccountCreatedEvent"
  | UserAccountUpdatedEvent _ _ _ _ _ => "UserAccountUpdatedEvent"
  | ConfigUpdatedEvent _ _ _ _ _ => "ConfigUpdatedEvent"
  | NftMintedEvent _ _ _ _ _ _ _ => "NftMintedEvent"
  | CounterInitializedEvent _ _ _ _ => "CounterInitializedEvent"
  | CounterIncrementedEvent _ _ _ _ => "CounterIncrementedEvent"
  | CounterDecrementedEvent _ _ _ _ => "CounterDecrementedEvent"
  | CounterAddedEvent _ _ _ _ _ => "CounterAddedEvent"
  | CounterResetEvent _ _ _ _ => "CounterResetEvent"
  | CounterPaymentReceivedEvent _ _ _ _ _ _ => "CounterPaymentReceivedEvent"
  end.

Definition base_of (e : Event) : BaseEvent :=
  match e with
  | TokensMintedEvent b _ _ _ _ | TokensTransferredEvent b _ _ _ _ _
  | TokensBurnedEvent b _ _ _ _ | UserAccountCreatedEvent b _ _ _
  | UserAccountUpdatedEvent b _ _ _ _ | ConfigUpdatedEvent b _ _ _ _
  | NftMintedEvent b _ _ _ _ _ _ | CounterInitializedEvent b _ _ _
  | CounterIncrementedEvent b _ _ _ | CounterDecrementedEvent b _ _ _
  | CounterAddedEvent b _ _ _ _ | CounterResetEvent b _ _ _
  | CounterPaymentReceivedEvent b _ _ _ _ _ => b
  end.

(** [event.BaseEvent = base] *)
Definition set_base (b : BaseEvent) (e : Event) : Event :=
  match e with
  | TokensMintedEvent _ a1 a2 a3 a4 => TokensMintedEvent b a1 a2 a3 a4
  | TokensTransferredEvent _ a1 a2 a3 a4 a5 => TokensTransferredEvent b a1 a2 a3 a4 a5
  | TokensBurnedEvent _ a1 a2 a3 a4 => TokensBurnedEvent b a1 a2 a3 a4
  | UserAccountCreatedEvent _ a1 a2 a3 => UserAccountCreatedEvent b a1 a2 a3
  | UserAccountUpdatedEvent _ a1 a2 a3 a4 => UserAccountUpdatedEvent b a1 a2 a3 a4
  | ConfigUpdatedEvent _ a1 a2 a3 a4 => ConfigUpdatedEvent b a1 a2 a3 a4
  | NftMintedEvent _ a1 a2 a3 a4 a5 a6 => NftMintedEvent b a1 a2 a3 a4 a5 a6
  | CounterInitializedEvent _ a1 a2 a3 => CounterInitializedEvent b a1 a2 a3
  | CounterIncrementedEvent _ a1 a2 a3 => CounterIncrementedEvent b a1 a2 a3
  | CounterDecrementedEvent _ a1 a2 a3 => CounterDecrementedEvent b a1 a2 a3
  | CounterAddedEvent _ a1 a2 a3 a4 => CounterAddedEvent b a1 a2 a3 a4
  | CounterResetEvent _ a1 a2 a3 => CounterResetEvent b a1 a2 a3
  | CounterPaymentReceivedEvent _ a1 a2 a3 a4 a5 => CounterPaymentReceivedEvent b a1 a2 a3 a4 a5
  end.

(** A value of type [interface{}] as the program passes it around: the
    untyped nil, a pointer to an event struct (nil or not), or an event
    struct held by value. *)
Inductive Any :=
| AnyNil
| AnyNilPtr (ty : string)
| AnyPtr (e : Event)
| AnyVal (e : Event).

End models.

(** ** Go [error] values *)

Inductive error :=
| Errorf (msg : string)                     (* fmt.Errorf / errors.New, no cause *)
| Wrapf (msg : string) (cause : error)      (* fmt.Errorf("msg: %w", cause) *)
| ErrShortBuffer                            (* the binary decoder ran out of bytes *)
| WriteException (code : Z) (index : string) (* a write error of the document store *)
| DriverError (msg : string).               (* any other failure of a client library *)

(** E11000, the store's duplicate-key write error. *)
Definition DuplicateKeyCode : Z := 11000.

Fixpoint is_duplicate_key (e : error) : bool :=
  match e with
  | WriteException c _ => Z.eqb c DuplicateKeyCode
  | Wrapf _ e' => is_duplicate_key e'
  | _ => false
  end.

(** ** package decoder: the binary event decoder *)

Module decoder.
Import models.

(** A [bin.Decoder] is a byte slice with a read position; a read either
    fails or returns a value and the bytes that remain. *)
Definition Dec (A : Type) : Type := list byte -> error + (A * list byte).

Definition ret {A} (a : A) : Dec A := fun bs => inr (a, bs).
Definition bind {A B} (m : Dec A) (k : A -> Dec B) : Dec B :=
  fun bs => match m bs with
            | inl e => inl e
            | inr (a, rest) => k a rest
            end.

Notation "x <-- m ;; k" := (bind m (fun x => k))
  (at level 100, m at next level, right associativity).

Definition readN (n : nat) : Dec (list byte) :=
  fun bs => if (length bs <? n)%nat then inl ErrShortBuffer
            else inr (firstn n bs, skipn n bs).

(** [int64(u)] for a [uint64] u. *)
Definition to_int64 (u : Z) : Z := if Z.ltb u (2 ^ 63) then u else u - 2 ^ 64.

(** [decoder.Decode(&x)] for the fixed-width targets the package uses. *)
Definition decodePublicKey : Dec PublicKey := readN 32.
Definition decodeUint64 : Dec Z := bs <-- readN 8 ;; ret (le_combine bs).
Definition decodeInt64 : Dec Z := bs <-- readN 8 ;; ret (to_int64 (le_combine bs)).
Definition decodeUint32 : Dec Z := bs <-- readN 4 ;; ret (le_combine bs).

Definition eventDiscriminator (name : string) : string :=
  let discriminatorPreimage := bytes_of_string ("event:" +:+ name) in
  let hash := SHA256.Sum256 discriminatorPreimage in
  Base64.EncodeToString (firstn 8 hash).

(** The entries of the map literal, in source order. *)
Definition discriminatorEntries : list (string * EventType) :=
  [ (eventDiscriminator "TokensMintedEvent", EventTypeTokensMinted);
    (eventDiscriminator "TokensTransferredEvent", EventTypeTokensTransferred);
    (eventDiscriminator "TokensBurnedEvent", EventTypeTokensBurned);
    (eventDiscriminator "DelegateApprovedEvent", EventTypeDelegateApproved);
    (eventDiscriminator "DelegateRevokedEvent", EventTypeDelegateRevoked);
    (eventDiscriminator "TokenAccountClosedEvent", EventTypeTokenAccountClosed);
    (eventDiscriminator "TokenAccountFrozenEvent", EventTypeTokenAccountFrozen);
    (eventDiscriminator "TokenAccountThawedEvent", EventTypeTokenAccountThawed);
    (eventDiscriminator "UserAccountCreatedEvent", EventTypeUserAccountCreated);
    (eventDiscriminator "UserAccountUpdatedEvent", EventTypeUserAccountUpdated);
    (eventDiscriminator "UserAccountClosedEvent", EventTypeUserAccountClosed);
    (eventDiscriminator "ConfigUpdatedEvent", EventTypeConfigUpdated);
    (eventDiscriminator "ProgramPausedEvent", EventTypeProgramPaused);
    (eventDiscriminator "NftCollectionCreatedEvent", EventTypeNftCollectionCreated);
    (eventDiscriminator "NftMintedEvent", EventTypeNftMinted);
    (eventDiscriminator "NftListedEvent", EventTypeNftListed);
    (eventDiscriminator "NftSoldEvent", EventTypeNftSold);
    (eventDiscriminator "NftListingCancelledEvent", EventTypeNftListingCancelled);
    (eventDiscriminator "NftOfferCreatedEvent", EventTypeNftOfferCreated);
    (eventDiscriminator "NftOfferAcceptedEvent", EventTypeNftOfferAccepted) ].

(** A map literal stores its entries one after the other; a repeated key
    would keep the later value. *)
Definition makeDiscriminatorMap : gmap string EventType :=
  fold_left (fun m kv => <[fst kv := snd kv]> m) discriminatorEntries ∅.

Record EventDecoder := mkEventDecoder { discriminators : gmap string EventType }.

Definition NewEventDecoder : EventDecoder := mkEventDecoder makeDiscriminatorMap.

Definition decodeTokensMinted : Dec Event :=
  Mint <-- decodePublicKey ;;
  Recipient <-- decodePublicKey ;;
  Amount <-- decodeUint64 ;;
  Timestamp <-- decodeInt64 ;;
  ret (TokensMintedEvent zeroBaseEvent Mint Recipient Amount Timestamp).

Definition decodeTokensTransferred : Dec Event :=
  Mint <-- decodePublicKey ;;
  From <-- decodePublicKey ;;
  To <-- decodePublicKey ;;
  Amount <-- decodeUint64 ;;
  Timestamp <-- decodeInt64 ;;
  ret (TokensTransferredEvent zeroBaseEvent Mint From To Amount Timestamp).

Definition decodeTokensBurned : Dec Event :=
  Mint <-- decodePublicKey ;;
  Owner <-- decodePublicKey ;;
  Amount <-- decodeUint64 ;;
  Timestamp <-- decodeInt64 ;;
  ret (TokensBurnedEvent zeroBaseEvent Mint Owner Amount Timestamp).

Definition decodeUserAccountCreated : Dec Event :=
  User <-- decodePublicKey ;;
  Authority <-- decodePublicKey ;;
  Timestamp <-- decodeInt64 ;;
  ret (UserAccountCreatedEvent zeroBaseEvent User Authority Timestamp).

Definition decodeUserAccountUpdated : Dec Event :=
  User <-- decodePublicKey ;;
  OldPoints <-- decodeUint64 ;;
  NewPoints <-- decodeUint64 ;;
  Timestamp <-- decodeInt64 ;;
  ret (UserAccountUpdatedEvent zeroBaseEvent User OldPoints NewPoints Timestamp).

Definition decodeConfigUpdated : Dec Event :=
  Admin <-- decodePublicKey ;;
  OldFee <-- decodeUint64 ;;
  NewFee <-- decodeUint64 ;;
  Timestamp <-- decodeInt64 ;;
  ret (ConfigUpdatedEvent zeroBaseEvent Admin OldFee NewFee Timestamp).

Section WithByteSliceReader.

(** [decoder.Decode(&buf)] for a [[]byte] buffer made with [make([]byte, n)].
    The binary library is not part of the repository; what it does with a
    pre-sized byte slice is a parameter of the decoder. *)
Variable decodeByteSlice : nat -> Dec (list byte).

Definition decodeNftMinted : Dec Event :=
  NftMint <-- decodePublicKey ;;
  Collection <-- decodePublicKey ;;
  Owner <-- decodePublicKey ;;
  nameLen <-- decodeUint32 ;;
  nameBytes <-- decodeByteSlice (Z.to_nat nameLen) ;;
  uriLen <-- decodeUint32 ;;
  uriBytes <-- decodeByteSlice (Z.to_nat uriLen) ;;
  Timestamp <-- decodeInt64 ;;
  ret (NftMintedEvent zeroBaseEvent NftMint Collection Owner
         (string_of_bytes nameBytes) (string_of_bytes uriBytes) Timestamp).

(** [return eventType, event, err] where [event] is a pointer to the struct
    named [ty]: a nil pointer of that type on failure. *)
Definition typed_result (eventType : EventType) (ty : string)
    (r : error + (Event * list byte)) : EventType * Any * option error :=
  match r with
  | inl err => (eventType, AnyNilPtr ty, Some err)
  | inr (event, _) => (eventType, AnyPtr event, None)
  end.

(** The [switch eventType] of [DecodeEvent], on the bytes after the
    discriminator. *)
Definition decodeByType (eventType : EventType) (eventData : list byte)
    : EventType * Any * option error :=
  if String.eqb eventType EventTypeTokensMinted then
    typed_result eventType "TokensMintedEvent" (decodeTokensMinted eventData)
  else if String.eqb eventType EventTypeTokensTransferred then
    typed_result eventType "TokensTransferredEvent" (decodeTokensTransferred eventData)
  else if String.eqb eventType EventTypeTokensBurned then
    typed_result eventType "TokensBurnedEvent" (decodeTokensBurned eventData)
  else if String.eqb eventType EventTypeUserAccountCreated then
    typed_result eventType "UserAccountCreatedEvent" (decodeUserAccountCreated eventData)
  else if String.eqb eventType EventTypeUserAccountUpdated then
    typed_result eventType "UserAccountUpdatedEvent" (decodeUserAccountUpdated eventData)
  else if String.eqb eventType EventTypeConfigUpdated then
    typed_result eventType "ConfigUpdatedEvent" (decodeConfigUpdated eventData)
  else if String.eqb eventType EventTypeNftMinted then
    typed_result eventType "NftMintedEvent" (decodeNftMinted eventData)
  else
    (eventType, AnyNil,
     Some (Errorf ("decoder not implemented for " +:+ eventType))).

Definition DecodeEvent (d : EventDecoder) (data : list byte)
    : EventType * Any * option error :=
  if (length data <? 8)%nat then
    ("", AnyNil, Some (Errorf "data too short for discriminator"))
  else
    let discriminator := Base64.EncodeToString (firstn 8 data) in
    match discriminators d !! discriminator with
    | None => ("", AnyNil, Some (Errorf ("unknown discriminator: " +:+ discriminator)))
    | Some eventType =>
        let eventData := skipn 8 data in
        decodeByType eventType eventData
    end.

End WithByteSliceReader.

(** The reader that copies the next [n] bytes into the buffer, the one
    the length-prefixed string layout needs. *)
Definition readExactly (n : nat) : Dec (list byte) := readN n.

(** The first 8 bytes of the hash of ["event:" ‖ name]. *)
Definition discriminatorBytes (name : string) : list byte :=
  firstn 8 (SHA256.Sum256 (bytes_of_string ("event:" +:+ name))).

(** The twenty event type names of the map literal. *)
Definition knownTypes : list EventType :=
  [ EventTypeTokensMinted; EventTypeTokensTransferred; EventTypeTokensBurned;
    EventTypeDelegateApproved; EventTypeDelegateRevoked;
    EventTypeTokenAccountClosed; EventTypeTokenAccountFrozen;
    EventTypeTokenAccountThawed; EventTypeUserAccountCreated;
    EventTypeUserAccountUpdated; EventTypeUserAccountClosed;
    EventTypeConfigUpdated; EventTypeProgramPaused;
    EventTypeNftCollectionCreated; EventTypeNftMinted; EventTypeNftListed;
    EventTypeNftSold; EventTypeNftListingCancelled; EventTypeNftOfferCreated;
    EventTypeNftOfferAccepted ].

(** The seven of them the switch has a case for, and the other thirteen. *)
Definition decodedTypes : list EventType :=
  [ EventTypeTokensMinted; EventTypeTokensTransferred; EventTypeTokensBurned;
    EventTypeUserAccountCreated; EventTypeUserAccountUpdated;
    EventTypeConfigUpdated; EventTypeNftMinted ].

Definition undecodedTypes : list EventType :=
  [ EventTypeDelegateApproved; EventTypeDelegateRevoked;
    EventTypeTokenAccountClosed; EventTypeTokenAccountFrozen;
    EventTypeTokenAccountThawed; EventTypeUserAccountClosed;
    EventTypeProgramPaused; EventTypeNftCollectionCreated; EventTypeNftListed;
    EventTypeNftSold; EventTypeNftListingCancelled; EventTypeNftOfferCreated;
    EventTypeNftOfferAccepted ].

(** The payload layout of the wire format: 32-byte keys, little-endian
    64-bit integers, strings as a little-endian 32-bit length followed by
    the bytes. Events of the counter program have no binary form. *)
Definition encodeString (s : string) : list byte :=
  le_split 4 (Z.of_nat (length (bytes_of_string s))) ++ bytes_of_string s.

Definition encodePayload (e : Event) : option (list byte) :=
  match e with
  | TokensMintedEvent _ mint recipient amount ts =>
      Some (mint ++ recipient ++ le_split 8 amount ++ le_split 8 ts)
  | TokensTransferredEvent _ mint from to amount ts =>
      Some (mint ++ from ++ to ++ le_split 8 amount ++ le_split 8 ts)
  | TokensBurnedEvent _ mint owner amount ts =>
      Some (mint ++ owner ++ le_split 8 amount ++ le_split 8 ts)
  | UserAccountCreatedEvent _ user authority ts =>
      Some (user ++ authority ++ le_split 8 ts)
  | UserAccountUpdatedEvent _ user oldp newp ts =>
      Some (user ++ le_split 8 oldp ++ le_split 8 newp ++ le_split 8 ts)
  | ConfigUpdatedEvent _ admin oldf newf ts =>
      Some (admin ++ le_split 8 oldf ++ le_split 8 newf ++ le_split 8 ts)
  | NftMintedEvent _ nft coll owner name uri ts =>
      Some (nft ++ coll ++ owner ++ encodeString name ++ encodeString uri
            ++ le_split 8 ts)
  | _ => None
  end.

Definition is_key (k : PublicKey) : Prop := length k = 32%nat.
Definition is_u64 (z : Z) : Prop := 0 <= z < 2 ^ 64.
Definition is_i64 (z : Z) : Prop := - 2 ^ 63 <= z < 2 ^ 63.
Definition is_text (s : string) : Prop :=
  Z.of_nat (length (bytes_of_string s)) < 2 ^ 32.

(** A decoded event: the envelope is still zero, keys have 32 bytes,
    numbers are in the range of their type. *)
Definition wellFormed (e : Event) : Prop :=
  base_of e = zeroBaseEvent /\
  match e with
  | TokensMintedEvent _ mint recipient amount ts =>
      is_key mint /\ is_key recipient /\ is_u64 amount /\ is_i64 ts
  | TokensTransferredEvent _ mint from to amount ts =>
      is_key mint /\ is_key from /\ is_key to /\ is_u64 amount /\ is_i64 ts
  | TokensBurnedEvent _ mint owner amount ts =>
      is_key mint /\ is_key owner /\ is_u64 amount /\ is_i64 ts
  | UserAccountCreatedEvent _ user authority ts =>
      is_key user /\ is_key authority /\ is_i64 ts
  | UserAccountUpdatedEvent _ user oldp newp ts =>
      is_key user /\ is_u64 oldp /\ is_u64 newp /\ is_i64 ts
  | ConfigUpdatedEvent _ admin oldf newf ts =>
      is_key admin /\ is_u64 oldf /\ is_u64 newf /\ is_i64 ts
  | NftMintedEvent _ nft coll owner name uri ts =>
      is_key nft /\ is_key coll /\ is_key owner /\
      is_text name /\ is_text uri /\ is_i64 ts
  | _ => False
  end.

(** The token mint of the first scenario of the specification. *)
Definition scenarioMint : Event :=
  TokensMintedEvent zeroBaseEvent (repeat x01 32) (repeat x02 32) 1000 1700000000.

(** A name passes when its discriminator has 8 bytes and the map sends
    the base64 text of the discriminator back to the name. *)
Definition discriminator_ok (t : EventType) : bool :=
  Nat.eqb (length (discriminatorBytes t)) 8 &&
  match makeDiscriminatorMap !! Base64.EncodeToString (discriminatorBytes t) with
  | Some t' => String.eqb t' t
  | None => false
  end.

End decoder.

(** ** The functions of packages strings and strconv the log parser calls *)

Module gostrings.

Fixpoint drop (n : nat) (s : string) : string :=
  match n, s with
  | O, _ => s
  | S n', String _ s' => drop n' s'
  | S _, EmptyString => EmptyString
  end.

(** [strings.HasPrefix(s, prefix)] *)
Definition HasPrefix (s prefix : string) : bool := String.prefix prefix s.

(** [strings.TrimPrefix(s, prefix)] *)
Definition TrimPrefix (s prefix : string) : string :=
  if HasPrefix s prefix then drop (String.length prefix) s else s.

(** [strings.Contains(s, substr)] *)
Fixpoint Contains (s substr : string) : bool :=
  HasPrefix s substr ||
  match s with
  | EmptyString => false
  | String _ s' => Contains s' substr
  end.

(** [strings.Cut(s, sep)]: the text before and after the first [sep]. *)
Fixpoint Cut (s sep : string) : option (string * string) :=
  if HasPrefix s sep then Some (EmptyString, drop (String.length sep) s)
  else match s with
       | EmptyString => None
       | String c s' =>
           match Cut s' sep with
           | Some (before, after) => Some (String c before, after)
           | None => None
           end
       end.

(** [strings.Split(s, sep)] for a non-empty [sep]: cut at every occurrence,
    left to right. The fuel bounds the number of cuts by the length. *)
Fixpoint split_from (fuel : nat) (s sep : string) : list string :=
  match fuel with
  | O => [s]
  | S fuel' =>
      match Cut s sep with
      | None => [s]
      | Some (before, after) => before :: split_from fuel' after sep
      end
  end.

Definition Split (s sep : string) : list string :=
  split_from (S (String.length s)) s sep.

(** [unicode.IsSpace] on the encoded text. The one-byte spaces are tab,
    line feed, vertical tab, form feed, carriage return and space; the
    others are U+0085 and U+00A0 (two bytes), U+1680, U+2000..U+200A,
    U+2028, U+2029, U+202F, U+205F and U+3000 (three bytes). *)
Definition ascii_space (c : ascii) : bool :=
  let n := nat_of_ascii c in
  ((9 <=? n) && (n <=? 13) || (n =? 32))%nat.

Definition space2 (c1 c2 : ascii) : bool :=
  ((nat_of_ascii c1 =? 194) &&
   ((nat_of_ascii c2 =? 133) || (nat_of_ascii c2 =? 160)))%nat.

Definition space3 (c1 c2 c3 : ascii) : bool :=
  let a := nat_of_ascii c1 in
  let b := nat_of_ascii c2 in
  let c := nat_of_ascii c3 in
  ((a =? 225) && (b =? 154) && (c =? 128)
   || (a =? 226) && (b =? 128) &&
        ((128 <=? c) && (c <=? 138) || (c =? 168) || (c =? 169) || (c =? 175))
   || (a =? 226) && (b =? 129) && (c =? 159)
   || (a =? 227) && (b =? 128) && (c =? 128))%nat.

(** Leading white space: drop encoded space characters from the front. *)
Fixpoint trim_left (l : list ascii) : list ascii :=
  match l with
  | c1 :: l1 =>
      if ascii_space c1 then trim_left l1
      else match l1 with
           | c2 :: l2 =>
               if space2 c1 c2 then trim_left l2
               else match l2 with
                    | c3 :: l3 => if space3 c1 c2 c3 then trim_left l3 else l
                    | [] => l
                    end
           | [] => l
           end
  | [] => []
  end.

(** Trailing white space, on the reversed text: the last character is
    decoded backwards from the end. *)
Fixpoint trim_right_rev (l : list ascii) : list ascii :=
  match l with
  | c1 :: l1 =>
      if ascii_space c1 then trim_right_rev l1
      else match l1 with
           | c2 :: l2 =>
               if space2 c2 c1 then trim_right_rev l2
               else match l2 with
                    | c3 :: l3 => if space3 c3 c2 c1 then trim_right_rev l3 else l
                    | [] => l
                    end
           | [] => l
           end
  | [] => []
  end.

(** [strings.TrimSpace(s)] *)
Definition TrimSpace (s : string) : string :=
  string_of_list_ascii
    (rev (trim_right_rev (rev (trim_left (list_ascii_of_string s))))).

Definition is_digit (c : ascii) : bool :=
  ((48 <=? nat_of_ascii c) && (nat_of_ascii c <=? 57))%nat.

Definition digit_value (c : ascii) : Z := Z.of_nat (nat_of_ascii c) - 48.

Definition maxUint64 : Z := 2 ^ 64 - 1.
Definition wrap64 (x : Z) : Z := x mod 2 ^ 64.

Definition ErrSyntax : error := Errorf "invalid syntax".
Definition ErrRange : error := Errorf "value out of range".

(** The digit loop of [strconv.ParseUint(s, 10, 64)]: any byte that is not
    a decimal digit is a syntax error with value 0; an overflow is a range
    error with the largest value. *)
Fixpoint parse_digits (s : string) (n : Z) : Z * option error :=
  match s with
  | EmptyString => (n, None)
  | String c s' =>
      if is_digit c then
        let d := digit_value c in
        let cutoff := maxUint64 / 10 + 1 in
        if Z.leb cutoff n then (maxUint64, Some ErrRange)
        else
          let n10 := n * 10 in
          let n1 := wrap64 (n10 + d) in
          if Z.ltb n1 n10 then (maxUint64, Some ErrRange)
          else parse_digits s' n1
      else (0, Some ErrSyntax)
  end.

Definition ParseUint (s : string) : Z * option error :=
  match s with
  | EmptyString => (0, Some ErrSyntax)
  | _ => parse_digits s 0
  end.

(** The two regular expressions of the parser have the shape
    [lit0 (\d+) lit1 (\d+)] with [lit1] starting with a space. A match at
    the front of [s]: the literal, a maximal non-empty run of digits, the
    second literal, a maximal non-empty run of digits. *)
Fixpoint span_digits (s : string) : string * string :=
  match s with
  | String c s' =>
      if is_digit c then let '(d, r) := span_digits s' in (String c d, r)
      else (EmptyString, s)
  | EmptyString => (EmptyString, EmptyString)
  end.

Definition strip (lit s : string) : option string :=
  if HasPrefix s lit then Some (drop (String.length lit) s) else None.

Definition match_here (lit0 lit1 s : string) : option (string * string) :=
  match strip lit0 s with
  | None => None
  | Some s1 =>
      let '(d1, s2) := span_digits s1 in
      match d1 with
      | EmptyString => None
      | _ =>
          match strip lit1 s2 with
          | None => None
          | Some s3 =>
              let '(d2, _) := span_digits s3 in
              match d2 with
              | EmptyString => None
              | _ => Some (d1, d2)
              end
          end
      end
  end.

(** [re.FindStringSubmatch(s)]: the groups of the leftmost match. *)
Fixpoint FindStringSubmatch (lit0 lit1 s : string) : option (string * string) :=
  match match_here lit0 lit1 s with
  | Some groups => Some groups
  | None =>
      match s with
      | EmptyString => None
      | String _ s' => FindStringSubmatch lit0 lit1 s'
      end
  end.

(** Characters that are no white space and start no multi-byte character. *)
Definition plain_char (c : ascii) : bool :=
  (nat_of_ascii c <? 128)%nat && negb (ascii_space c).

(** Whether a character occurs in a string. *)
Fixpoint char_in (x : ascii) (s : string) : bool :=
  match s with
  | EmptyString => false
  | String c s' => Ascii.eqb x c || char_in x s'
  end.

(** Whether a string consists of decimal digits. *)
Fixpoint all_digits (s : string) : bool :=
  match s with
  | EmptyString => true
  | String c s' => is_digit c && all_digits s'
  end.

End gostrings.

(** ** package decoder: the counter log parser *)

Module logparser.
Import models gostrings.

Record CounterAction := mkCounterAction {
  Type_ : EventType;
  Counter : PublicKey;
  Authority : option PublicKey;
  OldValue : option Z;
  NewValue : option Z;
  AddedValue : option Z;
  Payer : option PublicKey;
  FeeCollector : option PublicKey;
  Payment : option Z
}.

(** A struct literal leaves the fields it does not name at nil. *)
Definition emptyAction (ty : EventType) (counter : PublicKey) : CounterAction :=
  mkCounterAction ty counter None None None None None None None.

Definition extractNumber (msg prefix : string) : option Z :=
  let numStr := TrimPrefix msg prefix in
  let numStr := TrimSpace numStr in
  match ParseUint numStr with
  | (_, Some _) => None
  | (num, None) => Some num
  end.

Definition msgPrefix : string := "Program log: ".

(** The part of [parseLogMessage] after [msg] and [counter] are set. Each
    [if] of the source is one step; a step that does not return falls
    through to the next. *)
Definition parsePayment (msg : string) (accounts : list PublicKey)
    (counter : PublicKey) : option CounterAction :=
  if HasPrefix msg "Payment of " && Contains msg "lamports received" then
    match FindStringSubmatch "Payment of "
            " lamports received. Counter incremented to: " msg with
    | Some (m1, m2) =>
        let payment := fst (ParseUint m1) in
        let newCount := fst (ParseUint m2) in
        let payer := if (1 <? length accounts)%nat then accounts !! 1%nat else None in
        let feeCollector := if (2 <? length accounts)%nat then accounts !! 2%nat else None in
        Some (mkCounterAction EventTypeCounterPaymentReceived counter None
                None (Some newCount) None payer feeCollector (Some payment))
    | None => None
    end
  else None.

Definition parseReset (msg : string) (accounts : list PublicKey)
    (counter : PublicKey) : option CounterAction :=
  if String.eqb msg "Counter reset" then
    Some (mkCounterAction EventTypeCounterReset counter None
            None (Some 0) None None None None)
  else parsePayment msg accounts counter.

Definition parseAdded (msg : string) (accounts : list PublicKey)
    (counter : PublicKey) : option CounterAction :=
  if HasPrefix msg "Added " && Contains msg "to counter" then
    match FindStringSubmatch "Added " " to counter. New value: " msg with
    | Some (m1, m2) =>
        let added := fst (ParseUint m1) in
        let newVal := fst (ParseUint m2) in
        let oldVal := wrap64 (newVal - added) in
        Some (mkCounterAction EventTypeCounterAdded counter None
                (Some oldVal) (Some newVal) (Some added) None None None)
    | None => parseReset msg accounts counter
    end
  else parseReset msg accounts counter.

Definition parseDecremented (msg : string) (accounts : list PublicKey)
    (counter : PublicKey) : option CounterAction :=
  if HasPrefix msg "Counter decremented to: " then
    match extractNumber msg "Counter decremented to: " with
    | Some newValue =>
        let oldValue := wrap64 (newValue + 1) in
        Some (mkCounterAction EventTypeCounterDecremented counter None
                (Some oldValue) (Some newValue) None None None None)
    | None => parseAdded msg accounts counter
    end
  else parseAdded msg accounts counter.

Definition parseIncremented (msg : string) (accounts : list PublicKey)
    (counter : PublicKey) : option CounterAction :=
  if HasPrefix msg "Counter incremented to: " then
    match extractNumber msg "Counter incremented to: " with
    | Some newValue =>
        let oldValue := wrap64 (newValue - 1) in
        Some (mkCounterAction EventTypeCounterIncremented counter None
                (Some oldValue) (Some newValue) None None None None)
    | None => parseDecremented msg accounts counter
    end
  else parseDecremented msg accounts counter.

Definition parseMessage (msg : string) (accounts : list PublicKey)
    (counter : PublicKey) : option CounterAction :=
  if String.eqb msg "Counter initialized" then
    Some (mkCounterAction EventTypeCounterInitialized counter None
            None (Some 0) None None None None)
  else parseIncremented msg accounts counter.

(** [parseLogMessage]. Index 1 of the split exists whenever the line
    contains the prefix; [None] also stands for the index panic, which
    [Split_has_second] shows cannot happen. *)
Definition parseLogMessage (log : string) (accounts : list PublicKey)
    : option CounterAction :=
  if negb (Contains log msgPrefix) then None
  else
    match Split log msgPrefix !! 1%nat with
    | None => None
    | Some part =>
        let msg := TrimSpace part in
        let counter :=
          if (0 <? length accounts)%nat
          then default zeroPublicKey (accounts !! 0%nat)
          else zeroPublicKey in
        parseMessage msg accounts counter
    end.

(** [ParseLogs]: the actions of the lines, in line order; the error
    result is always nil. *)
Fixpoint ParseLogs_loop (logs : list string) (accounts : list PublicKey)
    (actions : list CounterAction) : list CounterAction :=
  match logs with
  | [] => actions
  | log :: rest =>
      if negb (Contains log "Program log:") then ParseLogs_loop rest accounts actions
      else
        match parseLogMessage log accounts with
        | Some action => ParseLogs_loop rest accounts (actions ++ [action])
        | None => ParseLogs_loop rest accounts actions
        end
  end.

Definition ParseLogs (logs : list string) (accounts : list PublicKey)
    : list CounterAction * option error :=
  (ParseLogs_loop logs accounts [], None).

(** Whether a message falls under one of the six patterns, as the guards
    of [parseLogMessage] test it. *)
Definition matches_pattern (msg : string) : bool :=
  String.eqb msg "Counter initialized"
  || HasPrefix msg "Counter incremented to: "
  || HasPrefix msg "Counter decremented to: "
  || HasPrefix msg "Added " && Contains msg "to counter"
  || String.eqb msg "Counter reset"
  || HasPrefix msg "Payment of " && Contains msg "lamports received".

(** An action with the account fields a transaction without accounts gives. *)
Definition without_accounts (a : CounterAction) : CounterAction :=
  mkCounterAction (Type_ a) zeroPublicKey (Authority a) (OldValue a) (NewValue a)
    (AddedValue a) None None (Payment a).

End logparser.

(** ** package repository: the document store *)

Module repository.
Import models.

(** Field values of a stored document. *)
Inductive Value :=
| VString (s : string)
| VInt (n : Z)
| VTime (t : Z)
| VBinary (bs : list byte)
| VObjectID (n : nat).

#[global] Instance byte_eq_dec : EqDecision byte := Byte.byte_eq_dec.
#[global] Instance Value_eq_dec : EqDecision Value.
Proof. solve_decision. Defined.

Definition Document := list (string * Value).

Fixpoint field (name : string) (doc : Document) : option Value :=
  match doc with
  | [] => None
  | (k, v) :: rest => if String.eqb k name then Some v else field name rest
  end.

(** The fields of [BaseEvent] under their bson tags; [_id] and [raw_data]
    are [omitempty]. *)
Definition base_fields (b : BaseEvent) : Document :=
  (if String.eqb (ID b) "" then [] else [("_id", VString (ID b))]) ++
  [ ("event_type", VString (EventType_ b));
    ("signature", VString (Signature b));
    ("slot", VInt (Slot b));
    ("block_time", VTime (BlockTime b));
    ("program_id", VBinary (ProgramID b));
    ("created_at", VTime (CreatedAt b)) ] ++
  (match RawData b with [] => [] | raw => [("raw_data", VBinary raw)] end).

Definition payload_fields (e : Event) : Document :=
  match e with
  | TokensMintedEvent _ mint recipient amount ts =>
      [("mint", VBinary mint); ("recipient", VBinary recipient);
       ("amount", VInt amount); ("timestamp", VInt ts)]
  | TokensTransferredEvent _ mint from to amount ts =>
      [("mint", VBinary mint); ("from", VBinary from); ("to", VBinary to);
       ("amount", VInt amount); ("timestamp", VInt ts)]
  | TokensBurnedEvent _ mint owner amount ts =>
      [("mint", VBinary mint); ("owner", VBinary owner);
       ("amount", VInt amount); ("timestamp", VInt ts)]
  | UserAccountCreatedEvent _ user authority ts =>
      [("user", VBinary user); ("authority", VBinary authority); ("timestamp", VInt ts)]
  | UserAccountUpdatedEvent _ user oldp newp ts =>
      [("user", VBinary user); ("old_points", VInt oldp);
       ("new_points", VInt newp); ("timestamp", VInt ts)]
  | ConfigUpdatedEvent _ admin oldf newf ts =>
      [("admin", VBinary admin); ("old_fee", VInt oldf);
       ("new_fee", VInt newf); ("timestamp", VInt ts)]
  | NftMintedEvent _ nft coll owner name uri ts =>
      [("nft_mint", VBinary nft); ("collection", VBinary coll); ("owner", VBinary owner);
       ("name", VString name); ("uri", VString uri); ("timestamp", VInt ts)]
  | CounterInitializedEvent _ counter authority initial =>
      [("counter", VBinary counter); ("authority", VBinary authority);
       ("initial_count", VInt initial)]
  | CounterIncrementedEvent _ counter oldv newv =>
      [("counter", VBinary counter); ("old_value", VInt oldv); ("new_value", VInt newv)]
  | CounterDecrementedEvent _ counter oldv newv =>
      [("counter", VBinary counter); ("old_value", VInt oldv); ("new_value", VInt newv)]
  | CounterAddedEvent _ counter oldv added newv =>
      [("counter", VBinary counter); ("old_value", VInt oldv);
       ("added_value", VInt added); ("new_value", VInt newv)]
  | CounterResetEvent _ counter authority oldv =>
      [("counter", VBinary counter); ("authority", VBinary authority);
       ("old_value", VInt oldv)]
  | CounterPaymentReceivedEvent _ counter payer fee payment newc =>
      [("counter", VBinary counter); ("payer", VBinary payer);
       ("fee_collector", VBinary fee); ("payment", VInt payment);
       ("new_count", VInt newc)]
  end.

Definition document_of (e : Event) : Document :=
  base_fields (base_of e) ++ payload_fields e.

(** Marshalling of the [interface{}] argument of an insert. *)
Definition marshal (event : Any) : error + Document :=
  match event with
  | AnyNil | AnyNilPtr _ => inl (DriverError "document is nil")
  | AnyPtr e | AnyVal e => inr (document_of e)
  end.

(** [mongo.IndexModel]: the keys with their direction (1 or -1) and the
    unique option. *)
Record IndexModel := mkIndexModel { Keys : list (string * Z); Unique : bool }.

#[global] Instance IndexModel_eq_dec : EqDecision IndexModel.
Proof. solve_decision. Defined.

(** A collection: its documents in insertion order, its indexes, and the
    counter from which the driver draws fresh object ids. Every
    collection has the unique index on [_id]. *)
Record Collection := mkCollection {
  docs : list Document;
  indexes : list IndexModel;
  next_id : nat
}.

Definition id_index : IndexModel := mkIndexModel [("_id", 1)] true.
Definition emptyCollection : Collection := mkCollection [] [id_index] 0.

(** The key of a document under an index; an absent field counts as null. *)
Definition index_key (idx : IndexModel) (doc : Document) : list (option Value) :=
  map (fun k => field (fst k) doc) (Keys idx).

Definition key_taken (idx : IndexModel) (ds : list Document) (doc : Document) : bool :=
  existsb (fun d => bool_decide (index_key idx d = index_key idx doc)) ds.

Definition index_name (idx : IndexModel) : string :=
  String.concat "_" (map fst (Keys idx)).

(** The first unique index whose key of [doc] is already stored. *)
Definition violated (idxs : list IndexModel) (ds : list Document) (doc : Document)
    : option IndexModel :=
  List.find (fun idx => Unique idx && key_taken idx ds doc) idxs.

(** [collection.InsertOne]. [fault] is a failure of the connection, if
    any; otherwise a document without [_id] gets a fresh one, and the
    insert is refused with E11000 when a unique index already holds its key. *)
Definition InsertOne (fault : option error) (c : Collection) (event : Any)
    : Collection * option error :=
  match fault with
  | Some e => (c, Some e)
  | None =>
      match marshal event with
      | inl e => (c, Some e)
      | inr d =>
          let '(doc, next) :=
            match field "_id" d with
            | Some _ => (d, next_id c)
            | None => (("_id", VObjectID (next_id c)) :: d, S (next_id c))
            end in
          match violated (indexes c) (docs c) doc with
          | Some idx => (c, Some (WriteException DuplicateKeyCode (index_name idx)))
          | None => (mkCollection (docs c ++ [doc]) (indexes c) next, None)
          end
      end
  end.

(** Whether the stored documents already repeat a key of a unique index. *)
Fixpoint has_duplicates (idx : IndexModel) (ds : list Document) : bool :=
  match ds with
  | [] => false
  | d :: rest => key_taken idx rest d || has_duplicates idx rest
  end.

(** The store's error for an index requested with the keys of an existing
    index and other options. *)
Definition IndexOptionsConflictCode : Z := 85.

Definition conflicts (olds : list IndexModel) (idx : IndexModel) : bool :=
  existsb (fun old => bool_decide (Keys old = Keys idx) && negb (bool_decide (old = idx)))
          olds.

(** [collection.Indexes().CreateMany]: an index that exists is left as it
    is; one that exists with other options is refused; building a unique
    index over documents that repeat its key fails with E11000. When the
    call fails no index of the batch is kept. *)
Definition CreateMany (fault : option error) (c : Collection) (models : list IndexModel)
    : Collection * option error :=
  match fault with
  | Some e => (c, Some e)
  | None =>
      match List.find (conflicts (indexes c)) models with
      | Some idx => (c, Some (WriteException IndexOptionsConflictCode (index_name idx)))
      | None =>
          match List.find (fun idx => Unique idx && has_duplicates idx (docs c)) models with
          | Some idx => (c, Some (WriteException DuplicateKeyCode (index_name idx)))
          | None =>
              let fresh := filter (fun idx => idx ∉ indexes c) (remove_dups models) in
              (mkCollection (docs c) (indexes c ++ fresh) (next_id c), None)
          end
      end
  end.

Record MongoRepository := mkMongoRepository { collection : Collection }.

Definition SaveEvent (fault : option error) (r : MongoRepository) (event : Any)
    : MongoRepository * option error :=
  match InsertOne fault (collection r) event with
  | (c, Some err) => (mkMongoRepository c, Some (Wrapf "insert event" err))
  | (c, None) => (mkMongoRepository c, None)
  end.

Definition createIndexModels : list IndexModel :=
  [ mkIndexModel [("signature", 1)] true;
    mkIndexModel [("event_type", 1)] false;
    mkIndexModel [("block_time", -1)] false;
    mkIndexModel [("slot", -1)] false ].

Definition CreateIndexes (fault : option error) (r : MongoRepository)
    : MongoRepository * option error :=
  let indexes := createIndexModels in
  match CreateMany fault (collection r) indexes with
  | (c, Some err) => (mkMongoRepository c, Some (Wrapf "create indexes" err))
  | (c, None) => (mkMongoRepository c, None)
  end.

(** A run of the store: [SaveEvent] calls one after the other, each with
    the connection failure it meets, if any. *)
Fixpoint save_all (r : MongoRepository) (calls : list (option error * Any))
    : MongoRepository :=
  match calls with
  | [] => r
  | (fault, event) :: rest => save_all (fst (SaveEvent fault r event)) rest
  end.

Definition signature_of (doc : Document) : option Value := field "signature" doc.

(** The index set the specification describes for [ensure_indexes]. *)
Definition specIndexModels : list IndexModel :=
  [ mkIndexModel [("signature", 1); ("event_type", 1); ("ordinal", 1)] true;
    mkIndexModel [("event_type", 1)] false;
    mkIndexModel [("block_time", -1)] false;
    mkIndexModel [("slot", -1)] false;
    mkIndexModel [("program_id", 1)] false ].

(** The invariant of a unique index: it is installed and no two stored
    documents have the same key under it. *)
Definition unique_holds (idx : IndexModel) (c : Collection) : Prop :=
  In idx (indexes c) /\ NoDup (map (index_key idx) (docs c)).

(** Two events of one transaction, as the processor hands them over. *)
Definition sampleBase (ty : EventType) : BaseEvent :=
  mkBaseEvent "" ty "5VERv8NMvzbJMEkV8xnrLkEaWRtSz9CosKDYjCJjBRnb" 7 1700000000
    zeroPublicKey 1700000001 [].

Definition sampleMinted : Event :=
  TokensMintedEvent (sampleBase EventTypeTokensMinted)
    (repeat x01 32) (repeat x02 32) 1000 1700000000.

Definition sampleBurned : Event :=
  TokensBurnedEvent (sampleBase EventTypeTokensBurned)
    (repeat x01 32) (repeat x02 32) 10 1700000000.

(** The unique index [CreateIndexes] asks for. *)
Definition signatureIndex : IndexModel := mkIndexModel [("signature", 1)] true.

(** A fresh store on which [CreateIndexes] has run. *)
Definition indexedStore : MongoRepository :=
  fst (CreateIndexes None (mkMongoRepository emptyCollection)).

End repository.

(** ** package processor *)

Module processor.
Import models.

(** How a call ends: it returns its [error] result, or it panics. *)
Inductive outcome :=
| Returned (err : option error)
| Panicked (msg : string).

Section WithRepository.

(** [repository.Repository]: any store with a [SaveEvent] method. *)
Variable Repo : Type.
Variable SaveEvent : Repo -> Any -> Repo * option error.

Record EventProcessor := mkEventProcessor { programID : PublicKey }.

(** The state a call works on: the store and the lines written with
    [log.Printf]. *)
Record World := mkWorld { repo : Repo; logged : list string }.

(** The handlers are the same up to the struct type: assert that the
    payload is a struct of that type held by value, set its [BaseEvent],
    save a pointer to it. *)
Definition processTyped (ty : string) (w : World) (base : BaseEvent) (data : Any)
    : World * outcome :=
  match data with
  | AnyVal e =>
      if String.eqb (struct_name e) ty then
        let event := set_base base e in
        let '(r, err) := SaveEvent (repo w) (AnyPtr event) in
        (mkWorld r (logged w), Returned err)
      else (w, Panicked "interface conversion")
  | _ => (w, Panicked "interface conversion")
  end.

Definition processTokensMinted := processTyped "TokensMintedEvent".
Definition processTokensTransferred := processTyped "TokensTransferredEvent".
Definition processTokensBurned := processTyped "TokensBurnedEvent".
Definition processUserAccountCreated := processTyped "UserAccountCreatedEvent".
Definition processUserAccountUpdated := processTyped "UserAccountUpdatedEvent".
Definition processConfigUpdated := processTyped "ConfigUpdatedEvent".
Definition processNftMinted := processTyped "NftMintedEvent".
Definition processCounterInitialized := processTyped "CounterInitializedEvent".
Definition processCounterIncremented := processTyped "CounterIncrementedEvent".
Definition processCounterDecremented := processTyped "CounterDecrementedEvent".
Definition processCounterAdded := processTyped "CounterAddedEvent".
Definition processCounterReset := processTyped "CounterResetEvent".
Definition processCounterPaymentReceived := processTyped "CounterPaymentReceivedEvent".

(** [ProcessEvent]; [now] is the reading of the clock. *)
Definition ProcessEvent (p : EventProcessor) (now : Z) (w : World)
    (signature : string) (slot : Z) (blockTime : Z)
    (eventType : EventType) (eventData : Any) : World * outcome :=
  let baseEvent :=
    mkBaseEvent "" eventType signature slot blockTime (programID p) now [] in
  if String.eqb eventType EventTypeTokensMinted then
    processTokensMinted w baseEvent eventData
  else if String.eqb eventType EventTypeTokensTransferred then
    processTokensTransferred w baseEvent eventData
  else if String.eqb eventType EventTypeTokensBurned then
    processTokensBurned w baseEvent eventData
  else if String.eqb eventType EventTypeUserAccountCreated then
    processUserAccountCreated w baseEvent eventData
  else if String.eqb eventType EventTypeUserAccountUpdated then
    processUserAccountUpdated w baseEvent eventData
  else if String.eqb eventType EventTypeConfigUpdated then
    processConfigUpdated w baseEvent eventData
  else if String.eqb eventType EventTypeNftMinted then
    processNftMinted w baseEvent eventData
  else if String.eqb eventType EventTypeCounterInitialized then
    processCounterInitialized w baseEvent eventData
  else if String.eqb eventType EventTypeCounterIncremented then
    processCounterIncremented w baseEvent eventData
  else if String.eqb eventType EventTypeCounterDecremented then
    processCounterDecremented w baseEvent eventData
  else if String.eqb eventType EventTypeCounterAdded then
    processCounterAdded w baseEvent eventData
  else if String.eqb eventType EventTypeCounterReset then
    processCounterReset w baseEvent eventData
  else if String.eqb eventType EventTypeCounterPaymentReceived then
    processCounterPaymentReceived w baseEvent eventData
  else
    (mkWorld (repo w) (logged w ++ ["Unknown event type: " +:+ eventType]),
     Returned None).

End WithRepository.

(** The event types the dispatch switch has a case for. *)
Definition handledTypes : list EventType :=
  [ EventTypeTokensMinted; EventTypeTokensTransferred; EventTypeTokensBurned;
    EventTypeUserAccountCreated; EventTypeUserAccountUpdated;
    EventTypeConfigUpdated; EventTypeNftMinted;
    EventTypeCounterInitialized; EventTypeCounterIncremented;
    EventTypeCounterDecremented; EventTypeCounterAdded;
    EventTypeCounterReset; EventTypeCounterPaymentReceived ].

End processor.

(** ** package solana: the ledger client *)

Module solana.
Import models.

(** [solana.Signature] is a [[64]byte] array; the zero value means unset. *)
Definition Signature := list byte.
Definition zeroSignature : Signature := repeat x00 64.

Record TransactionSignature := mkTransactionSignature {
  sig : Signature;
  sig_slot : Z;
  sig_block_time : option Z
}.

(** [rpc.GetSignaturesForAddressOpts] *)
Record GetSignaturesForAddressOpts := mkOpts {
  Limit : option Z;
  Before : Signature;
  Until : Signature
}.

(** The request the RPC library puts on the wire. *)
Record Request := mkRequest {
  method : string;
  account : PublicKey;
  options : option GetSignaturesForAddressOpts
}.

Section WithTransport.

(** The node at the other end: its answer to a request. *)
Variable transport : Request -> error + list TransactionSignature.

(** The two methods of [rpc.Client]: the one without options forwards nil
    options to the one with options. *)
Definition rpc_GetSignaturesForAddressWithOpts (account : PublicKey)
    (opts : option GetSignaturesForAddressOpts)
    : list Request * (error + list TransactionSignature) :=
  let req := mkRequest "getSignaturesForAddress" account opts in
  ([req], transport req).

Definition rpc_GetSignaturesForAddress (account : PublicKey)
    : list Request * (error + list TransactionSignature) :=
  rpc_GetSignaturesForAddressWithOpts account None.

(** [Client.GetSignaturesForAddress]: the requests it issues and its
    result. The options are built and then not handed to the call. *)
Definition GetSignaturesForAddress (address : PublicKey) (limit : Z)
    (before until : option Signature)
    : list Request * (error + list TransactionSignature) :=
  let opts := mkOpts (Some limit) zeroSignature zeroSignature in
  let opts := match before with
              | Some b => mkOpts (Limit opts) b (Until opts)
              | None => opts
              end in
  let opts := match until with
              | Some u => mkOpts (Limit opts) (Before opts) u
              | None => opts
              end in
  let '(reqs, res) := rpc_GetSignaturesForAddress address in
  match res with
  | inl err => (reqs, inl (Wrapf "get signatures for address" err))
  | inr sigs => (reqs, inr sigs)
  end.

End WithTransport.

(** A node that serves one address from its history, newest first: it
    starts after [before] when set, stops before [until] when set, and
    returns at most [limit] entries, 1000 when no limit is given. *)
Fixpoint after_sig (s : Signature) (h : list TransactionSignature)
    : list TransactionSignature :=
  match h with
  | [] => []
  | x :: rest => if bool_decide (sig x = s) then rest else after_sig s rest
  end.

Fixpoint until_sig (s : Signature) (h : list TransactionSignature)
    : list TransactionSignature :=
  match h with
  | [] => []
  | x :: rest => if bool_decide (sig x = s) then [] else x :: until_sig s rest
  end.

Definition node (history : list TransactionSignature) (req : Request)
    : error + list TransactionSignature :=
  match options req with
  | None => inr (firstn 1000 history)
  | Some o =>
      let h := if bool_decide (Before o = zeroSignature) then history
               else after_sig (Before o) history in
      let h := if bool_decide (Until o = zeroSignature) then h
               else until_sig (Until o) h in
      inr (firstn (Z.to_nat (default 1000 (Limit o))) h)
  end.

Definition sigA : Signature := repeat x0a 64.
Definition sigB : Signature := repeat x0b 64.
Definition sigC : Signature := repeat x0c 64.

(** Three transactions of one program, newest first. *)
Definition history3 : list TransactionSignature :=
  [ mkTransactionSignature sigC 30 (Some 1700000030);
    mkTransactionSignature sigB 20 (Some 1700000020);
    mkTransactionSignature sigA 10 (Some 1700000010) ].

End solana.

(** ** encoding/base64, [StdEncoding.DecodeString] *)

Module Base64Dec.

(** The 6-bit value of a character of the alphabet. *)
Fixpoint index_of (c : ascii) (s : string) (i : Z) : option Z :=
  match s with
  | EmptyString => None
  | String x s' => if Ascii.eqb c x then Some i else index_of c s' (i + 1)
  end.

Definition dec_char (c : ascii) : option Z := index_of c Base64.alphabet 0.

Definition is_newline (c : ascii) : bool :=
  (nat_of_ascii c =? 10)%nat || (nat_of_ascii c =? 13)%nat.

Definition is_pad (c : ascii) : bool := Ascii.eqb c "="%char.

(** The bytes of a quantum of four 6-bit values. *)
Definition quantum (v0 v1 v2 v3 : Z) : Z := ((v0 * 64 + v1) * 64 + v2) * 64 + v3.
Definition byte0 (val : Z) : byte := byte.of_Z (val / 65536).
Definition byte1 (val : Z) : byte := byte.of_Z (val / 256).
Definition byte2 (val : Z) : byte := byte.of_Z val.

(** Quanta of four characters; padding is accepted only in the last
    quantum, as [xx==] or [xxx=], and nothing may follow it. Bits left over
    in a padded quantum are not checked (the encoding is not strict). *)
Fixpoint decode_quanta (l : list ascii) : option (list byte) :=
  match l with
  | [] => Some []
  | a :: b :: c :: d :: rest =>
      match dec_char a, dec_char b with
      | Some v0, Some v1 =>
          match dec_char c with
          | Some v2 =>
              match dec_char d with
              | Some v3 =>
                  match decode_quanta rest with
                  | Some bs =>
                      let val := quantum v0 v1 v2 v3 in
                      Some (byte0 val :: byte1 val :: byte2 val :: bs)
                  | None => None
                  end
              | None =>
                  match rest with
                  | [] =>
                      if is_pad d then
                        let val := quantum v0 v1 v2 0 in
                        Some [byte0 val; byte1 val]
                      else None
                  | _ => None
                  end
              end
          | None =>
              match rest with
              | [] =>
                  if is_pad c && is_pad d then Some [byte0 (quantum v0 v1 0 0)]
                  else None
              | _ => None
              end
          end
      | _, _ => None
      end
  | _ => None
  end.

(** Line feeds and carriage returns are ignored wherever they stand;
    [None] is the corrupt-input error. *)
Definition DecodeString (s : string) : option (list byte) :=
  decode_quanta (List.filter (fun c => negb (is_newline c)) (list_ascii_of_string s)).

Definition is_byte_value (z : Z) : Prop := 0 <= z < 256.

(** The check that a 6-bit value encodes to a character that decodes back
    to it and is no line break. *)
Definition enc_ok (n : nat) : bool :=
  match dec_char (Base64.enc (Z.of_nat n)) with
  | Some v => Z.eqb v (Z.of_nat n)
  | None => false
  end
  && negb (is_newline (Base64.enc (Z.of_nat n))).

End Base64Dec.

(** ** package decoder: program data lines and the program filter *)

Module programdata.
Import models decoder.

(** [ParseProgramData]: the loop over the lines, [programData] being the
    slice built so far. The byte at index 13 is skipped unread. *)
Fixpoint ParseProgramData_loop (logs : list string) (programData : list (list byte))
    : list (list byte) :=
  match logs with
  | [] => programData
  | log :: rest =>
      if (String.length log <? 14)%nat then ParseProgramData_loop rest programData
      else if String.eqb (substring 0 13 log) "Program data:" then
        let dataStr := gostrings.drop 14 log in
        match Base64Dec.DecodeString dataStr with
        | None => ParseProgramData_loop rest programData
        | Some data => ParseProgramData_loop rest (programData ++ [data])
        end
      else ParseProgramData_loop rest programData
  end.

Definition ParseProgramData (logs : list string) : list (list byte) :=
  ParseProgramData_loop logs [].

(** [FilterByProgramID] *)
Definition FilterByProgramID (programID : PublicKey) (data : list byte) : bool :=
  if (length data <? 8)%nat then false
  else match decodePublicKey data with
       | inl _ => false
       | inr (eventProgramID, _) => bool_decide (eventProgramID = programID)
       end.

(** The payload sizes of the six event types without strings. *)
Definition fixedSize (t : EventType) : option nat :=
  if String.eqb t EventTypeTokensMinted then Some 80%nat
  else if String.eqb t EventTypeTokensTransferred then Some 112%nat
  else if String.eqb t EventTypeTokensBurned then Some 80%nat
  else if String.eqb t EventTypeUserAccountCreated then Some 72%nat
  else if String.eqb t EventTypeUserAccountUpdated then Some 56%nat
  else if String.eqb t EventTypeConfigUpdated then Some 56%nat
  else None.

End programdata.

(** ** What a decoded fixed-width event is *)

Module decoded.
Import models decoder.

(** The decoded event of a payload with enough bytes: it has the struct of
    the type, it is well formed, it encodes to the [k] bytes that were
    read, and the switch returns a pointer to it. *)
Definition decodes_to (rd : nat -> Dec (list byte)) (t : EventType) (k : nat)
    (payload : list byte) (e : Event) : Prop :=
  struct_name e = t /\ wellFormed e /\
  encodePayload e = Some (firstn k payload) /\
  decodeByType rd t payload = (t, AnyPtr e, None).

End decoded.

(** ** package indexer: from parsed actions to event structs *)

Module indexer.
Import models logparser.

Definition valueOrDefault (ptr : option Z) (defaultValue : Z) : Z :=
  match ptr with
  | Some v => v
  | None => defaultValue
  end.

(** [convertCounterActionToEvent]: the struct of the action type, held by
    value, its envelope still zero; untyped nil for any other type. *)
Definition convertCounterActionToEvent (action : CounterAction) : Any :=
  if String.eqb (Type_ action) EventTypeCounterInitialized then
    let authority := match Authority action with
                     | Some a => a
                     | None => zeroPublicKey
                     end in
    AnyVal (CounterInitializedEvent zeroBaseEvent (Counter action) authority
              (valueOrDefault (NewValue action) 0))
  else if String.eqb (Type_ action) EventTypeCounterIncremented then
    AnyVal (CounterIncrementedEvent zeroBaseEvent (Counter action)
              (valueOrDefault (OldValue action) 0)
              (valueOrDefault (NewValue action) 0))
  else if String.eqb (Type_ action) EventTypeCounterDecremented then
    AnyVal (CounterDecrementedEvent zeroBaseEvent (Counter action)
              (valueOrDefault (OldValue action) 0)
              (valueOrDefault (NewValue action) 0))
  else if String.eqb (Type_ action) EventTypeCounterAdded then
    AnyVal (CounterAddedEvent zeroBaseEvent (Counter action)
              (valueOrDefault (OldValue action) 0)
              (valueOrDefault (AddedValue action) 0)
              (valueOrDefault (NewValue action) 0))
  else if String.eqb (Type_ action) EventTypeCounterReset then
    let authority := match Authority action with
                     | Some a => a
                     | None => zeroPublicKey
                     end in
    AnyVal (CounterResetEvent zeroBaseEvent (Counter action) authority
              (valueOrDefault (OldValue action) 0))
  else if String.eqb (Type_ action) EventTypeCounterPaymentReceived then
    let payer := match Payer action with
                 | Some a => a
                 | None => zeroPublicKey
                 end in
    let feeCollector := match FeeCollector action with
                        | Some a => a
                        | None => zeroPublicKey
                        end in
    AnyVal (CounterPaymentReceivedEvent zeroBaseEvent (Counter action)
              payer feeCollector
              (valueOrDefault (Payment action) 0)
              (valueOrDefault (NewValue action) 0))
  else AnyNil.

(** The six event types of the counter program. *)
Definition counterTypes : list EventType :=
  [ EventTypeCounterInitialized; EventTypeCounterIncremented;
    EventTypeCounterDecremented; EventTypeCounterAdded;
    EventTypeCounterReset; EventTypeCounterPaymentReceived ].

(** The envelope [ProcessEvent] builds. *)
Definition envelope (programID : PublicKey) (now : Z) (signature : string)
    (slot blockTime : Z) (eventType : EventType) : BaseEvent :=
  mkBaseEvent "" eventType signature slot blockTime programID now [].

End indexer.

Module stored.
Import models repository indexer.

(** The document the store holds for an event handed over by
    [ProcessEvent]: the fresh object id, the envelope of the call, the
    fields of the struct. *)
Definition stored_document (id : nat) (programID : PublicKey) (now : Z)
    (signature : string) (slot blockTime : Z) (e : Event) : Document :=
  ("_id", VObjectID id) ::
  [ ("event_type", VString (struct_name e));
    ("signature", VString signature);
    ("slot", VInt slot);
    ("block_time", VTime blockTime);
    ("program_id", VBinary programID);
    ("created_at", VTime now) ] ++ payload_fields e.

End stored.

Module numerals.
Import gostrings.

(** The number a run of decimal digits denotes, read after [n]. *)
Fixpoint decimal_from (s : string) (n : Z) : Z :=
  match s with
  | EmptyString => n
  | String c s' => decimal_from s' (n * 10 + digit_value c)
  end.

Definition decimal (s : string) : Z := decimal_from s 0.

End numerals.

Module counterlog.
Import gostrings.

(** [IsCounterProgramLog]; [programID] is the base58 text of the key. *)
Definition IsCounterProgramLog (log : string) (programID : string) : bool :=
  let programStr := "Program " +:+ programID +:+ " invoke" in
  Contains log programStr || Contains log "Program log:".

End counterlog.

(** ** package indexer: transactions and signature pages *)

Module indexing.
Import models decoder programdata logparser processor indexer.

(** What the indexer reads of a fetched transaction: the slot; the block
    time, [None] when [tx.BlockTime] is nil, on which
    [tx.BlockTime.Time()] dereferences a nil pointer; the log messages,
    [None] when [tx.Meta] is nil; the account keys, [None] when the
    transaction body is absent or does not decode. *)
Record TransactionResult := mkTransactionResult {
  tx_slot : Z;
  tx_block_time : option Z;
  tx_logs : option (list string);
  tx_accounts : option (list PublicKey)
}.

(** The fields of [Indexer] the polling reads and writes. *)
Record Indexer := mkIndexer {
  batchSize : Z;
  starterProgramID : PublicKey;
  counterProgramID : PublicKey;
  lastStarterSig : option solana.Signature;
  lastCounterSig : option solana.Signature
}.

Definition nilDereference : string :=
  "invalid memory address or nil pointer dereference".

(** A fetched transaction with its meta data and without a block time. *)
Definition lacks_block_time (fetched : error + option TransactionResult) : bool :=
  match fetched with
  | inr (Some tx) =>
      match tx_logs tx, tx_block_time tx with
      | Some _, None => true
      | _, _ => false
      end
  | _ => false
  end.

Section WithEnvironment.

(** The store; [SaveEventAt k] is its [SaveEvent] as it behaves at the
    [k]-th call of [ProcessEvent], [clock k] the time read there. *)
Variable Repo : Type.
Variable SaveEventAt : nat -> Repo -> Any -> Repo * option error.
Variable clock : nat -> Z.

(** The reader of the binary library, texts of errors ([%v]), of numbers
    ([%d]) and of signatures, and the node's answer to [getTransaction]. *)
Variable rd : nat -> Dec (list byte).
Variable render : error -> string.
Variable itoa : Z -> string.
Variable sigString : solana.Signature -> string.
Variable rpc_GetTransaction : solana.Signature -> error + option TransactionResult.
Variable transport : solana.Request -> error + list solana.TransactionSignature.

Definition log_line (w : World Repo) (line : string) : World Repo :=
  mkWorld Repo (repo Repo w) (logged Repo w ++ [line]).

(** [Client.GetTransaction] *)
Definition GetTransaction (signature : solana.Signature)
    : error + option TransactionResult :=
  match rpc_GetTransaction signature with
  | inl err => inl (Wrapf "get transaction" err)
  | inr out => inr out
  end.

(** The loop of [processStarterTransaction] over the decoded program
    data; [k] counts the calls of [ProcessEvent]. A panic ends it. *)
Fixpoint starterEvents (p : EventProcessor) (signature : string) (slot blockTime : Z)
    (programDataList : list (list byte)) (w : World Repo) (k : nat)
    : World Repo * nat * outcome :=
  match programDataList with
  | [] => (w, k, Returned None)
  | data :: rest =>
      let '(eventType, eventData, err) := DecodeEvent rd NewEventDecoder data in
      match err with
      | Some e =>
          starterEvents p signature slot blockTime rest
            (log_line w ("failed to decode event: " +:+ render e)) k
      | None =>
          match ProcessEvent Repo (SaveEventAt k) p (clock k) w
                  signature slot blockTime eventType eventData with
          | (w', Panicked msg) => (w', S k, Panicked msg)
          | (w', Returned (Some e)) =>
              starterEvents p signature slot blockTime rest
                (log_line w' ("failed to process event: " +:+ render e)) (S k)
          | (w', Returned None) =>
              starterEvents p signature slot blockTime rest
                (log_line w' ("processed starter event " +:+ eventType +:+
                              " at slot " +:+ itoa slot)) (S k)
          end
      end
  end.

Definition processStarterTransaction (i : Indexer) (signature : solana.Signature)
    (w : World Repo) (k : nat) : World Repo * nat * outcome :=
  match GetTransaction signature with
  | inl err => (w, k, Returned (Some (Wrapf "get transaction" err)))
  | inr None => (w, k, Returned None)
  | inr (Some tx) =>
      match tx_logs tx with
      | None => (w, k, Returned None)
      | Some logs =>
          match tx_block_time tx with
          | None => (w, k, Panicked nilDereference)
          | Some blockTime =>
              if (length logs =? 0)%nat then (w, k, Returned None)
              else
                let programDataList := ParseProgramData logs in
                starterEvents (mkEventProcessor (starterProgramID i))
                  (sigString signature) (tx_slot tx) blockTime programDataList w k
          end
      end
  end.

(** The loop of [processCounterTransaction] over the parsed actions. *)
Fixpoint counterEvents (p : EventProcessor) (signature : string) (slot blockTime : Z)
    (actions : list CounterAction) (w : World Repo) (k : nat)
    : World Repo * nat * outcome :=
  match actions with
  | [] => (w, k, Returned None)
  | action :: rest =>
      let eventData := convertCounterActionToEvent action in
      match ProcessEvent Repo (SaveEventAt k) p (clock k) w
              signature slot blockTime (Type_ action) eventData with
      | (w', Panicked msg) => (w', S k, Panicked msg)
      | (w', Returned (Some e)) =>
          counterEvents p signature slot blockTime rest
            (log_line w' ("failed to process counter event: " +:+ render e)) (S k)
      | (w', Returned None) =>
          counterEvents p signature slot blockTime rest
            (log_line w' ("processed counter event " +:+ Type_ action +:+
                          " at slot " +:+ itoa slot)) (S k)
      end
  end.

Definition processCounterTransaction (i : Indexer) (signature : solana.Signature)
    (w : World Repo) (k : nat) : World Repo * nat * outcome :=
  match GetTransaction signature with
  | inl err => (w, k, Returned (Some (Wrapf "get transaction" err)))
  | inr None => (w, k, Returned None)
  | inr (Some tx) =>
      match tx_logs tx with
      | None => (w, k, Returned None)
      | Some logs =>
          match tx_block_time tx with
          | None => (w, k, Panicked nilDereference)
          | Some blockTime =>
              if (length logs =? 0)%nat then (w, k, Returned None)
              else
                let accounts := default [] (tx_accounts tx) in
                match ParseLogs logs accounts with
                | (_, Some err) =>
                    (w, k, Returned (Some (Wrapf "parse counter logs" err)))
                | (actions, None) =>
                    counterEvents (mkEventProcessor (counterProgramID i))
                      (sigString signature) (tx_slot tx) blockTime actions w k
                end
          end
      end
  end.

(** The loop over a page of signatures: an error of a transaction is
    logged and the loop goes on; a panic ends it. *)
Fixpoint transactions
    (process : solana.Signature -> World Repo -> nat -> World Repo * nat * outcome)
    (label : string) (sigs : list solana.TransactionSignature)
    (w : World Repo) (k : nat) : World Repo * nat * option string :=
  match sigs with
  | [] => (w, k, None)
  | s :: rest =>
      match process (solana.sig s) w k with
      | (w', k', Panicked msg) => (w', k', Some msg)
      | (w', k', Returned (Some err)) =>
          transactions process label rest
            (log_line w' (label +:+ sigString (solana.sig s) +:+ ": " +:+ render err)) k'
      | (w', k', Returned None) => transactions process label rest w' k'
      end
  end.

(** [processStarterSignatures]: the requests sent, the indexer, the world
    and the count after the call, and how the call ends. *)
Definition processStarterSignatures (i : Indexer) (w : World Repo) (k : nat)
    : list solana.Request * Indexer * World Repo * nat * outcome :=
  let programID := starterProgramID i in
  let lastSig := lastStarterSig i in
  match solana.GetSignaturesForAddress transport programID (batchSize i) lastSig None with
  | (reqs, inl err) => (reqs, i, w, k, Returned (Some (Wrapf "get signatures" err)))
  | (reqs, inr sigs) =>
      match last sigs with
      | None => (reqs, i, w, k, Returned None)
      | Some lastOfPage =>
          let w := log_line w ("processing " +:+ itoa (Z.of_nat (length sigs)) +:+
                               " starter program signatures") in
          match transactions (processStarterTransaction i)
                  "error processing starter transaction " sigs w k with
          | (w', k', Some msg) => (reqs, i, w', k', Panicked msg)
          | (w', k', None) =>
              (reqs,
               mkIndexer (batchSize i) (starterProgramID i) (counterProgramID i)
                 (Some (solana.sig lastOfPage)) (lastCounterSig i),
               w', k', Returned None)
          end
      end
  end.

(** [processCounterSignatures] *)
Definition processCounterSignatures (i : Indexer) (w : World Repo) (k : nat)
    : list solana.Request * Indexer * World Repo * nat * outcome :=
  let programID := counterProgramID i in
  let lastSig := lastCounterSig i in
  match solana.GetSignaturesForAddress transport programID (batchSize i) lastSig None with
  | (reqs, inl err) => (reqs, i, w, k, Returned (Some (Wrapf "get signatures" err)))
  | (reqs, inr sigs) =>
      match last sigs with
      | None => (reqs, i, w, k, Returned None)
      | Some lastOfPage =>
          let w := log_line w ("processing " +:+ itoa (Z.of_nat (length sigs)) +:+
                               " counter program signatures") in
          match transactions (processCounterTransaction i)
                  "error processing counter transaction " sigs w k with
          | (w', k', Some msg) => (reqs, i, w', k', Panicked msg)
          | (w', k', None) =>
              (reqs,
               mkIndexer (batchSize i) (starterProgramID i) (counterProgramID i)
                 (lastStarterSig i) (Some (solana.sig lastOfPage)),
               w', k', Returned None)
          end
      end
  end.

End WithEnvironment.

(** Whether some program data of the lines decodes without error. *)
Definition decodable (rd : nat -> Dec (list byte)) (data : list byte) : bool :=
  match DecodeEvent rd NewEventDecoder data with
  | (_, _, None) => true
  | (_, _, Some _) => false
  end.

End indexing.

(** ** package config *)

Module config.

Definition DatabaseTypeMongo : string := "mongodb".
Definition DatabaseTypePostgres : string := "postgres".

Record Config := mkConfig {
  SolanaRPCURL : string;
  SolanaWSURL : string;
  StarterProgramID : string;
  CounterProgramID : string;
  StartSlot : Z;
  PollInterval : Z;
  BatchSize : Z;
  MaxConcurrency : Z;
  DatabaseType : string;
  DatabaseURL : string;
  DatabaseName : string;
  ServerPort : Z;
  LogLevel : string
}.

(** [Validate]: the checks in the order of the source. *)
Definition Validate (c : Config) : option error :=
  if String.eqb (SolanaRPCURL c) "" then
    Some (Errorf "SOLANA_RPC_URL is required")
  else if String.eqb (StarterProgramID c) "" then
    Some (Errorf "STARTER_PROGRAM_ID is required")
  else if Z.leb (BatchSize c) 0 then
    Some (Errorf "BATCH_SIZE must be positive")
  else if Z.leb (MaxConcurrency c) 0 then
    Some (Errorf "MAX_CONCURRENCY must be positive")
  else if Z.leb (ServerPort c) 0 || Z.ltb 65535 (ServerPort c) then
    Some (Errorf "SERVER_PORT must be between 1 and 65535")
  else if negb (String.eqb (DatabaseType c) DatabaseTypeMongo)
          && negb (String.eqb (DatabaseType c) DatabaseTypePostgres) then
    Some (Errorf "DATABASE_TYPE must be 'mongodb' or 'postgres'")
  else if String.eqb (DatabaseURL c) "" then
    Some (Errorf "DATABASE_URL is required")
  else if String.eqb (DatabaseName c) "" then
    Some (Errorf "DATABASE_NAME is required")
  else None.

Section WithEnvironment.

(** [os.Getenv] once the .env file is loaded, and [fmt.Sscanf(value,
    "%d", &intVal)]: the number read when it reports no error. *)
Variable Getenv : string -> string.
Variable Sscanf_d : string -> option Z.

Definition getEnvOrDefault (key defaultValue : string) : string :=
  let value := Getenv key in
  if negb (String.eqb value "") then value else defaultValue.

Definition getEnvIntOrDefault (key : string) (defaultValue : Z) : Z :=
  let value := Getenv key in
  if negb (String.eqb value "") then
    match Sscanf_d value with
    | Some intVal => intVal
    | None => defaultValue
    end
  else defaultValue.

Definition Load : error + Config :=
  let cfg :=
    mkConfig
      (getEnvOrDefault "SOLANA_RPC_URL" "https://api.devnet.solana.com")
      (getEnvOrDefault "SOLANA_WS_URL" "wss://api.devnet.solana.com")
      (getEnvOrDefault "STARTER_PROGRAM_ID" "gARh1g6reuvsAHB7DXqiuYzzyiJeoiJmtmCpV8Y5uWC")
      (getEnvOrDefault "COUNTER_PROGRAM_ID" "CounzVsCGF4VzNkAwePKC9mXr6YWiFYF4kLW6YdV8Cc")
      (gostrings.wrap64 (getEnvIntOrDefault "START_SLOT" 0))
      (decoder.to_int64
         (gostrings.wrap64 (getEnvIntOrDefault "POLL_INTERVAL_MS" 1000 * 1000000)))
      (getEnvIntOrDefault "BATCH_SIZE" 10)
      (getEnvIntOrDefault "MAX_CONCURRENCY" 5)
      (getEnvOrDefault "DATABASE_TYPE" "mongodb")
      (getEnvOrDefault "DATABASE_URL" "mongodb://localhost:27017")
      (getEnvOrDefault "DATABASE_NAME" "solana_indexer")
      (getEnvIntOrDefault "SERVER_PORT" 8080)
      (getEnvOrDefault "LOG_LEVEL" "info") in
  match Validate cfg with
  | Some err => inl (Wrapf "invalid configuration" err)
  | None => inr cfg
  end.

End WithEnvironment.

End config.

(** ** package indexer: construction and life cycle *)

Module lifecycle.
Import models config.

(** [solanaClient.Client] *)
Record Client := mkClient { rpcURL : string }.

(** [NewClient] *)
Definition NewClient (rpcURL wsURL : string) : error + Client :=
  if String.eqb rpcURL "" then inl (Errorf "rpcURL cannot be empty")
  else inr (mkClient rpcURL).

(** [isRunning] and whether [shutdownOnce] has fired. *)
Record Flags := mkFlags { isRunning : bool; shutdownDone : bool }.

Section WithRepository.

Variable Repo : Type.
Variable PublicKeyFromBase58 : string -> error + PublicKey.
Variable NewMongoRepository : string -> string -> error + Repo.
Variable Close : Repo -> Repo * option error.

(** What [New] builds. *)
Record Built := mkBuilt {
  client : Client;
  repo : Repo;
  polling : indexing.Indexer;
  currentSlot : Z;
  flags : Flags
}.

Definition New (cfg : option Config) : error + Built :=
  match cfg with
  | None => inl (Errorf "config cannot be nil")
  | Some cfg =>
      match NewClient (SolanaRPCURL cfg) (SolanaWSURL cfg) with
      | inl err => inl (Wrapf "create solana client" err)
      | inr client =>
          match PublicKeyFromBase58 (StarterProgramID cfg) with
          | inl err => inl (Wrapf "parse starter program ID" err)
          | inr starterProgramID =>
              match PublicKeyFromBase58 (CounterProgramID cfg) with
              | inl err => inl (Wrapf "parse counter program ID" err)
              | inr counterProgramID =>
                  if String.eqb (DatabaseType cfg) DatabaseTypeMongo then
                    match NewMongoRepository (DatabaseURL cfg) (DatabaseName cfg) with
                    | inl err => inl (Wrapf "create mongo repository" err)
                    | inr repo =>
                        inr (mkBuilt client repo
                               (indexing.mkIndexer (BatchSize cfg) starterProgramID
                                  counterProgramID None None)
                               (StartSlot cfg) (mkFlags false false))
                    end
                  else
                    inl (Errorf ("unsupported database type: " +:+ DatabaseType cfg))
              end
          end
      end
  end.








End WithRepository.

End lifecycle.

(** ** Reading the store *)

Module reads.
Import models repository.

#[global] Instance error_eq_dec : EqDecision error.
Proof. solve_decision. Defined.

(** [mongo.ErrNoDocuments] *)
Definition ErrNoDocuments : error := DriverError "mongo: no documents in result".

(** [collection.FindOne(ctx, bson.M{key: value})] followed by [Decode]:
    the first document, in insertion order, whose field has the value. *)
Definition FindOne (fault : option error) (c : Collection) (key : string) (value : Value)
    : error + Document :=
  match fault with
  | Some e => inl e
  | None =>
      match List.find (fun d => bool_decide (field key d = Some value)) (docs c) with
      | Some d => inr d
      | None => inl ErrNoDocuments
      end
  end.

(** [GetEventBySignature] *)
Definition GetEventBySignature (fault : option error) (r : MongoRepository)
    (signature : string) : option Document * option error :=
  match FindOne fault (collection r) "signature" (VString signature) with
  | inl err =>
      if bool_decide (err = ErrNoDocuments) then (None, None)
      else (None, Some (Wrapf "find event by signature" err))
  | inr event => (Some event, None)
  end.

(** [GetEventStats], from the result of the store's
    [GetEventsByTimeRange]; the counters are 64-bit. *)
Definition GetEventStats (found : error + list BaseEvent)
    : option (gmap EventType Z) * option error :=
  match found with
  | inl err => (None, Some (Wrapf "get events by time range" err))
  | inr events =>
      (Some (fold_left
               (fun stats event =>
                  <[EventType_ event :=
                      decoder.to_int64
                        (gostrings.wrap64 (default 0 (stats !! EventType_ event) + 1))]>
                    stats)
               events ∅),
       None)
  end.

(** How many events of a list have a type. *)
Definition count_type (t : EventType) (events : list BaseEvent) : Z :=
  Z.of_nat (length (filter (fun event => EventType_ event = t) events)).

End reads.

(** * Properties *)

(** ** Test vectors for the hash and the encoding *)

Example sha256_abc :
  hex_of_bytes_Z (SHA256.Sum256 (bytes_of_string "abc")) =
  SHA256.be_split 32 0xba7816bf8f01cfea414140de5dae2223b00361a396177a9cb410ff61f20015ad.
Proof. vm_compute. reflexivity. Qed.

Example sha256_empty :
  hex_of_bytes_Z (SHA256.Sum256 []) =
  SHA256.be_split 32 0xe3b0c44298fc1c149afbf4c8996fb92427ae41e4649b934ca495991b7852b855.
Proof. vm_compute. reflexivity. Qed.

Example sha256_two_blocks :
  hex_of_bytes_Z (SHA256.Sum256 (bytes_of_string
    "abcdbcdecdefdefgefghfghighijhijkijkljklmklmnlmnomnopnopq")) =
  SHA256.be_split 32 0x248d6a61d20638b8e5c026930c3e6039a33ce45964ff2167f6ecedd419db06c1.
Proof. vm_compute. reflexivity. Qed.

Example base64_foobar :
  map Base64.EncodeToString
      (map bytes_of_string [""; "f"; "fo"; "foo"; "foob"; "fooba"; "foobar"]) =
  [""; "Zg=="; "Zm8="; "Zm9v"; "Zm9vYg=="; "Zm9vYmE="; "Zm9vYmFy"].
Proof. vm_compute. reflexivity. Qed.

(** ** The discriminators *)

Section Discriminators.
Import models decoder.

Lemma discriminators_checked : forallb discriminator_ok knownTypes = true.
Proof. vm_compute. reflexivity. Qed.

Lemma discriminator_known (t : EventType) :
  In t knownTypes ->
  length (discriminatorBytes t) = 8%nat /\
  makeDiscriminatorMap !! Base64.EncodeToString (discriminatorBytes t) = Some t.
Proof.
  intros Hin.
  pose proof discriminators_checked as H.
  rewrite forallb_forall in H. specialize (H t Hin).
  unfold discriminator_ok in H.
  apply andb_prop in H as [H1 H2].
  apply Nat.eqb_eq in H1. split; [exact H1|].
  destruct (makeDiscriminatorMap !! _) as [t'|]; [|discriminate].
  apply String.eqb_eq in H2. subst t'. reflexivity.
Qed.

(** C3. The discriminator of an event type name is the base64 text of the
    first 8 bytes of SHA-256 of ["event:"] followed by the name; for
    [TokensMintedEvent] these bytes are c5 57 fb 7c 53 2d 39 3e; and the
    map built at construction has twenty entries and sends the base64 text
    of the discriminator of each of its twenty type names to that type. *)
Theorem eventDiscriminator_is_sha256_prefix :
  (forall name : string,
      eventDiscriminator name =
      Base64.EncodeToString
        (firstn 8 (SHA256.Sum256 (bytes_of_string ("event:" +:+ name))))) /\
  hex_of_bytes_Z (firstn 8 (SHA256.Sum256 (bytes_of_string "event:TokensMintedEvent")))
    = [0xc5; 0x57; 0xfb; 0x7c; 0x53; 0x2d; 0x39; 0x3e] /\
  eventDiscriminator "TokensMintedEvent" = "xVf7fFMtOT4=" /\
  size (discriminators NewEventDecoder) = 20%nat /\
  Forall (fun t : EventType =>
            discriminators NewEventDecoder !!
              Base64.EncodeToString
                (firstn 8 (SHA256.Sum256 (bytes_of_string ("event:" +:+ t))))
            = Some t) knownTypes.
Proof.
  split; [reflexivity|].
  split; [vm_compute; reflexivity|].
  split; [vm_compute; reflexivity|].
  split; [vm_compute; reflexivity|].
  apply Forall_forall. intros t Hin. apply list_elem_of_In in Hin.
  exact (proj2 (discriminator_known t Hin)).
Qed.

End Discriminators.

(** ** The event processor *)

Section Processor.
Import models processor.

Variable Repo : Type.
Variable SaveEvent : Repo -> Any -> Repo * option error.

Lemma eqb_not_handled (eventType t : EventType) :
  ~ In eventType handledTypes -> In t handledTypes -> String.eqb eventType t = false.
Proof.
  intros Hnot Hin. apply String.eqb_neq. intros ->. exact (Hnot Hin).
Qed.

(** C10. For an event type outside the thirteen the dispatch switch
    handles, [ProcessEvent] leaves the store as it was, writes the line
    "Unknown event type: ..." to the log and returns a nil error, whatever
    the payload and whatever the store. *)
Theorem ProcessEvent_unhandled_type_dropped
    (p : EventProcessor) (now : Z) (w : World Repo)
    (signature : string) (slot blockTime : Z)
    (eventType : EventType) (eventData : Any) :
  ~ In eventType handledTypes ->
  ProcessEvent Repo SaveEvent p now w signature slot blockTime eventType eventData
  = (mkWorld Repo (repo Repo w)
       (logged Repo w ++ ["Unknown event type: " +:+ eventType]),
     Returned None).
Proof.
  intros Hnot. unfold ProcessEvent.
  repeat (rewrite (eqb_not_handled eventType _ Hnot)
            by (unfold handledTypes; simpl; tauto)).
  reflexivity.
Qed.

End Processor.

(** The witness: a [DelegateApprovedEvent] handed to a processor over the
    document store. *)
Lemma ProcessEvent_unhandled_type_dropped_witness :
  processor.ProcessEvent repository.MongoRepository (repository.SaveEvent None)
    (processor.mkEventProcessor models.zeroPublicKey) 1700000001
    (processor.mkWorld _ (repository.mkMongoRepository repository.emptyCollection) [])
    "sig1" 7 1700000000 models.EventTypeDelegateApproved models.AnyNil
  = (processor.mkWorld _ (repository.mkMongoRepository repository.emptyCollection)
       ["Unknown event type: DelegateApprovedEvent"],
     processor.Returned None).
Proof.
  apply (ProcessEvent_unhandled_type_dropped repository.MongoRepository
           (repository.SaveEvent None)).
  unfold processor.handledTypes. simpl.
  intros H. repeat (destruct H as [H | H]; [discriminate H|]). exact H.
Defined.

(** ** The ledger client *)

Section Client.
Import models solana.

Lemma GetSignaturesForAddress_request
    (transport : Request -> error + list TransactionSignature)
    (address : PublicKey) (limit : Z) (before until : option Signature) :
  fst (GetSignaturesForAddress transport address limit before until)
  = [mkRequest "getSignaturesForAddress" address None].
Proof.
  unfold GetSignaturesForAddress, rpc_GetSignaturesForAddress,
    rpc_GetSignaturesForAddressWithOpts.
  destruct (transport _); reflexivity.
Qed.

(** C5, the code at a failing input. Asked for at most 1 signature newer
    than [sigB], the client sends a request without options, and the node
    answers with its whole history: three signatures, [sigB] and the older
    [sigA] among them. The same request with the options would have brought
    back [sigC] alone. *)
Theorem GetSignaturesForAddress_drops_options :
  GetSignaturesForAddress (node history3) zeroPublicKey 1 None (Some sigB)
  = ([mkRequest "getSignaturesForAddress" zeroPublicKey None], inr history3) /\
  snd (rpc_GetSignaturesForAddressWithOpts (node history3) zeroPublicKey
         (Some (mkOpts (Some 1) zeroSignature sigB)))
  = inr [mkTransactionSignature sigC 30 (Some 1700000030)].
Proof. split; vm_compute; reflexivity. Qed.

End Client.

(** ** The document store *)

Section Store.
Import models repository.

Lemma key_taken_false (idx : IndexModel) (ds : list Document) (doc : Document) :
  key_taken idx ds doc = false ->
  ~ In (index_key idx doc) (map (index_key idx) ds).
Proof.
  intros Hf Hin. apply in_map_iff in Hin as (d & Heq & Hd).
  assert (key_taken idx ds doc = true) as Ht.
  { apply existsb_exists. exists d. split; [exact Hd|].
    apply bool_decide_eq_true. exact Heq. }
  congruence.
Qed.

Lemma has_duplicates_false (idx : IndexModel) (ds : list Document) :
  has_duplicates idx ds = false -> NoDup (map (index_key idx) ds).
Proof.
  induction ds as [|d rest IH]; simpl; intros H.
  - constructor.
  - apply orb_false_elim in H as [Hk Hd]. constructor.
    + rewrite list_elem_of_In. apply key_taken_false. exact Hk.
    + apply IH. exact Hd.
Qed.

Lemma InsertOne_failure_keeps (fault : option error) (c : Collection) (event : Any)
    (c' : Collection) (e : error) :
  InsertOne fault c event = (c', Some e) -> c' = c.
Proof.
  unfold InsertOne. intros H.
  destruct fault; [congruence|].
  destruct (marshal event) as [e0|d]; [congruence|].
  destruct (field "_id" d);
    destruct (violated _ _ _); congruence.
Qed.

Lemma InsertOne_unique (idx : IndexModel) (fault : option error)
    (c : Collection) (event : Any) :
  Unique idx = true ->
  unique_holds idx c -> unique_holds idx (fst (InsertOne fault c event)).
Proof.
  intros Hu [Hin Hnd]. unfold InsertOne.
  destruct fault; [split; assumption|].
  destruct (marshal event) as [e0|d]; [split; assumption|].
  set (p := match field "_id" d with
            | Some _ => (d, next_id c)
            | None => (("_id", VObjectID (next_id c)) :: d, S (next_id c))
            end).
  destruct p as [doc next].
  destruct (violated (indexes c) (docs c) doc) eqn:Hv; [split; assumption|].
  split; [exact Hin|]. cbn [fst docs].
  unfold violated in Hv.
  pose proof (find_none _ _ Hv idx Hin) as Hk. simpl in Hk.
  rewrite Hu in Hk. simpl in Hk.
  rewrite map_app. apply NoDup_app. split; [exact Hnd|]. split.
  - intros k Hk1 Hk2. apply list_elem_of_In in Hk1.
    apply list_elem_of_In in Hk2. simpl in Hk2.
    destruct Hk2 as [<-|[]].
    exact (key_taken_false idx (docs c) doc Hk Hk1).
  - simpl. apply NoDup_singleton.
Qed.

Lemma SaveEvent_collection (fault : option error) (r : MongoRepository) (event : Any) :
  collection (fst (SaveEvent fault r event)) = fst (InsertOne fault (collection r) event).
Proof.
  unfold SaveEvent. destruct (InsertOne fault (collection r) event) as [c [e|]]; reflexivity.
Qed.

Lemma save_all_unique (idx : IndexModel) (calls : list (option error * Any))
    (r : MongoRepository) :
  Unique idx = true ->
  unique_holds idx (collection r) ->
  unique_holds idx (collection (save_all r calls)).
Proof.
  intros Hu. revert r.
  induction calls as [|[fault event] rest IH]; intros r Hr; simpl; [exact Hr|].
  apply IH. rewrite SaveEvent_collection. apply InsertOne_unique; assumption.
Qed.

Lemma CreateMany_success (fault : option error) (c c' : Collection)
    (models : list IndexModel) :
  CreateMany fault c models = (c', None) ->
  docs c' = docs c /\
  (forall idx, In idx models -> In idx (indexes c')) /\
  (forall idx, In idx (indexes c') -> In idx (indexes c) \/ In idx models) /\
  (forall idx, In idx models -> Unique idx = true -> unique_holds idx c').
Proof.
  unfold CreateMany. intros H.
  destruct fault; [congruence|].
  destruct (find (conflicts (indexes c)) models); [congruence|].
  destruct (find _ models) eqn:Hdup; [congruence|].
  injection H as <-. simpl.
  assert (forall idx, In idx models ->
            In idx (indexes c ++
                    filter (fun idx => idx ∉ indexes c) (remove_dups models)))
    as Hall.
  { intros idx Hin. apply in_or_app.
    destruct (decide (idx ∈ indexes c)) as [Hold|Hnew].
    - left. apply list_elem_of_In. exact Hold.
    - right. apply list_elem_of_In. apply list_elem_of_filter. split; [exact Hnew|].
      apply elem_of_remove_dups. apply list_elem_of_In. exact Hin. }
  split; [reflexivity|]. split; [exact Hall|]. split.
  - intros idx Hin. apply in_app_or in Hin as [Hin|Hin]; [left; exact Hin|right].
    apply list_elem_of_In in Hin. apply list_elem_of_filter in Hin as [_ Hin].
    rewrite elem_of_remove_dups in Hin. apply list_elem_of_In. exact Hin.
  - intros idx Hin Hu. split; [apply Hall; exact Hin|]. simpl.
    apply has_duplicates_false.
    pose proof (find_none _ _ Hdup idx Hin) as Hk. simpl in Hk.
    rewrite Hu in Hk. exact Hk.
Qed.

Lemma signature_keys (ds : list Document) :
  map (index_key signatureIndex) ds = map (fun v => [v]) (map signature_of ds).
Proof. rewrite map_map. reflexivity. Qed.

(** C1, as the code has it. When [CreateIndexes] returns without error, the
    collection has a unique index on [signature] alone and plain indexes on
    [event_type] (ascending), [block_time] (descending) and [slot]
    (descending); it has no index besides these and the ones it had; its
    documents are untouched; and from then on, whatever [SaveEvent] calls
    follow, no two stored documents have the same signature. *)
Theorem CreateIndexes_unique_signature
    (fault : option error) (r r' : MongoRepository) :
  CreateIndexes fault r = (r', None) ->
  Forall (fun idx => In idx (indexes (collection r'))) createIndexModels /\
  Forall (fun idx => In idx (indexes (collection r)) \/ In idx createIndexModels)
         (indexes (collection r')) /\
  docs (collection r') = docs (collection r) /\
  (forall calls : list (option error * Any),
      NoDup (map signature_of (docs (collection (save_all r' calls))))).
Proof.
  unfold CreateIndexes. intros H.
  destruct (CreateMany fault (collection r) createIndexModels) as [c [e|]] eqn:Hc;
    [discriminate H|].
  injection H as <-. simpl.
  apply CreateMany_success in Hc as (Hdocs & Hall & Honly & Huniq).
  split; [apply Forall_forall; intros idx Hin; apply Hall, list_elem_of_In, Hin|].
  split; [apply Forall_forall; intros idx Hin; apply Honly, list_elem_of_In, Hin|].
  split; [exact Hdocs|].
  intros calls.
  assert (unique_holds signatureIndex c) as Hinv.
  { apply Huniq; [|reflexivity]. unfold createIndexModels, signatureIndex.
    simpl. tauto. }
  pose proof (save_all_unique signatureIndex calls (mkMongoRepository c)
                eq_refl Hinv) as [_ Hnd].
  rewrite signature_keys in Hnd.
  apply NoDup_fmap_1 in Hnd. exact Hnd.
Qed.

(** The witness: a fresh collection, indexed, then two saves. *)
Lemma CreateIndexes_unique_signature_witness :
  NoDup (map signature_of
           (docs (collection
              (save_all indexedStore
                 [(None, AnyPtr sampleMinted); (None, AnyPtr sampleBurned)])))).
Proof.
  exact (proj2 (proj2 (proj2
           (CreateIndexes_unique_signature None
              (mkMongoRepository emptyCollection) indexedStore eq_refl))) _).
Defined.

(** C1 as stated fails: on a fresh collection [CreateIndexes] installs the
    [_id] index and four others, none of them on (signature, event_type,
    ordinal) and none on [program_id]; and the unique index is on the
    signature alone, so the second event of a transaction is refused
    although its event type differs from the first. *)
Lemma CreateIndexes_not_on_triple :
  indexes (collection indexedStore) = id_index :: createIndexModels /\
  ~ In (mkIndexModel [("signature", 1); ("event_type", 1); ("ordinal", 1)] true)
       (indexes (collection indexedStore)) /\
  ~ In (mkIndexModel [("program_id", 1)] false)
       (indexes (collection indexedStore)) /\
  ~ incl specIndexModels (indexes (collection indexedStore)) /\
  (let r1 := fst (SaveEvent None indexedStore (AnyPtr sampleMinted)) in
   docs (collection r1) <> [] /\
   SaveEvent None r1 (AnyPtr sampleBurned)
   = (r1, Some (Wrapf "insert event" (WriteException DuplicateKeyCode "signature")))).
Proof.
  assert (~ In (mkIndexModel [("signature", 1); ("event_type", 1); ("ordinal", 1)] true)
            (indexes (collection indexedStore))) as Hno.
  { intros H. vm_compute in H.
    repeat (destruct H as [H | H]; [discriminate H|]). exact H. }
  split; [vm_compute; reflexivity|].
  split; [exact Hno|].
  split.
  { intros H. vm_compute in H.
    repeat (destruct H as [H | H]; [discriminate H|]). exact H. }
  split.
  { intros H. apply Hno. apply H. unfold specIndexModels. simpl. tauto. }
  split; [vm_compute; discriminate | vm_compute; reflexivity].
Qed.

Lemma find_exists {A} (f : A -> bool) (l : list A) (x : A) :
  In x l -> f x = true -> exists y, find f l = Some y.
Proof.
  induction l as [|a l IH]; simpl; intros Hin Hf; [contradiction|].
  destruct (f a) eqn:Ha; [eauto|].
  destruct Hin as [->|Hin]; [congruence|]. apply IH; assumption.
Qed.

Lemma signature_of_document (e : Event) :
  signature_of (document_of e) = Some (VString (Signature (base_of e))).
Proof.
  unfold signature_of, document_of, base_fields.
  destruct (String.eqb (ID (base_of e)) ""); reflexivity.
Qed.

Lemma id_of_document_ne (e : Event) (v : Value) :
  signature_of (("_id", v) :: document_of e) = signature_of (document_of e).
Proof. reflexivity. Qed.

Lemma InsertOne_duplicate_signature (c : Collection) (e : Event) (d : Document) :
  In signatureIndex (indexes c) ->
  In d (docs c) ->
  signature_of d = Some (VString (Signature (base_of e))) ->
  exists idx, InsertOne None c (AnyPtr e)
              = (c, Some (WriteException DuplicateKeyCode (index_name idx))).
Proof.
  intros Hidx Hd Hsig. unfold InsertOne. cbn [marshal].
  set (p := match field "_id" (document_of e) with
            | Some _ => (document_of e, next_id c)
            | None => (("_id", VObjectID (next_id c)) :: document_of e, S (next_id c))
            end).
  assert (signature_of (fst p) = Some (VString (Signature (base_of e)))) as Hp.
  { unfold p. destruct (field "_id" (document_of e)); cbn [fst].
    - apply signature_of_document.
    - rewrite id_of_document_ne. apply signature_of_document. }
  destruct p as [doc next]. cbn [fst] in Hp.
  destruct (find_exists
              (fun idx => Unique idx && key_taken idx (docs c) doc)
              (indexes c) signatureIndex Hidx) as [idx Hfind].
  { cbn [Unique signatureIndex andb]. apply existsb_exists. exists d.
    split; [exact Hd|]. apply bool_decide_eq_true.
    unfold index_key. cbn [Keys signatureIndex map fst].
    fold (signature_of d). fold (signature_of doc). congruence. }
  unfold violated. rewrite Hfind. exists idx. reflexivity.
Qed.

(** C2, as the code has it. [SaveEvent] returns nil exactly when the insert
    succeeded; every error of the insert comes back to the caller wrapped as
    "insert event: ...", the store being left as it was; and this includes
    the duplicate-key error: saving an event whose signature is already
    stored under the unique index returns that error, not nil. *)
Theorem SaveEvent_returns_every_insert_error
    (fault : option error) (r : MongoRepository) (event : Any) :
  (snd (SaveEvent fault r event) = None <->
   snd (InsertOne fault (collection r) event) = None) /\
  (forall err : error,
      snd (InsertOne fault (collection r) event) = Some err ->
      SaveEvent fault r event = (r, Some (Wrapf "insert event" err))) /\
  (forall (e : Event) (d : Document),
      fault = None -> event = AnyPtr e ->
      In signatureIndex (indexes (collection r)) ->
      In d (docs (collection r)) ->
      signature_of d = Some (VString (Signature (base_of e))) ->
      exists err : error,
        SaveEvent fault r event = (r, Some err) /\ is_duplicate_key err = true).
Proof.
  split; [|split].
  - unfold SaveEvent. destruct (InsertOne fault (collection r) event) as [c [e|]];
      simpl; split; congruence.
  - intros err Herr. unfold SaveEvent.
    destruct (InsertOne fault (collection r) event) as [c [e|]] eqn:Hi;
      simpl in Herr; [|discriminate Herr].
    injection Herr as ->. apply InsertOne_failure_keeps in Hi. subst c.
    destruct r; reflexivity.
  - intros e d -> -> Hidx Hd Hsig.
    destruct (InsertOne_duplicate_signature (collection r) e d Hidx Hd Hsig)
      as [idx Hi].
    unfold SaveEvent. rewrite Hi. eexists. split.
    + destruct r; reflexivity.
    + reflexivity.
Qed.

(** The witness: the same event saved twice on the indexed store. *)
Lemma SaveEvent_returns_every_insert_error_witness :
  exists err : error,
    SaveEvent None (fst (SaveEvent None indexedStore (AnyPtr sampleMinted)))
      (AnyPtr sampleMinted)
    = (fst (SaveEvent None indexedStore (AnyPtr sampleMinted)), Some err) /\
    is_duplicate_key err = true.
Proof.
  refine (proj2 (proj2 (SaveEvent_returns_every_insert_error None
            (fst (SaveEvent None indexedStore (AnyPtr sampleMinted)))
            (AnyPtr sampleMinted)))
          sampleMinted
          (("_id", VObjectID 0) :: document_of sampleMinted)
          eq_refl eq_refl _ _ _).
  - vm_compute. tauto.
  - vm_compute. tauto.
  - reflexivity.
Defined.

(** C2 as stated fails: the second save of an event is refused by the unique
    index and [SaveEvent] returns the duplicate-key error to its caller. *)
Lemma SaveEvent_duplicate_not_absorbed :
  let r1 := fst (SaveEvent None indexedStore (AnyPtr sampleMinted)) in
  snd (SaveEvent None indexedStore (AnyPtr sampleMinted)) = None /\
  SaveEvent None r1 (AnyPtr sampleMinted)
  = (r1, Some (Wrapf "insert event" (WriteException DuplicateKeyCode "signature"))) /\
  snd (SaveEvent None r1 (AnyPtr sampleMinted)) <> None.
Proof.
  split; [vm_compute; reflexivity|].
  split; [vm_compute; reflexivity|].
  vm_compute. discriminate.
Qed.

End Store.

(** ** Strings *)

(** Push an append through the characters in front of it. *)
Ltac app_step :=
  repeat match goal with
         | |- context [String ?c ?a +:+ ?b] =>
             change (String c a +:+ b) with (String c (a +:+ b))
         | |- context [EmptyString +:+ ?b] =>
             change (EmptyString +:+ b) with b
         end.

Section Strings.
Import gostrings.

Lemma append_assoc (a b c : string) : (a +:+ b) +:+ c = a +:+ (b +:+ c).
Proof. induction a as [|x a IH]; [reflexivity|]. app_step. now rewrite IH. Qed.

Lemma append_empty_r (a : string) : a +:+ "" = a.
Proof. induction a as [|x a IH]; [reflexivity|]. app_step. now rewrite IH. Qed.

Lemma prefix_append (p r : string) : String.prefix p (p +:+ r) = true.
Proof.
  induction p as [|x p IH]; [destruct r; reflexivity|].
  app_step. cbn [String.prefix]. destruct (ascii_dec x x); [exact IH|congruence].
Qed.

Lemma prefix_inv (p s : string) :
  String.prefix p s = true -> exists r, s = p +:+ r.
Proof.
  revert s. induction p as [|x p IH]; intros s H.
  - exists s. reflexivity.
  - destruct s as [|y s]; [discriminate H|]. cbn [String.prefix] in H.
    destruct (ascii_dec x y) as [->|]; [|discriminate H].
    destruct (IH s H) as [r ->]. exists r. reflexivity.
Qed.

Lemma drop_append (p r : string) : drop (String.length p) (p +:+ r) = r.
Proof. induction p as [|x p IH]; [destruct r; reflexivity|exact IH]. Qed.

Lemma char_in_append (x : ascii) (a b : string) :
  char_in x (a +:+ b) = char_in x a || char_in x b.
Proof.
  induction a as [|c a IH]; [reflexivity|].
  app_step. cbn [char_in]. rewrite IH. apply orb_assoc.
Qed.

Lemma prefix_char_in (x : ascii) (p s : string) :
  String.prefix p s = true -> char_in x p = true -> char_in x s = true.
Proof.
  intros Hp Hx. apply prefix_inv in Hp as [r ->].
  rewrite char_in_append, Hx. reflexivity.
Qed.

(** A separator with a character that the text lacks does not occur in it. *)
Lemma Cut_absent (x : ascii) (s sep : string) :
  char_in x sep = true -> char_in x s = false -> Cut s sep = None.
Proof.
  intros Hsep. induction s as [|c s IH]; intros Hs.
  - cbn [Cut]. unfold HasPrefix.
    destruct (String.prefix sep "") eqn:Hp; [|reflexivity].
    pose proof (prefix_char_in x sep "" Hp Hsep). discriminate.
  - cbn [Cut]. unfold HasPrefix.
    destruct (String.prefix sep (String c s)) eqn:Hp.
    + pose proof (prefix_char_in x sep _ Hp Hsep). congruence.
    + cbn [char_in] in Hs. apply orb_false_elim in Hs as [_ Hs].
      rewrite (IH Hs). reflexivity.
Qed.

Lemma Contains_append_r (a b sep : string) :
  Contains b sep = true -> Contains (a +:+ b) sep = true.
Proof.
  intros H. induction a as [|c a IH]; [exact H|].
  app_step. cbn [Contains]. rewrite IH. apply orb_true_r.
Qed.

Lemma Contains_prefix (s sep : string) : HasPrefix s sep = true -> Contains s sep = true.
Proof. intros H. destruct s; cbn [Contains]; rewrite H; reflexivity. Qed.

(** The text after the first separator, when the separator starts the
    line and does not occur again. *)
Lemma Split_second (sep rest : string) (x : ascii) :
  char_in x sep = true -> char_in x rest = false ->
  Split (sep +:+ rest) sep !! 1%nat = Some rest.
Proof.
  intros Hsep Hrest. unfold Split. cbn [split_from].
  assert (Cut (sep +:+ rest) sep = Some ("", rest)) as ->.
  { destruct sep as [|c sep]; [discriminate Hsep|].
    app_step. cbn [Cut]. unfold HasPrefix.
    change (String c (sep +:+ rest)) with (String c sep +:+ rest).
    rewrite prefix_append, drop_append. reflexivity. }
  destruct (String.length (sep +:+ rest)); cbn [split_from];
    [reflexivity|].
  rewrite (Cut_absent x rest sep Hsep Hrest). reflexivity.
Qed.

(** A line that contains the separator has a second part: the index
    expression of [parseLogMessage] is always defined. *)
Lemma Cut_present (s sep : string) :
  Contains s sep = true -> exists b a, Cut s sep = Some (b, a).
Proof.
  induction s as [|c s IH]; cbn [Contains Cut]; intros H.
  - rewrite orb_false_r in H. rewrite H. eauto.
  - destruct (HasPrefix (String c s) sep); [eauto|].
    destruct (IH H) as (b & a & ->). eauto.
Qed.

Lemma Split_has_second (s sep : string) :
  Contains s sep = true -> exists part, Split s sep !! 1%nat = Some part.
Proof.
  intros H. unfold Split. cbn [split_from].
  destruct (Cut_present s sep H) as (b & a & ->).
  destruct (String.length s); cbn [split_from]; [eauto|].
  destruct (Cut a sep) as [[b' a']|]; eauto.
Qed.

Lemma is_digit_plain (c : ascii) : is_digit c = true -> plain_char c = true.
Proof.
  unfold is_digit, plain_char, ascii_space. intros H.
  apply andb_prop in H as [H1 H2].
  apply Nat.leb_le in H1, H2.
  apply andb_true_intro. split; [apply Nat.ltb_lt; lia|].
  apply negb_true_iff. apply orb_false_intro.
  - apply andb_false_intro2. apply Nat.leb_gt. lia.
  - apply Nat.eqb_neq. lia.
Qed.

Lemma plain_not_space2_l (c c2 : ascii) : plain_char c = true -> space2 c c2 = false.
Proof.
  unfold plain_char, space2. intros H. apply andb_prop in H as [H _].
  apply Nat.ltb_lt in H.
  replace (nat_of_ascii c =? 194)%nat with false; [reflexivity|].
  symmetry. apply Nat.eqb_neq. lia.
Qed.

Lemma plain_not_space2_r (c c1 : ascii) : plain_char c = true -> space2 c1 c = false.
Proof.
  unfold plain_char, space2. intros H. apply andb_prop in H as [H _].
  apply Nat.ltb_lt in H.
  replace (nat_of_ascii c =? 133)%nat with false by (symmetry; apply Nat.eqb_neq; lia).
  replace (nat_of_ascii c =? 160)%nat with false by (symmetry; apply Nat.eqb_neq; lia).
  apply andb_false_r.
Qed.

Lemma plain_not_space3_l (c c2 c3 : ascii) : plain_char c = true -> space3 c c2 c3 = false.
Proof.
  unfold plain_char, space3. intros H. apply andb_prop in H as [H _].
  apply Nat.ltb_lt in H. cbv zeta.
  replace (nat_of_ascii c =? 225)%nat with false by (symmetry; apply Nat.eqb_neq; lia).
  replace (nat_of_ascii c =? 226)%nat with false by (symmetry; apply Nat.eqb_neq; lia).
  replace (nat_of_ascii c =? 227)%nat with false by (symmetry; apply Nat.eqb_neq; lia).
  reflexivity.
Qed.

Lemma plain_not_space3_r (c c1 c2 : ascii) : plain_char c = true -> space3 c1 c2 c = false.
Proof.
  unfold plain_char, space3. intros H. apply andb_prop in H as [H _].
  apply Nat.ltb_lt in H. cbv zeta.
  replace (128 <=? nat_of_ascii c)%nat with false by (symmetry; apply Nat.leb_gt; lia).
  replace (nat_of_ascii c =? 128)%nat with false by (symmetry; apply Nat.eqb_neq; lia).
  replace (nat_of_ascii c =? 168)%nat with false by (symmetry; apply Nat.eqb_neq; lia).
  replace (nat_of_ascii c =? 169)%nat with false by (symmetry; apply Nat.eqb_neq; lia).
  replace (nat_of_ascii c =? 175)%nat with false by (symmetry; apply Nat.eqb_neq; lia).
  replace (nat_of_ascii c =? 159)%nat with false by (symmetry; apply Nat.eqb_neq; lia).
  repeat rewrite andb_false_r. reflexivity.
Qed.

Lemma trim_left_plain (c : ascii) (l : list ascii) :
  plain_char c = true -> trim_left (c :: l) = c :: l.
Proof.
  intros H. cbn [trim_left].
  assert (ascii_space c = false) as ->.
  { unfold plain_char in H. apply andb_prop in H as [_ H].
    now apply negb_true_iff in H. }
  destruct l as [|c2 [|c3 l]]; [reflexivity| |].
  - now rewrite plain_not_space2_l.
  - now rewrite plain_not_space2_l, plain_not_space3_l.
Qed.

Lemma trim_right_rev_plain (c : ascii) (l : list ascii) :
  plain_char c = true -> trim_right_rev (c :: l) = c :: l.
Proof.
  intros H. cbn [trim_right_rev].
  assert (ascii_space c = false) as ->.
  { unfold plain_char in H. apply andb_prop in H as [_ H].
    now apply negb_true_iff in H. }
  destruct l as [|c2 [|c3 l]]; [reflexivity| |].
  - now rewrite plain_not_space2_r.
  - now rewrite plain_not_space2_r, plain_not_space3_r.
Qed.

Lemma list_ascii_of_string_append (a b : string) :
  list_ascii_of_string (a +:+ b) = list_ascii_of_string a ++ list_ascii_of_string b.
Proof.
  induction a as [|c a IH]; [reflexivity|].
  app_step. cbn [list_ascii_of_string]. rewrite IH. reflexivity.
Qed.

Lemma all_digits_In (s : string) (c : ascii) :
  all_digits s = true -> In c (list_ascii_of_string s) -> is_digit c = true.
Proof.
  induction s as [|x s IH]; cbn [all_digits list_ascii_of_string]; intros H Hin.
  - destruct Hin.
  - apply andb_prop in H as [Hx Hs]. destruct Hin as [<-|Hin]; auto.
Qed.

Lemma all_digits_last (s : string) :
  s <> "" -> all_digits s = true ->
  exists c l, rev (list_ascii_of_string s) = c :: l /\ is_digit c = true.
Proof.
  intros Hne Hd. destruct (rev (list_ascii_of_string s)) as [|c l] eqn:E.
  - apply (f_equal (@rev ascii)) in E. rewrite rev_involutive in E. cbn in E.
    destruct s; [congruence|discriminate E].
  - exists c, l. split; [reflexivity|].
    apply (all_digits_In s c Hd). apply in_rev. rewrite E. left. reflexivity.
Qed.

(** [TrimSpace] leaves a text alone that starts with a plain character and
    ends with a digit. *)
Lemma TrimSpace_keeps (x n : string) (c : ascii) (r : string) :
  x +:+ n = String c r -> plain_char c = true ->
  n <> "" -> all_digits n = true ->
  TrimSpace (x +:+ n) = x +:+ n.
Proof.
  intros Hhead Hc Hne Hd. unfold TrimSpace.
  destruct (all_digits_last n Hne Hd) as (c' & l' & Hrev & Hc').
  assert (trim_left (list_ascii_of_string (x +:+ n)) = list_ascii_of_string (x +:+ n)) as ->.
  { rewrite Hhead. cbn [list_ascii_of_string]. apply trim_left_plain. exact Hc. }
  rewrite list_ascii_of_string_append, rev_app_distr, Hrev.
  rewrite <- app_comm_cons.
  rewrite trim_right_rev_plain by (apply is_digit_plain; exact Hc').
  rewrite app_comm_cons, <- Hrev, <- rev_app_distr, rev_involutive.
  rewrite <- list_ascii_of_string_append.
  apply string_of_list_ascii_of_string.
Qed.

Lemma TrimSpace_digits (n : string) :
  n <> "" -> all_digits n = true -> TrimSpace n = n.
Proof.
  intros Hne Hd. destruct n as [|c r]; [congruence|].
  change (String c r) with ("" +:+ String c r).
  apply (TrimSpace_keeps "" (String c r) c r); auto.
  cbn [all_digits] in Hd. apply andb_prop in Hd as [Hc _].
  apply is_digit_plain. exact Hc.
Qed.

Lemma parse_digits_all_digits (s : string) (n v : Z) :
  parse_digits s n = (v, None) -> all_digits s = true.
Proof.
  revert n. induction s as [|c s IH]; intros n H; [reflexivity|].
  cbn [parse_digits all_digits] in *.
  destruct (is_digit c); [|discriminate H]. cbv zeta in H.
  destruct (Z.leb _ n); [discriminate H|].
  destruct (Z.ltb _ _); [discriminate H|].
  exact (IH _ H).
Qed.

Lemma parse_digits_range (s : string) (n v : Z) :
  parse_digits s n = (v, None) -> 0 <= n < 2 ^ 64 -> 0 <= v < 2 ^ 64.
Proof.
  revert n. induction s as [|c s IH]; intros n H Hn.
  - cbn in H. injection H as <-. exact Hn.
  - cbn [parse_digits] in H.
    destruct (is_digit c); [|discriminate H]. cbv zeta in H.
    destruct (Z.leb _ n); [discriminate H|].
    destruct (Z.ltb _ _); [discriminate H|].
    apply (IH _ H). unfold wrap64. apply Z.mod_pos_bound. lia.
Qed.

(** What a successful parse says about the text: it is a non-empty run of
    digits, and the value is below 2^64. *)
Lemma ParseUint_ok (s : string) (v : Z) :
  ParseUint s = (v, None) ->
  s <> "" /\ all_digits s = true /\ 0 <= v < 2 ^ 64.
Proof.
  intros H. destruct s as [|c s]; [discriminate H|].
  unfold ParseUint in H. split; [discriminate|]. split.
  - exact (parse_digits_all_digits _ _ _ H).
  - apply (parse_digits_range _ _ _ H). lia.
Qed.

Lemma digits_no_char (x : ascii) (n : string) :
  is_digit x = false -> all_digits n = true -> char_in x n = false.
Proof.
  intros Hx. induction n as [|c n IH]; [reflexivity|].
  cbn [all_digits char_in]. intros H. apply andb_prop in H as [Hc Hn].
  rewrite (IH Hn), orb_false_r.
  destruct (Ascii.eqb_spec x c) as [->|]; [congruence|reflexivity].
Qed.

Lemma span_digits_all (n : string) :
  all_digits n = true -> span_digits n = (n, "").
Proof.
  induction n as [|c n IH]; [reflexivity|].
  cbn [all_digits span_digits]. intros H. apply andb_prop in H as [Hc Hn].
  rewrite Hc, (IH Hn). reflexivity.
Qed.

Lemma span_digits_append (n : string) (c : ascii) (r : string) :
  all_digits n = true -> is_digit c = false ->
  span_digits (n +:+ String c r) = (n, String c r).
Proof.
  intros Hn Hc. induction n as [|x n IH].
  - app_step. cbn [span_digits]. rewrite Hc. reflexivity.
  - cbn [all_digits] in Hn. apply andb_prop in Hn as [Hx Hn].
    app_step. cbn [span_digits]. rewrite Hx, (IH Hn). reflexivity.
Qed.

End Strings.

(** ** The counter log parser *)

Section Parser.
Import models gostrings logparser.

Lemma TrimPrefix_append (p r : string) : TrimPrefix (p +:+ r) p = r.
Proof. unfold TrimPrefix, HasPrefix. rewrite prefix_append. apply drop_append. Qed.

(** A line that is the prefix followed by a message without the letter g,
    which [TrimSpace] leaves alone: the message is parsed as it stands,
    with the first account, or the zero key, as the counter. *)
Lemma parseLogMessage_line (msg : string) (accounts : list PublicKey) :
  char_in "g" msg = false -> TrimSpace msg = msg ->
  parseLogMessage ("Program log: " +:+ msg) accounts
  = parseMessage msg accounts (default zeroPublicKey (head accounts)).
Proof.
  intros Hg Htrim. unfold parseLogMessage, msgPrefix.
  rewrite (Contains_prefix _ _ (prefix_append "Program log: " msg)).
  cbn [negb].
  rewrite (Split_second "Program log: " msg "g" eq_refl Hg), Htrim.
  destruct accounts; reflexivity.
Qed.

Lemma ParseLogs_single (msg : string) (accounts : list PublicKey) :
  ParseLogs ["Program log: " +:+ msg] accounts
  = (match parseLogMessage ("Program log: " +:+ msg) accounts with
     | Some action => [action]
     | None => []
     end, None).
Proof.
  unfold ParseLogs. cbn [ParseLogs_loop].
  rewrite (Contains_prefix ("Program log: " +:+ msg) "Program log:" eq_refl).
  cbn [negb]. destruct (parseLogMessage _ accounts); reflexivity.
Qed.

Lemma lookup_guarded {A} (l : list A) (i : nat) :
  (if (i <? length l)%nat then l !! i else None) = l !! i.
Proof.
  destruct (Nat.ltb_spec i (length l)); [reflexivity|].
  symmetry. apply lookup_ge_None. lia.
Qed.

(** The dispatch of [parseMessage] on the head of the message. *)
Lemma HasPrefix_append (p r : string) : HasPrefix (p +:+ r) p = true.
Proof. apply prefix_append. Qed.

Lemma parseMessage_incremented (s : string) (accounts : list PublicKey) (counter : PublicKey) :
  parseMessage ("Counter incremented to: " +:+ s) accounts counter
  = match extractNumber ("Counter incremented to: " +:+ s) "Counter incremented to: " with
    | Some newValue =>
        Some (mkCounterAction EventTypeCounterIncremented counter None
                (Some (wrap64 (newValue - 1))) (Some newValue) None None None None)
    | None => None
    end.
Proof.
  unfold parseMessage.
  replace (String.eqb _ "Counter initialized") with false by reflexivity.
  unfold parseIncremented. rewrite HasPrefix_append.
  destruct (extractNumber _ _); reflexivity.
Qed.

Lemma parseMessage_decremented (s : string) (accounts : list PublicKey) (counter : PublicKey) :
  parseMessage ("Counter decremented to: " +:+ s) accounts counter
  = match extractNumber ("Counter decremented to: " +:+ s) "Counter decremented to: " with
    | Some newValue =>
        Some (mkCounterAction EventTypeCounterDecremented counter None
                (Some (wrap64 (newValue + 1))) (Some newValue) None None None None)
    | None => None
    end.
Proof.
  unfold parseMessage.
  replace (String.eqb _ "Counter initialized") with false by reflexivity.
  unfold parseIncremented.
  replace (HasPrefix _ "Counter incremented to: ") with false by reflexivity.
  unfold parseDecremented. rewrite HasPrefix_append.
  destruct (extractNumber _ _); reflexivity.
Qed.

Lemma parseMessage_added (s : string) (accounts : list PublicKey) (counter : PublicKey) :
  parseMessage ("Added " +:+ s) accounts counter
  = if Contains ("Added " +:+ s) "to counter" then
      match FindStringSubmatch "Added " " to counter. New value: " ("Added " +:+ s) with
      | Some (m1, m2) =>
          Some (mkCounterAction EventTypeCounterAdded counter None
                  (Some (wrap64 (fst (ParseUint m2) - fst (ParseUint m1))))
                  (Some (fst (ParseUint m2))) (Some (fst (ParseUint m1)))
                  None None None)
      | None => None
      end
    else None.
Proof.
  unfold parseMessage.
  replace (String.eqb _ "Counter initialized") with false by reflexivity.
  unfold parseIncremented.
  replace (HasPrefix _ "Counter incremented to: ") with false by reflexivity.
  unfold parseDecremented.
  replace (HasPrefix _ "Counter decremented to: ") with false by reflexivity.
  unfold parseAdded. rewrite HasPrefix_append. cbn [andb].
  destruct (Contains _ "to counter"); [|reflexivity].
  destruct (FindStringSubmatch _ _ _) as [[m1 m2]|]; reflexivity.
Qed.

Lemma parseMessage_payment (s : string) (accounts : list PublicKey) (counter : PublicKey) :
  parseMessage ("Payment of " +:+ s) accounts counter
  = if Contains ("Payment of " +:+ s) "lamports received" then
      match FindStringSubmatch "Payment of "
              " lamports received. Counter incremented to: " ("Payment of " +:+ s) with
      | Some (m1, m2) =>
          Some (mkCounterAction EventTypeCounterPaymentReceived counter None
                  None (Some (fst (ParseUint m2))) None
                  (accounts !! 1%nat) (accounts !! 2%nat)
                  (Some (fst (ParseUint m1))))
      | None => None
      end
    else None.
Proof.
  unfold parseMessage.
  replace (String.eqb _ "Counter initialized") with false by reflexivity.
  unfold parseIncremented.
  replace (HasPrefix _ "Counter incremented to: ") with false by reflexivity.
  unfold parseDecremented.
  replace (HasPrefix _ "Counter decremented to: ") with false by reflexivity.
  unfold parseAdded.
  replace (HasPrefix _ "Added ") with false by reflexivity. cbn [andb].
  unfold parseReset.
  replace (String.eqb _ "Counter reset") with false by reflexivity.
  unfold parsePayment. rewrite HasPrefix_append. cbn [andb].
  rewrite !lookup_guarded. reflexivity.
Qed.

Lemma extractNumber_digits (lit s : string) (N : Z) :
  ParseUint s = (N, None) -> extractNumber (lit +:+ s) lit = Some N.
Proof.
  intros H. destruct (ParseUint_ok s N H) as (Hne & Hd & _).
  unfold extractNumber. rewrite TrimPrefix_append, (TrimSpace_digits s Hne Hd), H.
  reflexivity.
Qed.

Lemma FindStringSubmatch_here (lit0 lit1 s : string) (groups : string * string) :
  match_here lit0 lit1 s = Some groups ->
  FindStringSubmatch lit0 lit1 s = Some groups.
Proof. intros H. destruct s; cbn [FindStringSubmatch]; rewrite H; reflexivity. Qed.

Lemma strip_append (lit r : string) : strip lit (lit +:+ r) = Some r.
Proof. unfold strip, HasPrefix. rewrite prefix_append, drop_append. reflexivity. Qed.

(** The two-number patterns on a message that is exactly the pattern. *)
Lemma FindStringSubmatch_exact (lit0 lit1 a v : string) (c : ascii) (r : string) :
  lit1 = String c r -> is_digit c = false ->
  a <> "" -> all_digits a = true -> v <> "" -> all_digits v = true ->
  FindStringSubmatch lit0 lit1 (lit0 +:+ a +:+ lit1 +:+ v) = Some (a, v).
Proof.
  intros -> Hc Ha Hda Hv Hdv. apply FindStringSubmatch_here.
  unfold match_here. rewrite strip_append.
  change (String c r +:+ v) with (String c (r +:+ v)).
  rewrite (span_digits_append a c (r +:+ v) Hda Hc).
  destruct a as [|a0 a']; [congruence|].
  change (String c (r +:+ v)) with (String c r +:+ v).
  rewrite strip_append, (span_digits_all v Hdv).
  destruct v; [congruence|reflexivity].
Qed.

Lemma ParseLogs_incremented_line (s : string) (N : Z) (accounts : list PublicKey) :
  ParseUint s = (N, None) ->
  ParseLogs ["Program log: Counter incremented to: " +:+ s] accounts
  = ([mkCounterAction EventTypeCounterIncremented
        (default zeroPublicKey (accounts !! 0%nat)) None
        (Some (wrap64 (N - 1))) (Some N) None None None None], None).
Proof.
  intros HN. destruct (ParseUint_ok s N HN) as (Hne & Hd & Hr).
  change ("Program log: Counter incremented to: " +:+ s)
    with ("Program log: " +:+ ("Counter incremented to: " +:+ s)).
  rewrite ParseLogs_single, parseLogMessage_line.
  - rewrite parseMessage_incremented, (extractNumber_digits _ s N HN), head_lookup.
    reflexivity.
  - rewrite char_in_append, (digits_no_char "g" s eq_refl Hd). reflexivity.
  - eapply TrimSpace_keeps; [reflexivity|reflexivity|exact Hne|exact Hd].
Qed.

Lemma ParseLogs_added_line (a v : string) (A V : Z) (accounts : list PublicKey) :
  ParseUint a = (A, None) -> ParseUint v = (V, None) ->
  ParseLogs ["Program log: Added " +:+ a +:+ " to counter. New value: " +:+ v] accounts
  = ([mkCounterAction EventTypeCounterAdded
        (default zeroPublicKey (accounts !! 0%nat)) None
        (Some (wrap64 (V - A))) (Some V) (Some A) None None None], None).
Proof.
  intros HA HV.
  destruct (ParseUint_ok a A HA) as (Hane & Had & _).
  destruct (ParseUint_ok v V HV) as (Hvne & Hvd & _).
  change ("Program log: Added " +:+ a +:+ " to counter. New value: " +:+ v)
    with ("Program log: " +:+ ("Added " +:+ a +:+ " to counter. New value: " +:+ v)).
  rewrite ParseLogs_single, parseLogMessage_line.
  - rewrite parseMessage_added.
    rewrite (Contains_append_r "Added " _ "to counter"
               (Contains_append_r a (" to counter. New value: " +:+ v) "to counter" eq_refl)).
    rewrite (FindStringSubmatch_exact "Added " " to counter. New value: " a v
               " " "to counter. New value: " eq_refl eq_refl Hane Had Hvne Hvd).
    rewrite HA, HV, head_lookup. reflexivity.
  - rewrite !char_in_append, (digits_no_char "g" a eq_refl Had),
      (digits_no_char "g" v eq_refl Hvd). reflexivity.
  - replace ("Added " +:+ a +:+ " to counter. New value: " +:+ v)
      with (("Added " +:+ a +:+ " to counter. New value: ") +:+ v)
      by (rewrite !append_assoc; reflexivity).
    eapply TrimSpace_keeps; [reflexivity|reflexivity|exact Hvne|exact Hvd].
Qed.

Lemma ParseLogs_payment_line (p n : string) (P N : Z) (accounts : list PublicKey) :
  ParseUint p = (P, None) -> ParseUint n = (N, None) ->
  ParseLogs ["Program log: Payment of " +:+ p +:+
             " lamports received. Counter incremented to: " +:+ n] accounts
  = ([mkCounterAction EventTypeCounterPaymentReceived
        (default zeroPublicKey (accounts !! 0%nat)) None
        None (Some N) None (accounts !! 1%nat) (accounts !! 2%nat) (Some P)], None).
Proof.
  intros HP HN.
  destruct (ParseUint_ok p P HP) as (Hpne & Hpd & _).
  destruct (ParseUint_ok n N HN) as (Hnne & Hnd & _).
  change ("Program log: Payment of " +:+ p +:+
          " lamports received. Counter incremented to: " +:+ n)
    with ("Program log: " +:+ ("Payment of " +:+ p +:+
          " lamports received. Counter incremented to: " +:+ n)).
  rewrite ParseLogs_single, parseLogMessage_line.
  - rewrite parseMessage_payment.
    rewrite (Contains_append_r "Payment of " _ "lamports received"
               (Contains_append_r p (" lamports received. Counter incremented to: " +:+ n)
                  "lamports received" eq_refl)).
    rewrite (FindStringSubmatch_exact "Payment of "
               " lamports received. Counter incremented to: " p n
               " " "lamports received. Counter incremented to: "
               eq_refl eq_refl Hpne Hpd Hnne Hnd).
    rewrite HP, HN, head_lookup. reflexivity.
  - rewrite !char_in_append, (digits_no_char "g" p eq_refl Hpd),
      (digits_no_char "g" n eq_refl Hnd). reflexivity.
  - replace ("Payment of " +:+ p +:+
             " lamports received. Counter incremented to: " +:+ n)
      with (("Payment of " +:+ p +:+
             " lamports received. Counter incremented to: ") +:+ n)
      by (rewrite !append_assoc; reflexivity).
    eapply TrimSpace_keeps; [reflexivity|reflexivity|exact Hnne|exact Hnd].
Qed.

(** C6, as the code has it. A line "Program log: Counter incremented to:
    N", N an unsigned 64-bit number, with a non-empty account list, yields
    exactly one action: a CounterIncremented with the first account as
    counter, the new value N and the old value N - 1 in unsigned 64-bit
    arithmetic, which is N - 1 for every N >= 1 and 2^64 - 1 for N = 0. *)
Theorem ParseLogs_counter_incremented
    (s : string) (N : Z) (accounts : list PublicKey) (counter : PublicKey) :
  ParseUint s = (N, None) ->
  accounts !! 0%nat = Some counter ->
  ParseLogs ["Program log: Counter incremented to: " +:+ s] accounts
  = ([mkCounterAction EventTypeCounterIncremented counter None
        (Some (wrap64 (N - 1))) (Some N) None None None None], None) /\
  wrap64 (N - 1) = (if Z.eqb N 0 then 2 ^ 64 - 1 else N - 1).
Proof.
  intros HN Hacc. destruct (ParseUint_ok s N HN) as (_ & _ & Hr). split.
  - rewrite (ParseLogs_incremented_line s N accounts HN), Hacc. reflexivity.
  - destruct (Z.eqb_spec N 0) as [->|Hnz]; [reflexivity|].
    unfold wrap64. apply Z.mod_small. lia.
Qed.

(** The witness, and the example of the specification: N = 42. *)
Lemma ParseLogs_counter_incremented_witness :
  ParseLogs ["Program log: Counter incremented to: " +:+ "42"] [repeat x07 32]
  = ([mkCounterAction EventTypeCounterIncremented (repeat x07 32) None
        (Some (wrap64 (42 - 1))) (Some 42) None None None None], None) /\
  wrap64 (42 - 1) = (if Z.eqb 42 0 then 2 ^ 64 - 1 else 42 - 1).
Proof.
  apply (ParseLogs_counter_incremented "42" 42 [repeat x07 32] (repeat x07 32));
    reflexivity.
Defined.

Example counter_incremented_42 :
  ParseLogs ["Program log: Counter incremented to: 42"] [repeat x07 32]
  = ([mkCounterAction EventTypeCounterIncremented (repeat x07 32) None
        (Some 41) (Some 42) None None None None], None).
Proof. vm_compute. reflexivity. Qed.

(** C6 as stated fails at N = 0: the text "0" parses as an unsigned 64-bit
    number, and the old value of the action is 2^64 - 1, which is neither
    N - 1 nor zero. *)
Lemma ParseLogs_incremented_to_zero_wraps :
  ParseUint "0" = (0, None) /\
  ParseLogs ["Program log: Counter incremented to: 0"] [repeat x07 32]
  = ([mkCounterAction EventTypeCounterIncremented (repeat x07 32) None
        (Some 18446744073709551615) (Some 0) None None None None], None) /\
  Some 18446744073709551615 <> Some (0 - 1) /\
  Some 18446744073709551615 <> Some 0.
Proof.
  split; [reflexivity|]. split; [vm_compute; reflexivity|].
  split; discriminate.
Qed.

(** C7. A line "Program log: Payment of P lamports received. Counter
    incremented to: N", P and N unsigned 64-bit numbers, yields exactly one
    action: a CounterPaymentReceived with payment P and new count N, the
    counter the first account (the zero key when there is none), the payer
    the second account when there is one and absent otherwise, the fee
    collector the third account when there is one and absent otherwise. *)
Theorem ParseLogs_payment_received
    (p n : string) (P N : Z) (accounts : list PublicKey) :
  ParseUint p = (P, None) -> ParseUint n = (N, None) ->
  exists action : CounterAction,
    ParseLogs ["Program log: Payment of " +:+ p +:+
               " lamports received. Counter incremented to: " +:+ n] accounts
    = ([action], None) /\
    Type_ action = EventTypeCounterPaymentReceived /\
    Payment action = Some P /\
    NewValue action = Some N /\
    Counter action = default zeroPublicKey (accounts !! 0%nat) /\
    Payer action = accounts !! 1%nat /\
    FeeCollector action = accounts !! 2%nat /\
    Payer action = (if (length accounts <? 2)%nat then None else accounts !! 1%nat) /\
    FeeCollector action
      = (if (length accounts <? 3)%nat then None else accounts !! 2%nat).
Proof.
  intros HP HN. eexists. split; [apply (ParseLogs_payment_line p n P N accounts HP HN)|].
  cbn [Type_ Payment NewValue Counter Payer FeeCollector].
  repeat split; try reflexivity.
  - destruct (Nat.ltb_spec (length accounts) 2); [|reflexivity].
    apply lookup_ge_None. lia.
  - destruct (Nat.ltb_spec (length accounts) 3); [|reflexivity].
    apply lookup_ge_None. lia.
Qed.

(** The witness: 5000000 lamports, count 7, and two accounts, so that the
    payer is there and the fee collector is not. *)
Lemma ParseLogs_payment_received_witness :
  exists action : CounterAction,
    ParseLogs ["Program log: Payment of " +:+ "5000000" +:+
               " lamports received. Counter incremented to: " +:+ "7"]
              [repeat x07 32; repeat x08 32]
    = ([action], None) /\
    Type_ action = EventTypeCounterPaymentReceived /\
    Payment action = Some 5000000 /\
    NewValue action = Some 7 /\
    Counter action = repeat x07 32 /\
    Payer action = Some (repeat x08 32) /\
    FeeCollector action = None.
Proof.
  destruct (ParseLogs_payment_received "5000000" "7" 5000000 7
              [repeat x07 32; repeat x08 32] eq_refl eq_refl)
    as (action & H1 & H2 & H3 & H4 & H5 & H6 & H7 & _).
  exists action. repeat split; assumption.
Defined.

Example payment_with_three_accounts :
  ParseLogs ["Program log: Payment of 5000000 lamports received. Counter incremented to: 7"]
            [repeat x07 32; repeat x08 32; repeat x09 32]
  = ([mkCounterAction EventTypeCounterPaymentReceived (repeat x07 32) None
        None (Some 7) None (Some (repeat x08 32)) (Some (repeat x09 32))
        (Some 5000000)], None).
Proof. vm_compute. reflexivity. Qed.

Example payment_with_one_account :
  ParseLogs ["Program log: Payment of 5000000 lamports received. Counter incremented to: 7"]
            [repeat x07 32]
  = ([mkCounterAction EventTypeCounterPaymentReceived (repeat x07 32) None
        None (Some 7) None None None (Some 5000000)], None).
Proof. vm_compute. reflexivity. Qed.

(** C8, as the code has it. For a line "Program log: Added A to counter.
    New value: V" the old value is V - A in unsigned 64-bit arithmetic: V - A
    when A <= V, and 2^64 - (A - V), which is never zero, when A > V. The
    same holds for the increment: "Counter incremented to: 0" gives the old
    value 2^64 - 1. *)
Theorem ParseLogs_old_value_wraps
    (a v : string) (A V : Z) (accounts : list PublicKey) :
  ParseUint a = (A, None) -> ParseUint v = (V, None) ->
  ParseLogs ["Program log: Added " +:+ a +:+ " to counter. New value: " +:+ v] accounts
  = ([mkCounterAction EventTypeCounterAdded
        (default zeroPublicKey (accounts !! 0%nat)) None
        (Some (wrap64 (V - A))) (Some V) (Some A) None None None], None) /\
  wrap64 (V - A) = (if Z.leb A V then V - A else 2 ^ 64 - (A - V)) /\
  Z.ltb V A && Z.eqb (wrap64 (V - A)) 0 = false /\
  ParseLogs ["Program log: Counter incremented to: " +:+ "0"] accounts
  = ([mkCounterAction EventTypeCounterIncremented
        (default zeroPublicKey (accounts !! 0%nat)) None
        (Some (2 ^ 64 - 1)) (Some 0) None None None None], None).
Proof.
  intros HA HV.
  destruct (ParseUint_ok a A HA) as (_ & _ & HrA).
  destruct (ParseUint_ok v V HV) as (_ & _ & HrV).
  assert (wrap64 (V - A) = (if Z.leb A V then V - A else 2 ^ 64 - (A - V))) as Hw.
  { unfold wrap64. destruct (Z.leb_spec A V).
    - apply Z.mod_small. lia.
    - replace (V - A) with (2 ^ 64 - (A - V) + (-1) * 2 ^ 64) by lia.
      rewrite Z.mod_add by lia. apply Z.mod_small. lia. }
  split; [exact (ParseLogs_added_line a v A V accounts HA HV)|].
  split; [exact Hw|]. split.
  - rewrite Hw. destruct (Z.ltb_spec V A); [|reflexivity].
    destruct (Z.leb_spec A V); [lia|]. cbn [andb]. apply Z.eqb_neq. lia.
  - rewrite (ParseLogs_incremented_line "0" 0 accounts eq_refl). reflexivity.
Qed.

(** The witness: 5 added, new value 3. *)
Lemma ParseLogs_old_value_wraps_witness :
  ParseLogs ["Program log: Added " +:+ "5" +:+ " to counter. New value: " +:+ "3"] []
  = ([mkCounterAction EventTypeCounterAdded
        (default zeroPublicKey ([] !! 0%nat)) None
        (Some (wrap64 (3 - 5))) (Some 3) (Some 5) None None None], None) /\
  wrap64 (3 - 5) = (if Z.leb 5 3 then 3 - 5 else 2 ^ 64 - (5 - 3)) /\
  Z.ltb 3 5 && Z.eqb (wrap64 (3 - 5)) 0 = false /\
  ParseLogs ["Program log: Counter incremented to: " +:+ "0"] []
  = ([mkCounterAction EventTypeCounterIncremented
        (default zeroPublicKey ([] !! 0%nat)) None
        (Some (2 ^ 64 - 1)) (Some 0) None None None None], None).
Proof.
  apply (ParseLogs_old_value_wraps "5" "3" 5 3 []); reflexivity.
Defined.

(** C8 as stated fails: adding 5 to reach 3 gives the old value
    2^64 - 2, not zero. *)
Lemma ParseLogs_added_underflow_not_zero :
  ParseLogs ["Program log: Added 5 to counter. New value: 3"] [repeat x07 32]
  = ([mkCounterAction EventTypeCounterAdded (repeat x07 32) None
        (Some 18446744073709551614) (Some 3) (Some 5) None None None], None) /\
  Some 18446744073709551614 <> Some 0.
Proof. split; [vm_compute; reflexivity|discriminate]. Qed.

End Parser.

(** ** The counter log parser: what is skipped *)

Section ParserSkips.
Import models gostrings logparser.

Lemma parseMessage_without_accounts
    (msg : string) (accounts : list PublicKey) (counter : PublicKey) (a : CounterAction) :
  parseMessage msg accounts counter = Some a ->
  parseMessage msg [] zeroPublicKey = Some (without_accounts a).
Proof.
  unfold parseMessage, parseIncremented, parseDecremented, parseAdded,
    parseReset, parsePayment.
  destruct (String.eqb msg "Counter initialized");
    [intros [= <-]; reflexivity|].
  destruct (HasPrefix msg "Counter incremented to: ");
    [destruct (extractNumber msg "Counter incremented to: ");
       [intros [= <-]; reflexivity|]|];
  (destruct (HasPrefix msg "Counter decremented to: ");
    [destruct (extractNumber msg "Counter decremented to: ");
       [intros [= <-]; reflexivity|]|]);
  (destruct (HasPrefix msg "Added " && Contains msg "to counter");
    [destruct (FindStringSubmatch "Added " _ msg) as [[m1 m2]|];
       [intros [= <-]; reflexivity|]|]);
  (destruct (String.eqb msg "Counter reset");
    [intros [= <-]; reflexivity|]);
  (destruct (HasPrefix msg "Payment of " && Contains msg "lamports received");
    [destruct (FindStringSubmatch "Payment of " _ msg) as [[m1 m2]|];
       [intros [= <-]; reflexivity|]|]);
  intros [=].
Qed.

Lemma parseMessage_no_pattern
    (msg : string) (accounts : list PublicKey) (counter : PublicKey) :
  matches_pattern msg = false -> parseMessage msg accounts counter = None.
Proof.
  unfold matches_pattern. intros H.
  repeat (apply orb_false_elim in H as [H ?]).
  unfold parseMessage, parseIncremented, parseDecremented, parseAdded,
    parseReset, parsePayment.
  repeat match goal with
         | E : ?b = false |- context [if ?b then _ else _] => rewrite E
         end.
  reflexivity.
Qed.

Lemma extractNumber_fails (lit s : string) (v : Z) (e : error) :
  ParseUint (TrimSpace s) = (v, Some e) -> extractNumber (lit +:+ s) lit = None.
Proof.
  intros H. unfold extractNumber. rewrite TrimPrefix_append, H. reflexivity.
Qed.

(** C9, as the code has it. [ParseLogs] never reports an error. A message
    "Counter incremented to: X" or "Counter decremented to: X" whose X,
    trimmed, does not parse as an unsigned 64-bit number yields no action. A
    message under none of the six patterns yields no action, and so does a
    line without "Program log: ". A missing account does not make the
    parser skip a line: whenever a line yields an action with some account
    list, it yields the same action with the empty list, the counter being
    the zero key and payer and fee collector absent. *)
Theorem ParseLogs_skips_unparsed_not_accountless :
  (forall (logs : list string) (accounts : list PublicKey),
      snd (ParseLogs logs accounts) = None) /\
  (forall (s : string) (v : Z) (e : error) (accounts : list PublicKey)
          (counter : PublicKey),
      ParseUint (TrimSpace s) = (v, Some e) ->
      parseMessage ("Counter incremented to: " +:+ s) accounts counter = None /\
      parseMessage ("Counter decremented to: " +:+ s) accounts counter = None) /\
  (forall (msg : string) (accounts : list PublicKey) (counter : PublicKey),
      matches_pattern msg = false -> parseMessage msg accounts counter = None) /\
  (forall (log : string) (accounts : list PublicKey),
      Contains log "Program log: " = false -> parseLogMessage log accounts = None) /\
  (forall (log : string) (accounts : list PublicKey) (a : CounterAction),
      parseLogMessage log accounts = Some a ->
      parseLogMessage log [] = Some (without_accounts a)).
Proof.
  split; [reflexivity|]. split; [|split; [|split]].
  - intros s v e accounts counter H. split.
    + rewrite parseMessage_incremented, (extractNumber_fails _ s v e H). reflexivity.
    + rewrite parseMessage_decremented, (extractNumber_fails _ s v e H). reflexivity.
  - exact parseMessage_no_pattern.
  - intros log accounts H. unfold parseLogMessage, msgPrefix. rewrite H. reflexivity.
  - intros log accounts a. unfold parseLogMessage.
    destruct (negb (Contains log msgPrefix)); [intros [=]|].
    destruct (Split log msgPrefix !! 1%nat) as [part|]; [|intros [=]].
    apply parseMessage_without_accounts.
Qed.

(** The witness: an unparsable number, a message under no pattern, and a
    counter line read without accounts. *)
Lemma ParseLogs_skips_unparsed_not_accountless_witness :
  parseMessage ("Counter incremented to: " +:+ "12x") [repeat x07 32] (repeat x07 32)
    = None /\
  parseMessage "Counter exploded" [repeat x07 32] (repeat x07 32) = None /\
  parseLogMessage "Program log: Counter reset" []
    = Some (without_accounts
              (mkCounterAction EventTypeCounterReset (repeat x07 32) None
                 None (Some 0) None None None None)).
Proof.
  destruct ParseLogs_skips_unparsed_not_accountless as (_ & H2 & H3 & _ & H5).
  split; [|split].
  - exact (proj1 (H2 "12x" 0 ErrSyntax [repeat x07 32] (repeat x07 32) eq_refl)).
  - exact (H3 "Counter exploded" [repeat x07 32] (repeat x07 32) eq_refl).
  - exact (H5 "Program log: Counter reset" [repeat x07 32] _ eq_refl).
Defined.

(** C9 as stated fails: with no account at all the increment line is not
    skipped; one action comes out, its counter the zero key. *)
Lemma ParseLogs_missing_account_not_skipped :
  ParseLogs ["Program log: Counter incremented to: 5"] []
  = ([mkCounterAction EventTypeCounterIncremented zeroPublicKey None
        (Some 4) (Some 5) None None None None], None) /\
  length (fst (ParseLogs ["Program log: Counter incremented to: 5"] [])) = 1%nat.
Proof. split; vm_compute; reflexivity. Qed.

End ParserSkips.

(** ** The binary event decoder *)

Section Decoder.
Import models decoder.

Lemma firstn_app_exact {A} (n : nat) (a b : list A) :
  length a = n -> firstn n (a ++ b) = a.
Proof.
  intros <-. induction a as [|x a IH]; [reflexivity|].
  cbn [length app firstn]. now rewrite IH.
Qed.

Lemma skipn_app_exact {A} (n : nat) (a b : list A) :
  length a = n -> skipn n (a ++ b) = b.
Proof. intros <-. induction a as [|x a IH]; [reflexivity|exact IH]. Qed.

Lemma readN_app (n : nat) (a b : list byte) :
  length a = n -> readN n (a ++ b) = inr (a, b).
Proof.
  intros H. unfold readN.
  rewrite (firstn_app_exact n a b H), (skipn_app_exact n a b H).
  replace (length (a ++ b) <? n)%nat with false; [reflexivity|].
  symmetry. apply Nat.ltb_ge. rewrite length_app. lia.
Qed.

Lemma decodePublicKey_app (k : PublicKey) (rest : list byte) :
  is_key k -> decodePublicKey (k ++ rest) = inr (k, rest).
Proof. intros H. apply readN_app. exact H. Qed.

Lemma decodeUint64_app (z : Z) (rest : list byte) :
  is_u64 z -> decodeUint64 (le_split 8 z ++ rest) = inr (z, rest).
Proof.
  intros H. unfold decodeUint64, bind.
  rewrite (readN_app 8 _ rest (length_le_split 8 z)). unfold ret.
  rewrite le_combine_split. do 2 f_equal. apply Z.mod_small. exact H.
Qed.

Lemma decodeUint32_app (z : Z) (rest : list byte) :
  0 <= z < 2 ^ 32 -> decodeUint32 (le_split 4 z ++ rest) = inr (z, rest).
Proof.
  intros H. unfold decodeUint32, bind.
  rewrite (readN_app 4 _ rest (length_le_split 4 z)). unfold ret.
  rewrite le_combine_split. do 2 f_equal. apply Z.mod_small. exact H.
Qed.

Lemma to_int64_wrap (z : Z) : is_i64 z -> to_int64 (z mod 2 ^ 64) = z.
Proof.
  unfold is_i64, to_int64. intros H.
  destruct (Z.ltb_spec (z mod 2 ^ 64) (2 ^ 63)) as [Hlt|Hge].
  - destruct (Z.le_gt_cases 0 z) as [Hz|Hz].
    + apply Z.mod_small. lia.
    + replace z with (z + 2 ^ 64 + (-1) * 2 ^ 64) in Hlt by lia.
      rewrite Z.mod_add, Z.mod_small in Hlt by lia. lia.
  - destruct (Z.le_gt_cases 0 z) as [Hz|Hz].
    + rewrite Z.mod_small in Hge by lia. lia.
    + replace z with (z + 2 ^ 64 + (-1) * 2 ^ 64) at 1 by lia.
      rewrite Z.mod_add, Z.mod_small by lia. lia.
Qed.

Lemma decodeInt64_app (z : Z) (rest : list byte) :
  is_i64 z -> decodeInt64 (le_split 8 z ++ rest) = inr (z, rest).
Proof.
  intros H. unfold decodeInt64, bind.
  rewrite (readN_app 8 _ rest (length_le_split 8 z)). unfold ret.
  rewrite le_combine_split. do 2 f_equal. apply to_int64_wrap. exact H.
Qed.

(** A frame that starts with the 8 bytes of a discriminator of the map is
    handed to the switch with the bytes that follow. *)
Lemma DecodeEvent_known (rd : nat -> Dec (list byte)) (d : EventDecoder)
    (disc payload : list byte) (t : EventType) :
  length disc = 8%nat ->
  discriminators d !! Base64.EncodeToString disc = Some t ->
  DecodeEvent rd d (disc ++ payload) = decodeByType rd t payload.
Proof.
  intros Hlen Hlook. unfold DecodeEvent.
  replace (length (disc ++ payload) <? 8)%nat with false
    by (symmetry; apply Nat.ltb_ge; rewrite length_app; lia).
  rewrite (firstn_app_exact 8 disc payload Hlen), Hlook.
  rewrite (skipn_app_exact 8 disc payload Hlen). reflexivity.
Qed.

Lemma DecodeEvent_type (rd : nat -> Dec (list byte)) (t : EventType) (payload : list byte) :
  In t knownTypes ->
  DecodeEvent rd NewEventDecoder (discriminatorBytes t ++ payload)
  = decodeByType rd t payload.
Proof.
  intros Hin. destruct (discriminator_known t Hin) as [Hlen Hlook].
  apply DecodeEvent_known; assumption.
Qed.

Ltac decode_step :=
  first [ rewrite decodePublicKey_app by assumption
        | rewrite decodeUint64_app by assumption
        | rewrite decodeInt64_app by assumption ].

Section RoundTrip.

Variable rd : nat -> Dec (list byte).

Lemma decodeString_app (s : string) (rest : list byte) :
  (forall (n : nat) (bs rest : list byte),
      length bs = n -> rd n (bs ++ rest) = inr (bs, rest)) ->
  is_text s ->
  (nameLen <-- decodeUint32 ;; rd (Z.to_nat nameLen)) (encodeString s ++ rest)
  = inr (bytes_of_string s, rest).
Proof.
  intros rd_fills H. unfold encodeString, bind. rewrite <- app_assoc.
  rewrite decodeUint32_app by (unfold is_text in H; lia).
  apply rd_fills. rewrite Nat2Z.id. reflexivity.
Qed.

Lemma Some_eq_inv {A} (a b : A) : Some a = Some b -> a = b.
Proof. congruence. Qed.

Lemma string_of_bytes_of_string (s : string) : string_of_bytes (bytes_of_string s) = s.
Proof. apply string_of_list_byte_of_string. Qed.

(** Encoding an event in the wire layout and decoding it by its type gives
    the event back, whatever bytes follow. Only the two strings of an
    [NftMintedEvent] go through the reader of byte slices. *)
Lemma decodeByType_encode (e : Event) (payload rest : list byte) :
  encodePayload e = Some payload -> wellFormed e ->
  (struct_name e = EventTypeNftMinted ->
   forall (n : nat) (bs rest : list byte),
     length bs = n -> rd n (bs ++ rest) = inr (bs, rest)) ->
  decodeByType rd (struct_name e) (payload ++ rest)
  = (struct_name e, AnyPtr e, None).
Proof.
  intros Henc [Hbase Hwf] Hfill.
  destruct e; cbn [base_of] in Hbase; subst base;
    cbn [encodePayload] in Henc; try discriminate Henc;
    apply Some_eq_inv in Henc; subst payload; cbn [struct_name];
    repeat rewrite <- app_assoc.
  - destruct Hwf as (? & ? & ? & ?).
    match goal with
    | |- decodeByType rd ?t ?x = _ =>
        change (decodeByType rd t x) with (typed_result t t (decodeTokensMinted x))
    end.
    unfold decodeTokensMinted, bind. repeat decode_step. reflexivity.
  - destruct Hwf as (? & ? & ? & ? & ?).
    match goal with
    | |- decodeByType rd ?t ?x = _ =>
        change (decodeByType rd t x) with (typed_result t t (decodeTokensTransferred x))
    end.
    unfold decodeTokensTransferred, bind. repeat decode_step. reflexivity.
  - destruct Hwf as (? & ? & ? & ?).
    match goal with
    | |- decodeByType rd ?t ?x = _ =>
        change (decodeByType rd t x) with (typed_result t t (decodeTokensBurned x))
    end.
    unfold decodeTokensBurned, bind. repeat decode_step. reflexivity.
  - destruct Hwf as (? & ? & ?).
    match goal with
    | |- decodeByType rd ?t ?x = _ =>
        change (decodeByType rd t x) with (typed_result t t (decodeUserAccountCreated x))
    end.
    unfold decodeUserAccountCreated, bind. repeat decode_step. reflexivity.
  - destruct Hwf as (? & ? & ? & ?).
    match goal with
    | |- decodeByType rd ?t ?x = _ =>
        change (decodeByType rd t x) with (typed_result t t (decodeUserAccountUpdated x))
    end.
    unfold decodeUserAccountUpdated, bind. repeat decode_step. reflexivity.
  - destruct Hwf as (? & ? & ? & ?).
    match goal with
    | |- decodeByType rd ?t ?x = _ =>
        change (decodeByType rd t x) with (typed_result t t (decodeConfigUpdated x))
    end.
    unfold decodeConfigUpdated, bind. repeat decode_step. reflexivity.
  - destruct Hwf as (? & ? & ? & Hname & Huri & ?).
    match goal with
    | |- decodeByType rd ?t ?x = _ =>
        change (decodeByType rd t x) with (typed_result t t (decodeNftMinted rd x))
    end.
    unfold decodeNftMinted. unfold bind at 1 2 3. repeat decode_step.
    specialize (Hfill eq_refl).
    pose proof (decodeString_app Name (encodeString Uri ++ le_split 8 Timestamp ++ rest)
                  Hfill Hname) as Hn.
    pose proof (decodeString_app Uri (le_split 8 Timestamp ++ rest) Hfill Huri) as Hu.
    unfold bind in Hn, Hu |- *.
    destruct (decodeUint32 (encodeString Name ++ _)) as [?|[nameLen r1]];
      [discriminate Hn|].
    rewrite Hn.
    destruct (decodeUint32 (encodeString Uri ++ _)) as [?|[uriLen r2]];
      [discriminate Hu|].
    rewrite Hu. decode_step. unfold ret, typed_result.
    rewrite !string_of_bytes_of_string. reflexivity.
Qed.

End RoundTrip.

Lemma In_known (t : EventType) :
  existsb (String.eqb t) knownTypes = true -> In t knownTypes.
Proof.
  intros H. apply existsb_exists in H as (x & Hx & Heq).
  apply String.eqb_eq in Heq. subst x. exact Hx.
Qed.

Lemma encodable_known (e : Event) (payload : list byte) :
  encodePayload e = Some payload -> In (struct_name e) knownTypes.
Proof.
  destruct e; cbn [encodePayload struct_name]; intros H;
    try discriminate H; apply In_known; reflexivity.
Qed.

(** C4, as the code has it. A frame shorter than 8 bytes and a frame whose
    first 8 bytes are no discriminator of the map give an error and no
    event value. A frame that starts with the discriminator of one of the
    thirteen known types without a decoder gives the type name, no event
    value and the error "decoder not implemented for ...", whatever the
    payload. A frame that starts with the discriminator of one of the seven
    types with a decoder, followed by a well-formed payload in the layout of
    that type and by any further bytes, gives a pointer to the typed event
    with exactly the encoded field values; for [NftMintedEvent], and for it
    alone, this is provided the binary library reads a pre-sized byte slice
    by filling it with the next bytes. Everything else holds whatever that
    library does with a byte slice. *)
Theorem DecodeEvent_decodes_seven_of_twenty (rd : nat -> Dec (list byte)) :
  (forall data : list byte,
      (length data < 8)%nat ->
      DecodeEvent rd NewEventDecoder data
      = ("", AnyNil, Some (Errorf "data too short for discriminator"))) /\
  (forall data : list byte,
      (8 <= length data)%nat ->
      discriminators NewEventDecoder !! Base64.EncodeToString (firstn 8 data) = None ->
      DecodeEvent rd NewEventDecoder data
      = ("", AnyNil,
         Some (Errorf ("unknown discriminator: " +:+
                       Base64.EncodeToString (firstn 8 data))))) /\
  Forall (fun t : EventType =>
            forall payload : list byte,
              DecodeEvent rd NewEventDecoder (discriminatorBytes t ++ payload)
              = (t, AnyNil, Some (Errorf ("decoder not implemented for " +:+ t))))
         undecodedTypes /\
  (forall (e : Event) (payload rest : list byte),
      encodePayload e = Some payload -> wellFormed e ->
      (struct_name e = EventTypeNftMinted ->
       forall (n : nat) (bs rest : list byte),
         length bs = n -> rd n (bs ++ rest) = inr (bs, rest)) ->
      DecodeEvent rd NewEventDecoder
        (discriminatorBytes (struct_name e) ++ payload ++ rest)
      = (struct_name e, AnyPtr e, None)).
Proof.
  split; [|split; [|split]].
  - intros data Hshort. unfold DecodeEvent.
    apply Nat.ltb_lt in Hshort. rewrite Hshort. reflexivity.
  - intros data Hlong Hnone. unfold DecodeEvent.
    apply Nat.ltb_ge in Hlong. rewrite Hlong, Hnone. reflexivity.
  - unfold undecodedTypes.
    repeat (constructor;
            [intros payload;
             rewrite DecodeEvent_type by (apply In_known; reflexivity);
             reflexivity|]).
    constructor.
  - intros e payload rest Henc Hwf Hfill.
    rewrite (DecodeEvent_type rd _ _ (encodable_known e payload Henc)).
    apply (decodeByType_encode rd); assumption.
Qed.

Lemma scenarioMint_wellFormed : wellFormed scenarioMint.
Proof.
  unfold wellFormed, scenarioMint, is_key, is_u64, is_i64. cbn [base_of].
  repeat split; try reflexivity; lia.
Defined.

(** The token mint of the first scenario of the specification, under the
    reader that fills the slice. *)
Lemma DecodeEvent_decodes_seven_of_twenty_witness :
  DecodeEvent readExactly NewEventDecoder
    (discriminatorBytes "TokensMintedEvent" ++
     (repeat x01 32 ++ repeat x02 32 ++ le_split 8 1000 ++ le_split 8 1700000000) ++ [])
  = ("TokensMintedEvent", AnyPtr scenarioMint, None).
Proof.
  exact (proj2 (proj2 (proj2 (DecodeEvent_decodes_seven_of_twenty readExactly)))
           scenarioMint _ [] eq_refl scenarioMint_wellFormed (fun _ => readN_app)).
Defined.

(** C4 as stated fails: [DelegateApprovedEvent] is one of the twenty types
    of the map, and a frame with its discriminator gives no event value
    but the error of the default case. *)
Lemma DecodeEvent_known_type_without_decoder :
  In EventTypeDelegateApproved knownTypes /\
  discriminators NewEventDecoder !!
    Base64.EncodeToString (discriminatorBytes "DelegateApprovedEvent")
  = Some EventTypeDelegateApproved /\
  DecodeEvent readExactly NewEventDecoder
    (discriminatorBytes "DelegateApprovedEvent" ++ repeat x00 80)
  = ("DelegateApprovedEvent", AnyNil,
     Some (Errorf "decoder not implemented for DelegateApprovedEvent")).
Proof.
  split; [apply In_known; reflexivity|].
  split; vm_compute; reflexivity.
Qed.

Example scenario_token_mint :
  DecodeEvent readExactly NewEventDecoder
    (discriminatorBytes "TokensMintedEvent" ++
     repeat x01 32 ++ repeat x02 32 ++
     [xe8; x03; x00; x00; x00; x00; x00; x00] ++
     [x00; xf1; x53; x65; x00; x00; x00; x00])
  = ("TokensMintedEvent", AnyPtr scenarioMint, None).
Proof. vm_compute. reflexivity. Qed.

End Decoder.

(** ** Program data lines *)

Section ProgramData.
Import models decoder programdata Base64Dec.

Lemma list_ind3 {A} (P : list A -> Prop) :
  P [] -> (forall a, P [a]) -> (forall a b, P [a; b]) ->
  (forall a b c l, P l -> P (a :: b :: c :: l)) ->
  forall l, P l.
Proof.
  intros H0 H1 H2 H3 l.
  assert (forall n l, (length l <= n)%nat -> P l) as Hn.
  { clear l. induction n as [|n IH]; intros l Hl.
    - destruct l; [exact H0|cbn in Hl; lia].
    - destruct l as [|a [|b [|c l]]]; auto.
      apply H3. apply IH. cbn in Hl. lia. }
  exact (Hn (length l) l (le_n _)).
Qed.

Lemma enc_checked : forallb enc_ok (seq 0 64) = true.
Proof. vm_compute. reflexivity. Qed.

Lemma enc_mod (v : Z) : Base64.enc v = Base64.enc (Z.of_nat (Z.to_nat (v mod 64))).
Proof.
  unfold Base64.enc. rewrite Z2Nat.id by (apply Z.mod_pos_bound; lia).
  rewrite Z.mod_mod by lia. reflexivity.
Qed.

Lemma enc_facts (v : Z) :
  dec_char (Base64.enc v) = Some (v mod 64) /\ is_newline (Base64.enc v) = false.
Proof.
  pose proof (Z.mod_pos_bound v 64 eq_refl) as Hr.
  pose proof enc_checked as H. rewrite forallb_forall in H.
  specialize (H (Z.to_nat (v mod 64))).
  rewrite enc_mod. unfold enc_ok in H.
  assert (In (Z.to_nat (v mod 64)) (seq 0 64)) as Hin by (apply in_seq; lia).
  apply H in Hin. apply andb_prop in Hin as [H1 H2].
  destruct (dec_char _) as [x|]; [|discriminate H1].
  apply Z.eqb_eq in H1. rewrite Z2Nat.id in H1 by lia.
  apply negb_true_iff in H2. split; [congruence|exact H2].
Qed.

Lemma of_Z_mod_eq (x y : Z) : x mod 256 = y mod 256 -> byte.of_Z x = byte.of_Z y.
Proof.
  intros H. apply byte.unsigned_inj. rewrite !byte.unsigned_of_Z.
  unfold byte.wrap. exact H.
Qed.

End ProgramData.

Section ProgramDataRoundTrip.
Import models decoder programdata Base64Dec.

Lemma quantum_bytes (a b c : Z) :
  is_byte_value a -> is_byte_value b -> is_byte_value c ->
  let val := quantum ((a / 4) mod 64) ((a mod 4 * 16 + b / 16) mod 64)
                     ((b mod 16 * 4 + c / 64) mod 64) ((c mod 64) mod 64) in
  byte0 val = byte.of_Z a /\ byte1 val = byte.of_Z b /\ byte2 val = byte.of_Z c.
Proof.
  unfold is_byte_value, quantum, byte0, byte1, byte2. intros Ha Hb Hc. cbv zeta.
  repeat split; apply of_Z_mod_eq; Z.div_mod_to_equations; lia.
Qed.

Lemma quantum_bytes2 (a b : Z) :
  is_byte_value a -> is_byte_value b ->
  let val := quantum ((a / 4) mod 64) ((a mod 4 * 16 + b / 16) mod 64)
                     ((b mod 16 * 4) mod 64) 0 in
  byte0 val = byte.of_Z a /\ byte1 val = byte.of_Z b.
Proof.
  unfold is_byte_value, quantum, byte0, byte1. intros Ha Hb. cbv zeta.
  repeat split; apply of_Z_mod_eq; Z.div_mod_to_equations; lia.
Qed.

Lemma quantum_bytes1 (a : Z) :
  is_byte_value a ->
  byte0 (quantum ((a / 4) mod 64) ((a mod 4 * 16) mod 64) 0 0) = byte.of_Z a.
Proof.
  unfold is_byte_value, quantum, byte0. intros Ha.
  apply of_Z_mod_eq; Z.div_mod_to_equations; lia.
Qed.

End ProgramDataRoundTrip.

Section ProgramDataLines.
Import models decoder programdata Base64Dec.

Lemma decode_encode (zs : list Z) :
  Forall is_byte_value zs ->
  decode_quanta (list_ascii_of_string (Base64.encode_Z zs)) = Some (map byte.of_Z zs).
Proof.
  induction zs as [|a|a b|a b c zs IH] using list_ind3; intros Hr.
  - reflexivity.
  - apply Forall_cons in Hr as [Ha _].
    cbn [Base64.encode_Z list_ascii_of_string decode_quanta].
    rewrite (proj1 (enc_facts (a / 4))), (proj1 (enc_facts (a mod 4 * 16))).
    change (dec_char "="%char) with (@None Z). cbn [is_pad andb map].
    change (Ascii.eqb "=" "=") with true. cbn [andb].
    rewrite (quantum_bytes1 a Ha). reflexivity.
  - apply Forall_cons in Hr as [Ha Hr]. apply Forall_cons in Hr as [Hb _].
    cbn [Base64.encode_Z list_ascii_of_string decode_quanta].
    rewrite (proj1 (enc_facts (a / 4))), (proj1 (enc_facts (a mod 4 * 16 + b / 16))),
      (proj1 (enc_facts (b mod 16 * 4))).
    change (dec_char "="%char) with (@None Z). cbn [is_pad map].
    change (Ascii.eqb "=" "=") with true.
    destruct (quantum_bytes2 a b Ha Hb) as [-> ->]. reflexivity.
  - apply Forall_cons in Hr as [Ha Hr]. apply Forall_cons in Hr as [Hb Hr].
    apply Forall_cons in Hr as [Hc Hr].
    cbn [Base64.encode_Z list_ascii_of_string decode_quanta].
    rewrite (proj1 (enc_facts (a / 4))), (proj1 (enc_facts (a mod 4 * 16 + b / 16))),
      (proj1 (enc_facts (b mod 16 * 4 + c / 64))), (proj1 (enc_facts (c mod 64))).
    rewrite (IH Hr).
    destruct (quantum_bytes a b c Ha Hb Hc) as (-> & -> & ->). reflexivity.
Qed.

Lemma encode_no_newline (zs : list Z) :
  List.filter (fun c => negb (is_newline c)) (list_ascii_of_string (Base64.encode_Z zs))
  = list_ascii_of_string (Base64.encode_Z zs).
Proof.
  induction zs as [|a|a b|a b c zs IH] using list_ind3;
    cbn [Base64.encode_Z list_ascii_of_string List.filter];
    repeat rewrite (proj2 (enc_facts _)); cbn [negb];
    change (is_newline "="%char) with false; cbn [negb];
    try rewrite IH; reflexivity.
Qed.

(** Decoding what [EncodeToString] wrote gives the bytes back. *)
Lemma DecodeString_EncodeToString (bs : list byte) :
  DecodeString (Base64.EncodeToString bs) = Some bs.
Proof.
  unfold DecodeString, Base64.EncodeToString.
  rewrite encode_no_newline, decode_encode.
  - rewrite map_map. f_equal. rewrite <- (map_id bs) at 2.
    apply map_ext. intros b. apply byte.of_Z_unsigned.
  - apply Forall_forall. intros z Hz. apply list_elem_of_In in Hz.
    apply in_map_iff in Hz as (b & <- & _). apply byte.unsigned_range.
Qed.

Lemma ParseProgramData_loop_acc (logs : list string) (acc : list (list byte)) :
  ParseProgramData_loop logs acc = acc ++ ParseProgramData_loop logs [].
Proof.
  revert acc. induction logs as [|log rest IH]; intros acc.
  - cbn. now rewrite app_nil_r.
  - cbn [ParseProgramData_loop].
    destruct (String.length log <? 14)%nat; [apply IH|].
    destruct (String.eqb _ _); [|apply IH].
    destruct (DecodeString _) as [data|]; [|apply IH].
    rewrite (IH (acc ++ [data])), (IH ([] ++ [data])), <- app_assoc. reflexivity.
Qed.

Lemma ParseProgramData_cons (log : string) (rest : list string) :
  ParseProgramData (log :: rest) = ParseProgramData [log] ++ ParseProgramData rest.
Proof.
  unfold ParseProgramData. cbn [ParseProgramData_loop].
  destruct (String.length log <? 14)%nat; [reflexivity|].
  destruct (String.eqb _ _); [|reflexivity].
  destruct (DecodeString _) as [data|]; [|reflexivity].
  rewrite ParseProgramData_loop_acc. reflexivity.
Qed.

Lemma ParseProgramData_one_length (log : string) :
  (length (ParseProgramData [log]) <= 1)%nat.
Proof.
  unfold ParseProgramData. cbn [ParseProgramData_loop].
  destruct (String.length log <? 14)%nat; [cbn; lia|].
  destruct (String.eqb _ _); [|cbn; lia].
  destruct (DecodeString _); cbn; lia.
Qed.

(** X1. A line made of "Program data:", any one byte, and the base64 text
    of a frame is read back as exactly that frame. *)
Theorem ParseProgramData_round_trip (c : ascii) (data : list byte) :
  ParseProgramData ["Program data:" +:+ String c (Base64.EncodeToString data)] = [data].
Proof.
  unfold ParseProgramData. cbn [ParseProgramData_loop].
  change (String.length ("Program data:" +:+ String c (Base64.EncodeToString data)) <? 14)%nat
    with false.
  change (substring 0 13 ("Program data:" +:+ String c (Base64.EncodeToString data)))
    with "Program data:".
  change (gostrings.drop 14 ("Program data:" +:+ String c (Base64.EncodeToString data)))
    with (Base64.EncodeToString data).
  rewrite DecodeString_EncodeToString. reflexivity.
Qed.

(** X2. The frames of a log are the frames of its lines, in line order: the
    function distributes over concatenation and a line gives at most
    one frame. A line shorter than 14 bytes gives none, so "Program data:"
    alone is skipped, while "Program data:" followed by one byte gives the
    empty frame. *)
Theorem ParseProgramData_line_by_line :
  (forall l1 l2 : list string,
      ParseProgramData (l1 ++ l2) = ParseProgramData l1 ++ ParseProgramData l2) /\
  (forall logs : list string, (length (ParseProgramData logs) <= length logs)%nat) /\
  (forall log : string,
      (String.length log < 14)%nat -> ParseProgramData [log] = []) /\
  (forall c : ascii, ParseProgramData ["Program data:" +:+ String c ""] = [[]]).
Proof.
  split; [|split; [|split]].
  - intros l1 l2. induction l1 as [|log l1 IH]; [reflexivity|].
    cbn [app]. rewrite ParseProgramData_cons, IH, (ParseProgramData_cons log l1).
    apply app_assoc.
  - intros logs. induction logs as [|log rest IH]; [cbn; lia|].
    rewrite ParseProgramData_cons, length_app. cbn [length].
    pose proof (ParseProgramData_one_length log). lia.
  - intros log H. unfold ParseProgramData. cbn [ParseProgramData_loop].
    apply Nat.ltb_lt in H. rewrite H. reflexivity.
  - intros c. reflexivity.
Qed.

Lemma ParseProgramData_line_by_line_witness :
  ParseProgramData ["Program data:"] = [].
Proof.
  apply (proj1 (proj2 (proj2 ParseProgramData_line_by_line))). cbn. lia.
Defined.

(** X3. [FilterByProgramID] is true exactly when the data has at least 32
    bytes and the first 32 are the program id. *)
Theorem FilterByProgramID_first_32_bytes (programID : PublicKey) (data : list byte) :
  FilterByProgramID programID data = true <->
  (32 <= length data)%nat /\ firstn 32 data = programID.
Proof.
  unfold FilterByProgramID, decodePublicKey, readN.
  destruct (Nat.ltb_spec (length data) 8) as [H8|H8].
  - split; [discriminate|]. intros [H _]. lia.
  - destruct (Nat.ltb_spec (length data) 32) as [H32|H32].
    + split; [discriminate|]. intros [H _]. lia.
    + rewrite bool_decide_eq_true. split; [intros H; split; [lia|exact H]|intros [_ H]; exact H].
Qed.

End ProgramDataLines.

Section DecoderBounds.
Import models decoder programdata decoded.

Variable rd : nat -> Dec (list byte).
Hypothesis rd_fills :
  forall (n : nat) (bs rest : list byte),
    length bs = n -> rd n (bs ++ rest) = inr (bs, rest).

Lemma take_chunk {A} (n : nat) (l : list A) :
  (n <= length l)%nat -> exists c r, l = c ++ r /\ length c = n.
Proof.
  intros H. exists (firstn n l), (skipn n l). split.
  - symmetry. apply firstn_skipn.
  - apply firstn_length_le. exact H.
Qed.

Lemma u64_of_bytes (bs : list byte) :
  length bs = 8%nat -> is_u64 (le_combine bs) /\ le_split 8 (le_combine bs) = bs.
Proof.
  intros H. split.
  - pose proof (le_combine_bound bs) as Hb. rewrite H in Hb. exact Hb.
  - apply split_le_combine'. exact H.
Qed.

Lemma i64_of_bytes (bs : list byte) :
  length bs = 8%nat ->
  is_i64 (to_int64 (le_combine bs)) /\ le_split 8 (to_int64 (le_combine bs)) = bs.
Proof.
  intros H. pose proof (le_combine_bound bs) as Hb. rewrite H in Hb.
  change (2 ^ (8 * Z.of_nat 8)) with (2 ^ 64) in Hb.
  split.
  - unfold is_i64, to_int64. destruct (Z.ltb_spec (le_combine bs) (2 ^ 63)); lia.
  - rewrite le_split_mod.
    replace (to_int64 (le_combine bs) mod 2 ^ (Z.of_nat 8 * 8))
      with (le_combine bs mod 2 ^ (Z.of_nat 8 * 8)).
    + rewrite <- le_split_mod. apply split_le_combine'. exact H.
    + change (2 ^ (Z.of_nat 8 * 8)) with (2 ^ 64).
      unfold to_int64. destruct (Z.ltb_spec (le_combine bs) (2 ^ 63)); [reflexivity|].
      replace (le_combine bs - 2 ^ 64) with (le_combine bs + (-1) * 2 ^ 64) by lia.
      rewrite Z.mod_add by lia. reflexivity.
Qed.

(** Cut the next [n] bytes off the payload. *)
Ltac chunk p n c r :=
  let H := fresh "Hcut" in
  let L := fresh "Hlen" in
  destruct (take_chunk n p ltac:(repeat rewrite length_app in *; lia)) as (c & r & H & L);
  subst p; try rewrite length_app in *.

Lemma decodes_to_intro (e : Event) (bytes rest : list byte) (k : nat) :
  wellFormed e -> encodePayload e = Some bytes -> length bytes = k ->
  decodes_to rd (struct_name e) k (bytes ++ rest) e.
Proof.
  intros Hwf Henc Hlen. split; [reflexivity|]. split; [exact Hwf|]. split.
  - rewrite (firstn_app_exact k bytes rest Hlen). exact Henc.
  - apply (decodeByType_encode rd); [assumption|assumption|intros _; exact rd_fills].
Qed.

Lemma fixed_TokensMinted (p : list byte) :
  (80 <= length p)%nat -> exists e, decodes_to rd EventTypeTokensMinted 80 p e.
Proof.
  intros H. chunk p 32%nat k1 p1. chunk p1 32%nat k2 p2.
  chunk p2 8%nat a p3. chunk p3 8%nat t p4.
  destruct (u64_of_bytes a ltac:(assumption)) as [Ha Ea].
  destruct (i64_of_bytes t ltac:(assumption)) as [Ht Et].
  exists (TokensMintedEvent zeroBaseEvent k1 k2 (le_combine a) (to_int64 (le_combine t))).
  replace (k1 ++ k2 ++ a ++ t ++ p4) with ((k1 ++ k2 ++ a ++ t) ++ p4)
    by (repeat rewrite <- app_assoc; reflexivity).
  apply (decodes_to_intro
           (TokensMintedEvent zeroBaseEvent k1 k2 (le_combine a) (to_int64 (le_combine t)))).
  - split; [reflexivity|]. unfold is_key. repeat (split; [assumption|]). assumption.
  - cbn [encodePayload]. rewrite Ea, Et. reflexivity.
  - repeat rewrite length_app. lia.
Qed.

Lemma fixed_TokensTransferred (p : list byte) :
  (112 <= length p)%nat -> exists e, decodes_to rd EventTypeTokensTransferred 112 p e.
Proof.
  intros H. chunk p 32%nat k1 p1. chunk p1 32%nat k2 p2. chunk p2 32%nat k3 p3.
  chunk p3 8%nat a p4. chunk p4 8%nat t p5.
  destruct (u64_of_bytes a ltac:(assumption)) as [Ha Ea].
  destruct (i64_of_bytes t ltac:(assumption)) as [Ht Et].
  exists (TokensTransferredEvent zeroBaseEvent k1 k2 k3 (le_combine a)
            (to_int64 (le_combine t))).
  replace (k1 ++ k2 ++ k3 ++ a ++ t ++ p5) with ((k1 ++ k2 ++ k3 ++ a ++ t) ++ p5)
    by (repeat rewrite <- app_assoc; reflexivity).
  apply (decodes_to_intro
           (TokensTransferredEvent zeroBaseEvent k1 k2 k3 (le_combine a)
              (to_int64 (le_combine t)))).
  - split; [reflexivity|]. unfold is_key. repeat (split; [assumption|]). assumption.
  - cbn [encodePayload]. rewrite Ea, Et. reflexivity.
  - repeat rewrite length_app. lia.
Qed.

Lemma fixed_TokensBurned (p : list byte) :
  (80 <= length p)%nat -> exists e, decodes_to rd EventTypeTokensBurned 80 p e.
Proof.
  intros H. chunk p 32%nat k1 p1. chunk p1 32%nat k2 p2.
  chunk p2 8%nat a p3. chunk p3 8%nat t p4.
  destruct (u64_of_bytes a ltac:(assumption)) as [Ha Ea].
  destruct (i64_of_bytes t ltac:(assumption)) as [Ht Et].
  exists (TokensBurnedEvent zeroBaseEvent k1 k2 (le_combine a) (to_int64 (le_combine t))).
  replace (k1 ++ k2 ++ a ++ t ++ p4) with ((k1 ++ k2 ++ a ++ t) ++ p4)
    by (repeat rewrite <- app_assoc; reflexivity).
  apply (decodes_to_intro
           (TokensBurnedEvent zeroBaseEvent k1 k2 (le_combine a) (to_int64 (le_combine t)))).
  - split; [reflexivity|]. unfold is_key. repeat (split; [assumption|]). assumption.
  - cbn [encodePayload]. rewrite Ea, Et. reflexivity.
  - repeat rewrite length_app. lia.
Qed.

Lemma fixed_UserAccountCreated (p : list byte) :
  (72 <= length p)%nat -> exists e, decodes_to rd EventTypeUserAccountCreated 72 p e.
Proof.
  intros H. chunk p 32%nat k1 p1. chunk p1 32%nat k2 p2. chunk p2 8%nat t p3.
  destruct (i64_of_bytes t ltac:(assumption)) as [Ht Et].
  exists (UserAccountCreatedEvent zeroBaseEvent k1 k2 (to_int64 (le_combine t))).
  replace (k1 ++ k2 ++ t ++ p3) with ((k1 ++ k2 ++ t) ++ p3)
    by (repeat rewrite <- app_assoc; reflexivity).
  apply (decodes_to_intro
           (UserAccountCreatedEvent zeroBaseEvent k1 k2 (to_int64 (le_combine t)))).
  - split; [reflexivity|]. unfold is_key. repeat (split; [assumption|]). assumption.
  - cbn [encodePayload]. rewrite Et. reflexivity.
  - repeat rewrite length_app. lia.
Qed.

Lemma fixed_UserAccountUpdated (p : list byte) :
  (56 <= length p)%nat -> exists e, decodes_to rd EventTypeUserAccountUpdated 56 p e.
Proof.
  intros H. chunk p 32%nat k1 p1. chunk p1 8%nat a p2.
  chunk p2 8%nat b p3. chunk p3 8%nat t p4.
  destruct (u64_of_bytes a ltac:(assumption)) as [Ha Ea].
  destruct (u64_of_bytes b ltac:(assumption)) as [Hb Eb].
  destruct (i64_of_bytes t ltac:(assumption)) as [Ht Et].
  exists (UserAccountUpdatedEvent zeroBaseEvent k1 (le_combine a) (le_combine b)
            (to_int64 (le_combine t))).
  replace (k1 ++ a ++ b ++ t ++ p4) with ((k1 ++ a ++ b ++ t) ++ p4)
    by (repeat rewrite <- app_assoc; reflexivity).
  apply (decodes_to_intro
           (UserAccountUpdatedEvent zeroBaseEvent k1 (le_combine a) (le_combine b)
              (to_int64 (le_combine t)))).
  - split; [reflexivity|]. unfold is_key. repeat (split; [assumption|]). assumption.
  - cbn [encodePayload]. rewrite Ea, Eb, Et. reflexivity.
  - repeat rewrite length_app. lia.
Qed.

Lemma fixed_ConfigUpdated (p : list byte) :
  (56 <= length p)%nat -> exists e, decodes_to rd EventTypeConfigUpdated 56 p e.
Proof.
  intros H. chunk p 32%nat k1 p1. chunk p1 8%nat a p2.
  chunk p2 8%nat b p3. chunk p3 8%nat t p4.
  destruct (u64_of_bytes a ltac:(assumption)) as [Ha Ea].
  destruct (u64_of_bytes b ltac:(assumption)) as [Hb Eb].
  destruct (i64_of_bytes t ltac:(assumption)) as [Ht Et].
  exists (ConfigUpdatedEvent zeroBaseEvent k1 (le_combine a) (le_combine b)
            (to_int64 (le_combine t))).
  replace (k1 ++ a ++ b ++ t ++ p4) with ((k1 ++ a ++ b ++ t) ++ p4)
    by (repeat rewrite <- app_assoc; reflexivity).
  apply (decodes_to_intro
           (ConfigUpdatedEvent zeroBaseEvent k1 (le_combine a) (le_combine b)
              (to_int64 (le_combine t)))).
  - split; [reflexivity|]. unfold is_key. repeat (split; [assumption|]). assumption.
  - cbn [encodePayload]. rewrite Ea, Eb, Et. reflexivity.
  - repeat rewrite length_app. lia.
Qed.

(** A payload that ends before the last field: the read that runs out of
    bytes fails, and the result is the nil pointer with the error. *)
Ltac short_reads :=
  unfold bind, decodePublicKey, decodeUint64, decodeInt64, bind, readN, ret;
  repeat match goal with
         | |- context [(length ?l <? ?n)%nat] =>
             let Hs := fresh "Hs" in
             destruct (Nat.ltb_spec (length l) n) as [Hs|Hs];
             [reflexivity|]; cbv beta iota; repeat rewrite length_skipn in Hs
         end;
  exfalso; lia.

Lemma short_payload (t : EventType) (k : nat) (p : list byte) :
  fixedSize t = Some k -> (length p < k)%nat ->
  decodeByType rd t p = (t, AnyNilPtr t, Some ErrShortBuffer).
Proof.
  unfold fixedSize. intros Hk Hp.
  destruct (String.eqb_spec t EventTypeTokensMinted) as [->|_].
  { injection Hk as <-.
    change (decodeByType rd EventTypeTokensMinted p)
      with (typed_result EventTypeTokensMinted "TokensMintedEvent" (decodeTokensMinted p)).
    unfold decodeTokensMinted. short_reads. }
  destruct (String.eqb_spec t EventTypeTokensTransferred) as [->|_].
  { injection Hk as <-.
    change (decodeByType rd EventTypeTokensTransferred p)
      with (typed_result EventTypeTokensTransferred "TokensTransferredEvent"
              (decodeTokensTransferred p)).
    unfold decodeTokensTransferred. short_reads. }
  destruct (String.eqb_spec t EventTypeTokensBurned) as [->|_].
  { injection Hk as <-.
    change (decodeByType rd EventTypeTokensBurned p)
      with (typed_result EventTypeTokensBurned "TokensBurnedEvent" (decodeTokensBurned p)).
    unfold decodeTokensBurned. short_reads. }
  destruct (String.eqb_spec t EventTypeUserAccountCreated) as [->|_].
  { injection Hk as <-.
    change (decodeByType rd EventTypeUserAccountCreated p)
      with (typed_result EventTypeUserAccountCreated "UserAccountCreatedEvent"
              (decodeUserAccountCreated p)).
    unfold decodeUserAccountCreated. short_reads. }
  destruct (String.eqb_spec t EventTypeUserAccountUpdated) as [->|_].
  { injection Hk as <-.
    change (decodeByType rd EventTypeUserAccountUpdated p)
      with (typed_result EventTypeUserAccountUpdated "UserAccountUpdatedEvent"
              (decodeUserAccountUpdated p)).
    unfold decodeUserAccountUpdated. short_reads. }
  destruct (String.eqb_spec t EventTypeConfigUpdated) as [->|_]; [|discriminate Hk].
  injection Hk as <-.
  change (decodeByType rd EventTypeConfigUpdated p)
    with (typed_result EventTypeConfigUpdated "ConfigUpdatedEvent" (decodeConfigUpdated p)).
  unfold decodeConfigUpdated. short_reads.
Qed.

Lemma long_payload (t : EventType) (k : nat) (p : list byte) :
  fixedSize t = Some k -> (k <= length p)%nat -> exists e, decodes_to rd t k p e.
Proof.
  unfold fixedSize. intros Hk Hp.
  destruct (String.eqb_spec t EventTypeTokensMinted) as [->|_];
    [injection Hk as <-; apply fixed_TokensMinted; exact Hp|].
  destruct (String.eqb_spec t EventTypeTokensTransferred) as [->|_];
    [injection Hk as <-; apply fixed_TokensTransferred; exact Hp|].
  destruct (String.eqb_spec t EventTypeTokensBurned) as [->|_];
    [injection Hk as <-; apply fixed_TokensBurned; exact Hp|].
  destruct (String.eqb_spec t EventTypeUserAccountCreated) as [->|_];
    [injection Hk as <-; apply fixed_UserAccountCreated; exact Hp|].
  destruct (String.eqb_spec t EventTypeUserAccountUpdated) as [->|_];
    [injection Hk as <-; apply fixed_UserAccountUpdated; exact Hp|].
  destruct (String.eqb_spec t EventTypeConfigUpdated) as [->|_]; [|discriminate Hk].
  injection Hk as <-. apply fixed_ConfigUpdated. exact Hp.
Qed.

Lemma fixedSize_known (t : EventType) (k : nat) :
  fixedSize t = Some k -> In t knownTypes.
Proof.
  unfold fixedSize. intros Hk.
  repeat match type of Hk with
         | context [String.eqb t ?c] =>
             destruct (String.eqb_spec t c) as [->|_]; [apply In_known; reflexivity|]
         end.
  discriminate Hk.
Qed.

End DecoderBounds.

Section DecoderResults.
Import models decoder programdata decoded processor.

Lemma decodeByType_fixed_any_reader (rd : nat -> Dec (list byte))
    (t : EventType) (k : nat) (p : list byte) :
  fixedSize t = Some k -> decodeByType rd t p = decodeByType readExactly t p.
Proof.
  unfold fixedSize. intros Hk.
  repeat match type of Hk with
         | context [String.eqb t ?c] =>
             destruct (String.eqb_spec t c) as [->|_]; [reflexivity|]
         end.
  discriminate Hk.
Qed.

(** X4. For the six event types without strings the decoder looks at the
    length of the payload only: with at least the bytes of the layout (80,
    112, 80, 72, 56, 56) it returns a well-formed event that encodes back to
    exactly the bytes it read, and with fewer it returns a nil pointer of the
    struct type and the short-buffer error. *)
Theorem DecodeEvent_fixed_width
    (rd : nat -> Dec (list byte)) (t : EventType) (k : nat) (payload : list byte) :
  fixedSize t = Some k ->
  if (k <=? length payload)%nat then
    exists e : Event,
      struct_name e = t /\ wellFormed e /\
      encodePayload e = Some (firstn k payload) /\
      DecodeEvent rd NewEventDecoder (discriminatorBytes t ++ payload)
      = (t, AnyPtr e, None)
  else
    DecodeEvent rd NewEventDecoder (discriminatorBytes t ++ payload)
    = (t, AnyNilPtr t, Some ErrShortBuffer).
Proof.
  intros Hk.
  rewrite (DecodeEvent_type rd t payload (fixedSize_known t k Hk)).
  rewrite (decodeByType_fixed_any_reader rd t k payload Hk).
  destruct (Nat.leb_spec k (length payload)) as [Hl|Hs].
  - destruct (long_payload readExactly readN_app t k payload Hk Hl)
      as (e & H1 & H2 & H3 & H4).
    exists e. auto.
  - apply (short_payload readExactly t k payload Hk Hs).
Qed.

(** The witness: 80 zero bytes after the discriminator of a token burn. *)
Lemma DecodeEvent_fixed_width_witness :
  exists e : Event,
    struct_name e = EventTypeTokensBurned /\ wellFormed e /\
    encodePayload e = Some (firstn 80 (repeat x00 80)) /\
    DecodeEvent readExactly NewEventDecoder
      (discriminatorBytes EventTypeTokensBurned ++ repeat x00 80)
    = (EventTypeTokensBurned, AnyPtr e, None).
Proof.
  exact (DecodeEvent_fixed_width readExactly EventTypeTokensBurned 80 (repeat x00 80)
           eq_refl).
Defined.

Lemma fold_insert_lookup {V} (l : list (string * V)) (m : gmap string V)
    (k : string) (v : V) :
  fold_left (fun m kv => <[fst kv := snd kv]> m) l m !! k = Some v ->
  In (k, v) l \/ m !! k = Some v.
Proof.
  revert m. induction l as [|[k' v'] l IH]; intros m H; [right; exact H|].
  cbn [fold_left fst snd] in H. destruct (IH _ H) as [Hin|Hm].
  - left. right. exact Hin.
  - destruct (decide (k' = k)) as [->|Hne].
    + rewrite lookup_insert_eq in Hm. injection Hm as ->. left. left. reflexivity.
    + rewrite lookup_insert_ne in Hm by exact Hne. right. exact Hm.
Qed.

Lemma lookup_known (k : string) (t : EventType) :
  makeDiscriminatorMap !! k = Some t -> In t knownTypes.
Proof.
  intros H. apply fold_insert_lookup in H as [Hin|He].
  - change knownTypes with (map snd discriminatorEntries).
    apply (in_map snd) in Hin. exact Hin.
  - rewrite lookup_empty in He. discriminate He.
Qed.

Lemma In_eqb (l : list string) (t : string) :
  existsb (String.eqb t) l = true -> In t l.
Proof.
  intros H. apply existsb_exists in H as (x & Hx & Heq).
  apply String.eqb_eq in Heq. subst x. exact Hx.
Qed.

Ltac decoder_shape :=
  unfold bind, ret;
  repeat match goal with
         | |- context [match ?x with inl _ => _ | inr _ => _ end] =>
             destruct x as [?|[? ?]]; [discriminate|]
         end;
  let H := fresh in intros H; injection H as <- _; reflexivity.

Lemma decodeTokensMinted_shape (bs : list byte) (e : Event) (r : list byte) :
  decodeTokensMinted bs = inr (e, r) -> struct_name e = EventTypeTokensMinted.
Proof. unfold decodeTokensMinted. decoder_shape. Qed.

Lemma decodeTokensTransferred_shape (bs : list byte) (e : Event) (r : list byte) :
  decodeTokensTransferred bs = inr (e, r) -> struct_name e = EventTypeTokensTransferred.
Proof. unfold decodeTokensTransferred. decoder_shape. Qed.

Lemma decodeTokensBurned_shape (bs : list byte) (e : Event) (r : list byte) :
  decodeTokensBurned bs = inr (e, r) -> struct_name e = EventTypeTokensBurned.
Proof. unfold decodeTokensBurned. decoder_shape. Qed.

Lemma decodeUserAccountCreated_shape (bs : list byte) (e : Event) (r : list byte) :
  decodeUserAccountCreated bs = inr (e, r) -> struct_name e = EventTypeUserAccountCreated.
Proof. unfold decodeUserAccountCreated. decoder_shape. Qed.

Lemma decodeUserAccountUpdated_shape (bs : list byte) (e : Event) (r : list byte) :
  decodeUserAccountUpdated bs = inr (e, r) -> struct_name e = EventTypeUserAccountUpdated.
Proof. unfold decodeUserAccountUpdated. decoder_shape. Qed.

Lemma decodeConfigUpdated_shape (bs : list byte) (e : Event) (r : list byte) :
  decodeConfigUpdated bs = inr (e, r) -> struct_name e = EventTypeConfigUpdated.
Proof. unfold decodeConfigUpdated. decoder_shape. Qed.

Lemma decodeNftMinted_shape (rd : nat -> Dec (list byte))
    (bs : list byte) (e : Event) (r : list byte) :
  decodeNftMinted rd bs = inr (e, r) -> struct_name e = EventTypeNftMinted.
Proof. unfold decodeNftMinted. decoder_shape. Qed.

(** One case of the switch: what it returns, with or without error. *)
Lemma typed_result_shape (t0 t ty : string) (r : error + Event * list byte)
    (v : Any) (err : option error) :
  typed_result t0 ty r = (t, v, err) ->
  (forall e rest, r = inr (e, rest) -> struct_name e = t0) ->
  t = t0 /\
  match err with
  | None => exists e, v = AnyPtr e /\ struct_name e = t0
  | Some _ => v = AnyNilPtr ty
  end.
Proof.
  unfold typed_result. destruct r as [e0|[e rest]]; intros [= <- <- <-] Hs.
  - split; reflexivity.
  - split; [reflexivity|]. exists e. split; [reflexivity|]. exact (Hs e rest eq_refl).
Qed.

(** What [DecodeEvent] can return: the type name is empty or one of the
    twenty; without error it is one of the seven with a decoder and the
    value is a pointer to the struct of that type; with an error the value
    is nil, untyped or a nil pointer of the struct type. *)
Lemma DecodeEvent_shape (rd : nat -> Dec (list byte))
    (data : list byte) (t : EventType) (v : Any) (err : option error) :
  DecodeEvent rd NewEventDecoder data = (t, v, err) ->
  (t = "" \/ In t knownTypes) /\
  match err with
  | None => In t decodedTypes /\ exists e, v = AnyPtr e /\ struct_name e = t
  | Some _ => v = AnyNil \/ v = AnyNilPtr t
  end.
Proof.
  unfold DecodeEvent.
  destruct (length data <? 8)%nat; [intros [= <- <- <-]; split; [left|left]; reflexivity|].
  destruct (discriminators NewEventDecoder !! _) as [t0|] eqn:Hl;
    [|intros [= <- <- <-]; split; [left|left]; reflexivity].
  apply lookup_known in Hl. unfold decodeByType.
  destruct (String.eqb_spec t0 EventTypeTokensMinted) as [->|_].
  { intros H. apply typed_result_shape in H as [-> H];
      [|apply decodeTokensMinted_shape].
    split; [right; exact Hl|]. destruct err; [right; exact H|].
    split; [apply In_eqb; reflexivity|exact H]. }
  destruct (String.eqb_spec t0 EventTypeTokensTransferred) as [->|_].
  { intros H. apply typed_result_shape in H as [-> H];
      [|apply decodeTokensTransferred_shape].
    split; [right; exact Hl|]. destruct err; [right; exact H|].
    split; [apply In_eqb; reflexivity|exact H]. }
  destruct (String.eqb_spec t0 EventTypeTokensBurned) as [->|_].
  { intros H. apply typed_result_shape in H as [-> H];
      [|apply decodeTokensBurned_shape].
    split; [right; exact Hl|]. destruct err; [right; exact H|].
    split; [apply In_eqb; reflexivity|exact H]. }
  destruct (String.eqb_spec t0 EventTypeUserAccountCreated) as [->|_].
  { intros H. apply typed_result_shape in H as [-> H];
      [|apply decodeUserAccountCreated_shape].
    split; [right; exact Hl|]. destruct err; [right; exact H|].
    split; [apply In_eqb; reflexivity|exact H]. }
  destruct (String.eqb_spec t0 EventTypeUserAccountUpdated) as [->|_].
  { intros H. apply typed_result_shape in H as [-> H];
      [|apply decodeUserAccountUpdated_shape].
    split; [right; exact Hl|]. destruct err; [right; exact H|].
    split; [apply In_eqb; reflexivity|exact H]. }
  destruct (String.eqb_spec t0 EventTypeConfigUpdated) as [->|_].
  { intros H. apply typed_result_shape in H as [-> H];
      [|apply decodeConfigUpdated_shape].
    split; [right; exact Hl|]. destruct err; [right; exact H|].
    split; [apply In_eqb; reflexivity|exact H]. }
  destruct (String.eqb_spec t0 EventTypeNftMinted) as [->|_].
  { intros H. apply typed_result_shape in H as [-> H];
      [|apply decodeNftMinted_shape].
    split; [right; exact Hl|]. destruct err; [right; exact H|].
    split; [apply In_eqb; reflexivity|exact H]. }
  intros [= <- <- <-]. split; [right; exact Hl|left; reflexivity].
Qed.

(** X5. Whatever the bytes, [DecodeEvent] returns the empty type name or
    one of the twenty of the map; when it returns no error the type is one
    of the seven with a decoder and the value is a pointer to the struct of
    that type; when it returns an error the value is nil, untyped or a nil
    pointer of the struct type, never an event. *)
Theorem DecodeEvent_result_shape (rd : nat -> Dec (list byte)) (data : list byte) :
  let '(t, v, err) := DecodeEvent rd NewEventDecoder data in
  (t = "" \/ In t knownTypes) /\
  match err with
  | None => In t decodedTypes /\ exists e, v = AnyPtr e /\ struct_name e = t
  | Some _ => v = AnyNil \/ v = AnyNilPtr t
  end.
Proof.
  destruct (DecodeEvent rd NewEventDecoder data) as [[t v] err] eqn:H.
  exact (DecodeEvent_shape rd data t v err H).
Qed.

Section OverRepository.

Variable Repo : Type.
Variable SaveEvent : Repo -> Any -> Repo * option error.

Lemma ProcessEvent_pointer_panics
    (p : EventProcessor) (now : Z) (w : World Repo)
    (signature : string) (slot blockTime : Z) (t : EventType) (e : Event) :
  In t handledTypes ->
  ProcessEvent Repo SaveEvent p now w signature slot blockTime t (AnyPtr e)
  = (w, Panicked "interface conversion").
Proof.
  unfold handledTypes. cbn [In]. intros H.
  repeat (destruct H as [<-|H]; [reflexivity|]). destruct H.
Qed.

(** X6. The binary decoder and the processor do not fit together: whenever
    [DecodeEvent] returns an event without error, it is a pointer to the
    struct, the processor asserts the struct itself, and [ProcessEvent]
    called with the decoded type and value panics and leaves the store
    untouched. *)
Theorem ProcessEvent_panics_on_decoded_event
    (rd : nat -> Dec (list byte)) (data : list byte) (t : EventType) (v : Any)
    (p : EventProcessor) (now : Z) (w : World Repo)
    (signature : string) (slot blockTime : Z) :
  DecodeEvent rd NewEventDecoder data = (t, v, None) ->
  ProcessEvent Repo SaveEvent p now w signature slot blockTime t v
  = (w, Panicked "interface conversion").
Proof.
  intros H. apply DecodeEvent_shape in H as (_ & Hin & e & -> & _).
  apply ProcessEvent_pointer_panics.
  unfold decodedTypes in Hin. cbn [In] in Hin.
  repeat (destruct Hin as [<-|Hin]; [apply In_eqb; reflexivity|]). destruct Hin.
Qed.

End OverRepository.

(** The witness: the token mint of the first scenario, decoded and handed to
    a processor over the document store. *)
Lemma ProcessEvent_panics_on_decoded_event_witness :
  ProcessEvent repository.MongoRepository (repository.SaveEvent None)
    (mkEventProcessor zeroPublicKey) 1700000001
    (mkWorld _ repository.indexedStore []) "sig1" 7 1700000000
    "TokensMintedEvent" (AnyPtr scenarioMint)
  = (mkWorld _ repository.indexedStore [], Panicked "interface conversion").
Proof.
  exact (ProcessEvent_panics_on_decoded_event repository.MongoRepository
           (repository.SaveEvent None) readExactly _ _ _
           (mkEventProcessor zeroPublicKey) 1700000001
           (mkWorld _ repository.indexedStore []) "sig1" 7 1700000000
           scenario_token_mint).
Defined.

End DecoderResults.

Section CounterPath.
Import models gostrings logparser processor indexer.

Lemma parseMessage_type (msg : string) (accounts : list PublicKey)
    (counter : PublicKey) (a : CounterAction) :
  parseMessage msg accounts counter = Some a -> In (Type_ a) counterTypes.
Proof.
  unfold parseMessage, parseIncremented, parseDecremented, parseAdded,
    parseReset, parsePayment, counterTypes.
  destruct (String.eqb msg "Counter initialized");
    [intros [= <-]; cbn; tauto|].
  destruct (HasPrefix msg "Counter incremented to: ");
    [destruct (extractNumber msg "Counter incremented to: ");
       [intros [= <-]; cbn; tauto|]|];
  (destruct (HasPrefix msg "Counter decremented to: ");
    [destruct (extractNumber msg "Counter decremented to: ");
       [intros [= <-]; cbn; tauto|]|]);
  (destruct (HasPrefix msg "Added " && Contains msg "to counter");
    [destruct (FindStringSubmatch "Added " _ msg) as [[m1 m2]|];
       [intros [= <-]; cbn; tauto|]|]);
  (destruct (String.eqb msg "Counter reset");
    [intros [= <-]; cbn; tauto|]);
  (destruct (HasPrefix msg "Payment of " && Contains msg "lamports received");
    [destruct (FindStringSubmatch "Payment of " _ msg) as [[m1 m2]|];
       [intros [= <-]; cbn; tauto|]|]);
  intros [=].
Qed.

Lemma parseLogMessage_type (log : string) (accounts : list PublicKey) (a : CounterAction) :
  parseLogMessage log accounts = Some a -> In (Type_ a) counterTypes.
Proof.
  unfold parseLogMessage.
  destruct (negb (Contains log msgPrefix)); [intros [=]|].
  destruct (Split log msgPrefix !! 1%nat) as [part|]; [|intros [=]].
  apply parseMessage_type.
Qed.

Lemma convert_typed (a : CounterAction) :
  In (Type_ a) counterTypes ->
  exists e, convertCounterActionToEvent a = AnyVal e /\ struct_name e = Type_ a /\
            base_of e = zeroBaseEvent.
Proof.
  unfold counterTypes. cbn [In]. unfold convertCounterActionToEvent. intros H.
  repeat (destruct H as [H|H];
          [rewrite <- H; cbn [String.eqb]; eexists; split; [reflexivity|];
           split; reflexivity|]).
  destruct H.
Qed.

Section OverRepository.

Variable Repo : Type.
Variable SaveEvent : Repo -> Any -> Repo * option error.

Lemma ProcessEvent_value (p : EventProcessor) (now : Z) (w : World Repo)
    (signature : string) (slot blockTime : Z) (e : Event) :
  ProcessEvent Repo SaveEvent p now w signature slot blockTime (struct_name e) (AnyVal e)
  = (let '(r, err) :=
       SaveEvent (repo Repo w)
         (AnyPtr (set_base
                    (envelope (programID p) now signature slot blockTime (struct_name e))
                    e)) in
     (mkWorld Repo r (logged Repo w), Returned err)).
Proof. destruct e; reflexivity. Qed.

(** X7. The counter path fits together: for every action the log parser
    returns for a line, the conversion gives the struct of the action's type
    by value, and [ProcessEvent] called with that type and value does not
    panic: it calls [SaveEvent] once, with a pointer to the struct under the
    envelope of the call, and returns what [SaveEvent] returns. *)
Theorem counter_action_reaches_store
    (log : string) (accounts : list PublicKey) (a : CounterAction)
    (p : EventProcessor) (now : Z) (w : World Repo)
    (signature : string) (slot blockTime : Z) :
  parseLogMessage log accounts = Some a ->
  exists e : Event,
    convertCounterActionToEvent a = AnyVal e /\
    struct_name e = Type_ a /\
    ProcessEvent Repo SaveEvent p now w signature slot blockTime (Type_ a)
      (convertCounterActionToEvent a)
    = (let '(r, err) :=
         SaveEvent (repo Repo w)
           (AnyPtr (set_base
                      (envelope (programID p) now signature slot blockTime (Type_ a)) e)) in
       (mkWorld Repo r (logged Repo w), Returned err)).
Proof.
  intros H. apply parseLogMessage_type in H.
  destruct (convert_typed a H) as (e & Hc & Hn & _).
  exists e. split; [exact Hc|]. split; [exact Hn|].
  rewrite Hc, <- Hn. apply ProcessEvent_value.
Qed.

End OverRepository.

(** The witness: the reset line over the document store. *)
Lemma counter_action_reaches_store_witness :
  exists e : Event,
    convertCounterActionToEvent
      (mkCounterAction EventTypeCounterReset zeroPublicKey None None (Some 0)
         None None None None) = AnyVal e /\
    struct_name e = EventTypeCounterReset /\
    ProcessEvent repository.MongoRepository (repository.SaveEvent None)
      (mkEventProcessor zeroPublicKey) 1700000001
      (mkWorld _ repository.indexedStore []) "sig1" 7 1700000000
      EventTypeCounterReset
      (convertCounterActionToEvent
         (mkCounterAction EventTypeCounterReset zeroPublicKey None None (Some 0)
            None None None None))
    = (let '(r, err) :=
         repository.SaveEvent None repository.indexedStore
           (AnyPtr (set_base
                      (envelope zeroPublicKey 1700000001 "sig1" 7 1700000000
                         EventTypeCounterReset) e)) in
       (mkWorld _ r [], Returned err)).
Proof.
  exact (counter_action_reaches_store repository.MongoRepository
           (repository.SaveEvent None) "Program log: Counter reset" [] _
           (mkEventProcessor zeroPublicKey) 1700000001
           (mkWorld _ repository.indexedStore []) "sig1" 7 1700000000 eq_refl).
Defined.

(** X8. From a log line to the event struct: an increment line gives
    (counter, N - 1 wrapped, N); an add line gives (counter, V - A wrapped,
    A, V); a payment line gives (counter, payer, fee collector, P, N) where
    a missing payer or fee collector is the all-zero key. The counter is
    the first account, or the all-zero key when there is none. *)
Theorem counter_lines_to_events
    (x y : string) (X Y : Z) (accounts : list PublicKey) :
  ParseUint x = (X, None) -> ParseUint y = (Y, None) ->
  let counter := default zeroPublicKey (accounts !! 0%nat) in
  map convertCounterActionToEvent
    (fst (ParseLogs ["Program log: Counter incremented to: " +:+ x] accounts))
  = [AnyVal (CounterIncrementedEvent zeroBaseEvent counter (wrap64 (X - 1)) X)] /\
  map convertCounterActionToEvent
    (fst (ParseLogs ["Program log: Added " +:+ x +:+ " to counter. New value: " +:+ y]
            accounts))
  = [AnyVal (CounterAddedEvent zeroBaseEvent counter (wrap64 (Y - X)) X Y)] /\
  map convertCounterActionToEvent
    (fst (ParseLogs ["Program log: Payment of " +:+ x +:+
                     " lamports received. Counter incremented to: " +:+ y] accounts))
  = [AnyVal (CounterPaymentReceivedEvent zeroBaseEvent counter
               (default zeroPublicKey (accounts !! 1%nat))
               (default zeroPublicKey (accounts !! 2%nat)) X Y)].
Proof.
  intros HX HY. cbv zeta. split; [|split].
  - rewrite (ParseLogs_incremented_line x X accounts HX). reflexivity.
  - rewrite (ParseLogs_added_line x y X Y accounts HX HY). reflexivity.
  - rewrite (ParseLogs_payment_line x y X Y accounts HX HY). cbn [fst map].
    unfold convertCounterActionToEvent.
    cbn [Type_ Counter Payer FeeCollector Payment NewValue].
    destruct (accounts !! 1%nat), (accounts !! 2%nat); reflexivity.
Qed.

Lemma counter_lines_to_events_witness :
  let counter := default zeroPublicKey ([repeat x07 32] !! 0%nat) in
  map convertCounterActionToEvent
    (fst (ParseLogs ["Program log: Counter incremented to: " +:+ "5"] [repeat x07 32]))
  = [AnyVal (CounterIncrementedEvent zeroBaseEvent counter (wrap64 (5 - 1)) 5)] /\
  map convertCounterActionToEvent
    (fst (ParseLogs ["Program log: Added " +:+ "5" +:+ " to counter. New value: " +:+ "9"]
            [repeat x07 32]))
  = [AnyVal (CounterAddedEvent zeroBaseEvent counter (wrap64 (9 - 5)) 5 9)] /\
  map convertCounterActionToEvent
    (fst (ParseLogs ["Program log: Payment of " +:+ "5" +:+
                     " lamports received. Counter incremented to: " +:+ "9"]
            [repeat x07 32]))
  = [AnyVal (CounterPaymentReceivedEvent zeroBaseEvent counter
               (default zeroPublicKey ([repeat x07 32] !! 1%nat))
               (default zeroPublicKey ([repeat x07 32] !! 2%nat)) 5 9)].
Proof.
  exact (counter_lines_to_events "5" "9" 5 9 [repeat x07 32] eq_refl eq_refl).
Defined.

End CounterPath.

Section ProcessorOverStore.
Import models repository processor indexer stored.

Lemma base_of_set_base (b : BaseEvent) (e : Event) : base_of (set_base b e) = b.
Proof. destruct e; reflexivity. Qed.

Lemma payload_fields_set_base (b : BaseEvent) (e : Event) :
  payload_fields (set_base b e) = payload_fields e.
Proof. destruct e; reflexivity. Qed.

Lemma document_of_envelope (programID : PublicKey) (now : Z) (signature : string)
    (slot blockTime : Z) (ty : EventType) (e : Event) :
  document_of (set_base (envelope programID now signature slot blockTime ty) e)
  = [ ("event_type", VString ty); ("signature", VString signature);
      ("slot", VInt slot); ("block_time", VTime blockTime);
      ("program_id", VBinary programID); ("created_at", VTime now) ]
    ++ payload_fields e.
Proof.
  unfold document_of. rewrite base_of_set_base, payload_fields_set_base. reflexivity.
Qed.

Lemma repository_eta (r : MongoRepository) : mkMongoRepository (collection r) = r.
Proof. destruct r; reflexivity. Qed.

Lemma ProcessEvent_over_store (fault : option error) (p : EventProcessor) (now : Z)
    (r : MongoRepository) (lg : list string)
    (signature : string) (slot blockTime : Z) (e : Event) :
  ProcessEvent MongoRepository (SaveEvent fault) p now (mkWorld _ r lg)
    signature slot blockTime (struct_name e) (AnyVal e)
  = match fault with
    | Some err => (mkWorld _ r lg, Returned (Some (Wrapf "insert event" err)))
    | None =>
        let doc := stored_document (next_id (collection r)) (programID p) now
                     signature slot blockTime e in
        match violated (indexes (collection r)) (docs (collection r)) doc with
        | Some idx =>
            (mkWorld _ r lg,
             Returned (Some (Wrapf "insert event"
                               (WriteException DuplicateKeyCode (index_name idx)))))
        | None =>
            (mkWorld _ (mkMongoRepository
                          (mkCollection (docs (collection r) ++ [doc])
                             (indexes (collection r)) (S (next_id (collection r)))))
               lg,
             Returned None)
        end
    end.
Proof.
  rewrite ProcessEvent_value. cbn [repo logged].
  unfold SaveEvent, InsertOne. destruct fault as [err|].
  { rewrite repository_eta. reflexivity. }
  cbn [marshal]. rewrite document_of_envelope.
  cbn [field app String.eqb Ascii.eqb Bool.eqb]. cbv zeta.
  change (("_id", VObjectID (next_id (collection r)))
          :: [("event_type", VString (struct_name e)); ("signature", VString signature);
              ("slot", VInt slot); ("block_time", VTime blockTime);
              ("program_id", VBinary (programID p)); ("created_at", VTime now)]
             ++ payload_fields e)
    with (stored_document (next_id (collection r)) (programID p) now
            signature slot blockTime e).
  replace (field "_id" (payload_fields e)) with (@None Value)
    by (destruct e; reflexivity).
  destruct (violated _ _ _) as [idx|]; [rewrite repository_eta|]; reflexivity.
Qed.

(** X9. What [ProcessEvent] leaves in the document store for a struct of
    a handled type held by value. It never panics and logs nothing. If it
    returns nil, the collection has grown by exactly one document, placed
    last: a fresh object id, then the event type, signature, slot, block
    time and program id of the call and the clock reading, then the fields
    of the struct; whatever envelope the struct carried is overwritten. If
    it returns an error, this is the driver's error wrapped as "insert
    event" and the store is as before. *)
Theorem ProcessEvent_stores_envelope (fault : option error) (p : EventProcessor)
    (now : Z) (r : MongoRepository) (lg : list string)
    (signature : string) (slot blockTime : Z) (e : Event) :
  let '(w', out) :=
    ProcessEvent MongoRepository (SaveEvent fault) p now (mkWorld _ r lg)
      signature slot blockTime (struct_name e) (AnyVal e) in
  logged _ w' = lg /\
  match out with
  | Returned None =>
      fault = None /\
      docs (collection (repo _ w'))
      = docs (collection r)
        ++ [stored_document (next_id (collection r)) (programID p) now
              signature slot blockTime e] /\
      indexes (collection (repo _ w')) = indexes (collection r)
  | Returned (Some err) =>
      repo _ w' = r /\ exists cause, err = Wrapf "insert event" cause
  | Panicked _ => False
  end.
Proof.
  rewrite ProcessEvent_over_store. destruct fault as [err|].
  { split; [reflexivity|]. split; [reflexivity|]. eauto. }
  cbv zeta. destruct (violated _ _ _) as [idx|].
  - split; [reflexivity|]. split; [reflexivity|]. eauto.
  - split; [reflexivity|]. cbn [repo collection docs indexes]. auto.
Qed.

Lemma signature_of_stored (id : nat) (programID : PublicKey) (now : Z)
    (signature : string) (slot blockTime : Z) (e : Event) :
  signature_of (stored_document id programID now signature slot blockTime e)
  = Some (VString signature).
Proof. reflexivity. Qed.

Lemma violated_signature (idxs : list IndexModel) (ds : list Document)
    (d doc : Document) (s : string) :
  In signatureIndex idxs -> In d ds ->
  signature_of d = Some (VString s) -> signature_of doc = Some (VString s) ->
  exists idx, violated idxs ds doc = Some idx.
Proof.
  intros Hidx Hd Hs Hs'.
  destruct (find_exists (fun idx => Unique idx && key_taken idx ds doc)
              idxs signatureIndex Hidx) as [idx Hfind].
  { cbn [Unique signatureIndex andb]. apply existsb_exists. exists d.
    split; [exact Hd|]. apply bool_decide_eq_true.
    unfold index_key. cbn [Keys signatureIndex map fst].
    fold (signature_of d). fold (signature_of doc). congruence. }
  exists idx. exact Hfind.
Qed.

Lemma InsertOne_keeps (fault : option error) (c : Collection) (event : Any) :
  indexes (fst (InsertOne fault c event)) = indexes c /\
  forall d, In d (docs c) -> In d (docs (fst (InsertOne fault c event))).
Proof.
  unfold InsertOne. destruct fault; [auto|].
  destruct (marshal event) as [e0|doc]; [auto|].
  destruct (field "_id" doc); destruct (violated _ _ _); cbn [fst docs indexes];
    auto using in_or_app.
Qed.

Lemma save_all_keeps (calls : list (option error * Any)) (r : MongoRepository) :
  indexes (collection (save_all r calls)) = indexes (collection r) /\
  forall d, In d (docs (collection r)) -> In d (docs (collection (save_all r calls))).
Proof.
  revert r. induction calls as [|[fault event] rest IH]; intros r; cbn [save_all];
    [auto|].
  destruct (IH (fst (SaveEvent fault r event))) as [Hi Hd].
  rewrite SaveEvent_collection in Hi, Hd.
  destruct (InsertOne_keeps fault (collection r) event) as [Hi' Hd'].
  split; [congruence|auto].
Qed.

(** A store that holds the signature under the unique index refuses it. *)
Lemma ProcessEvent_signature_taken (fault : option error) (p : EventProcessor)
    (now : Z) (r : MongoRepository) (lg : list string)
    (signature : string) (slot blockTime : Z) (e : Event) (d : Document) :
  In signatureIndex (indexes (collection r)) ->
  In d (docs (collection r)) -> signature_of d = Some (VString signature) ->
  exists cause,
    ProcessEvent MongoRepository (SaveEvent fault) p now (mkWorld _ r lg)
      signature slot blockTime (struct_name e) (AnyVal e)
    = (mkWorld _ r lg, Returned (Some (Wrapf "insert event" cause))) /\
    match fault with
    | Some err => cause = err
    | None => exists idx, cause = WriteException DuplicateKeyCode (index_name idx)
    end.
Proof.
  intros Hidx Hd Hs. rewrite ProcessEvent_over_store. destruct fault as [err|].
  { exists err. split; reflexivity. }
  cbv zeta.
  destruct (violated_signature (indexes (collection r)) (docs (collection r)) d
              (stored_document (next_id (collection r)) (programID p) now
                 signature slot blockTime e) signature Hidx Hd Hs eq_refl)
    as [idx ->].
  eexists. split; [reflexivity|]. exists idx. reflexivity.
Qed.

(** X10. One event per transaction. On a store that has the unique index on
    [signature], once [ProcessEvent] has stored an event under a signature,
    every later [ProcessEvent] call with the same signature, whatever
    [SaveEvent] calls came in between, for any struct of a handled type
    and whatever the other arguments and the log are, stores nothing: it
    leaves the store and the log as they are and returns an error wrapped
    as "insert event", which is the failure of the connection when the
    connection fails and the duplicate-key error otherwise. *)
Theorem ProcessEvent_same_signature_refused (fault : option error)
    (p : EventProcessor) (now : Z) (r : MongoRepository) (lg : list string)
    (signature : string) (slot blockTime : Z) (e : Event)
    (w1 : World MongoRepository)
    (between : list (option error * Any))
    (fault2 : option error) (p2 : EventProcessor) (now2 slot2 blockTime2 : Z)
    (e2 : Event) (lg2 : list string) :
  In signatureIndex (indexes (collection r)) ->
  ProcessEvent MongoRepository (SaveEvent fault) p now (mkWorld _ r lg)
    signature slot blockTime (struct_name e) (AnyVal e) = (w1, Returned None) ->
  let r2 := save_all (repo _ w1) between in
  exists cause,
    ProcessEvent MongoRepository (SaveEvent fault2) p2 now2 (mkWorld _ r2 lg2)
      signature slot2 blockTime2 (struct_name e2) (AnyVal e2)
    = (mkWorld _ r2 lg2, Returned (Some (Wrapf "insert event" cause))) /\
    match fault2 with
    | Some err => cause = err
    | None => exists idx, cause = WriteException DuplicateKeyCode (index_name idx)
    end.
Proof.
  intros Hidx H. rewrite ProcessEvent_over_store in H.
  destruct fault as [err|]; [discriminate H|]. cbv zeta in H.
  destruct (violated _ _ _) as [idx0|]; [discriminate H|].
  injection H as <-. cbn [repo]. cbv zeta.
  set (doc1 := stored_document (next_id (collection r)) (programID p) now
                 signature slot blockTime e).
  set (r1 := mkMongoRepository
               (mkCollection (docs (collection r) ++ [doc1]) (indexes (collection r))
                  (S (next_id (collection r))))).
  destruct (save_all_keeps between r1) as [Hi Hd].
  apply (ProcessEvent_signature_taken fault2 p2 now2 (save_all r1 between) lg2
           signature slot2 blockTime2 e2 doc1).
  - rewrite Hi. exact Hidx.
  - apply Hd. cbn [r1 collection docs]. apply in_or_app. right. left. reflexivity.
  - reflexivity.
Qed.

(** Three events of one transaction on the indexed store: after the mint
    is stored, the burn and then the mint again are refused. *)
Lemma ProcessEvent_same_signature_refused_witness :
  let w1 := fst (ProcessEvent MongoRepository (SaveEvent None)
                   (mkEventProcessor zeroPublicKey) 1700000001
                   (mkWorld _ indexedStore []) "sig1" 7 1700000000
                   (struct_name sampleMinted) (AnyVal sampleMinted)) in
  let r2 := save_all (repo _ w1) [(None, AnyPtr sampleBurned)] in
  exists cause,
    ProcessEvent MongoRepository (SaveEvent None) (mkEventProcessor zeroPublicKey)
      1700000002 (mkWorld _ r2 ["later"]) "sig1" 7 1700000000
      (struct_name sampleMinted) (AnyVal sampleMinted)
    = (mkWorld _ r2 ["later"], Returned (Some (Wrapf "insert event" cause))) /\
    exists idx, cause = WriteException DuplicateKeyCode (index_name idx).
Proof.
  cbv zeta.
  apply (ProcessEvent_same_signature_refused None (mkEventProcessor zeroPublicKey)
           1700000001 indexedStore [] "sig1" 7 1700000000 sampleMinted
           (fst (ProcessEvent MongoRepository (SaveEvent None)
                   (mkEventProcessor zeroPublicKey) 1700000001
                   (mkWorld _ indexedStore []) "sig1" 7 1700000000
                   (struct_name sampleMinted) (AnyVal sampleMinted)))
           [(None, AnyPtr sampleBurned)] None (mkEventProcessor zeroPublicKey)
           1700000002 7 1700000000 sampleMinted ["later"]).
  - vm_compute. tauto.
  - reflexivity.
Defined.

End ProcessorOverStore.

Section ParserLines.
Import models gostrings logparser numerals counterlog indexer.

Lemma prefix_weaken (a b s : string) :
  String.prefix (a +:+ b) s = true -> String.prefix a s = true.
Proof.
  revert s. induction a as [|x a IH]; intros s H; [destruct s; reflexivity|].
  destruct s as [|y s]; [discriminate H|].
  revert H. app_step. cbn [String.prefix].
  destruct (ascii_dec x y); [apply IH|discriminate].
Qed.

Lemma Contains_weaken (s a b : string) :
  Contains s (a +:+ b) = true -> Contains s a = true.
Proof.
  induction s as [|c s IH]; cbn [Contains]; unfold HasPrefix; intros H.
  - apply orb_true_iff in H as [H|H]; [|discriminate H].
    rewrite (prefix_weaken a b _ H). reflexivity.
  - apply orb_true_iff in H as [H|H].
    + rewrite (prefix_weaken a b _ H). reflexivity.
    + rewrite (IH H). apply orb_true_r.
Qed.

Lemma parseLogMessage_needs_marker (log : string) (accounts : list PublicKey) :
  Contains log "Program log:" = false -> parseLogMessage log accounts = None.
Proof.
  intros H. unfold parseLogMessage, msgPrefix.
  destruct (Contains log "Program log: ") eqn:Hc; [|reflexivity].
  rewrite (Contains_weaken log "Program log:" " " Hc) in H. discriminate H.
Qed.

Lemma omap_step {A B} (f : A -> option B) (x : A) (l : list A) :
  omap f (x :: l) = match f x with
                    | Some y => y :: omap f l
                    | None => omap f l
                    end.
Proof. reflexivity. Qed.

Lemma ParseLogs_loop_omap (logs : list string) (accounts : list PublicKey)
    (acc : list CounterAction) :
  ParseLogs_loop logs accounts acc
  = acc ++ omap (fun log => parseLogMessage log accounts) logs.
Proof.
  revert acc. induction logs as [|log rest IH]; intros acc.
  - cbn [ParseLogs_loop]. rewrite app_nil_r. reflexivity.
  - rewrite omap_step. cbn [ParseLogs_loop].
    destruct (Contains log "Program log:") eqn:Hc; cbn [negb].
    + destruct (parseLogMessage log accounts) as [a|]; rewrite IH; [|reflexivity].
      rewrite <- app_assoc. reflexivity.
    + rewrite (parseLogMessage_needs_marker log accounts Hc). apply IH.
Qed.

(** X11. [ParseLogs] works line by line: its actions are those
    [parseLogMessage] gives for the lines, in line order (the first test on
    "Program log:" drops no line that would give an action), and its error
    is always nil. So the actions of two batches of lines are those of the
    first followed by those of the second, a line gives at most one action,
    and every line that gives one is a counter program log in the sense of
    [IsCounterProgramLog], for any program id. *)
Theorem ParseLogs_line_by_line (logs more : list string) (accounts : list PublicKey) :
  ParseLogs logs accounts
  = (omap (fun log => parseLogMessage log accounts) logs, None) /\
  fst (ParseLogs (logs ++ more) accounts)
  = fst (ParseLogs logs accounts) ++ fst (ParseLogs more accounts) /\
  (length (fst (ParseLogs logs accounts)) <= length logs)%nat /\
  forall (log : string) (programID : string),
    In log logs -> parseLogMessage log accounts <> None ->
    IsCounterProgramLog log programID = true.
Proof.
  unfold ParseLogs. cbn [fst]. rewrite !ParseLogs_loop_omap. cbn [app].
  split; [reflexivity|]. split; [apply omap_app|]. split.
  - induction logs as [|log rest IH]; [apply Nat.le_refl|].
    rewrite omap_step.
    destruct (parseLogMessage log accounts); cbn [length]; lia.
  - intros log programID _ Hsome. unfold IsCounterProgramLog. cbv zeta.
    destruct (Contains log "Program log:") eqn:Hc; [apply orb_true_r|].
    elim Hsome. apply parseLogMessage_needs_marker. exact Hc.
Qed.

Lemma digit_value_range (c : ascii) : is_digit c = true -> 0 <= digit_value c <= 9.
Proof.
  unfold is_digit, digit_value. intros H.
  apply andb_true_iff in H as [H1 H2].
  apply Nat.leb_le in H1. apply Nat.leb_le in H2. lia.
Qed.

Lemma decimal_from_ge (s : string) (n : Z) :
  all_digits s = true -> 0 <= n -> n <= decimal_from s n.
Proof.
  revert n. induction s as [|c s IH]; intros n Hd Hn; cbn [decimal_from]; [lia|].
  cbn [all_digits] in Hd. apply andb_true_iff in Hd as [Hc Hd].
  pose proof (digit_value_range c Hc).
  specialize (IH (n * 10 + digit_value c) Hd). lia.
Qed.

Lemma parse_digits_decimal (s : string) (n : Z) :
  all_digits s = true -> 0 <= n <= maxUint64 ->
  parse_digits s n
  = if Z.leb (decimal_from s n) maxUint64 then (decimal_from s n, None)
    else (maxUint64, Some ErrRange).
Proof.
  revert n. induction s as [|c s IH]; intros n Hd Hn; cbn [parse_digits decimal_from].
  - destruct (Z.leb_spec n maxUint64); [reflexivity|lia].
  - cbn [all_digits] in Hd. apply andb_true_iff in Hd as [Hc Hd].
    rewrite Hc. cbv zeta.
    pose proof (digit_value_range c Hc) as Hv.
    pose proof (decimal_from_ge s (n * 10 + digit_value c) Hd) as Hge.
    unfold maxUint64, wrap64 in *.
    change (2 ^ 64 - 1) with 18446744073709551615 in *.
    change ((18446744073709551615 / 10) + 1) with 1844674407370955162.
    change (2 ^ 64) with 18446744073709551616.
    destruct (Z.leb_spec 1844674407370955162 n) as [Hcut|Hcut].
    + destruct (Z.leb_spec (decimal_from s (n * 10 + digit_value c))
                  18446744073709551615); [lia|reflexivity].
    + destruct (Z_lt_le_dec (n * 10 + digit_value c) 18446744073709551616) as [Hlt|Hle].
      * rewrite (Z.mod_small (n * 10 + digit_value c)) by lia.
        destruct (Z.ltb_spec (n * 10 + digit_value c) (n * 10)); [lia|].
        apply IH; [exact Hd|]. unfold maxUint64.
        change (2 ^ 64 - 1) with 18446744073709551615. lia.
      * replace ((n * 10 + digit_value c) mod 18446744073709551616)
          with (n * 10 + digit_value c - 18446744073709551616).
        2:{ apply Z.mod_unique with (q := 1); lia. }
        destruct (Z.ltb_spec (n * 10 + digit_value c - 18446744073709551616) (n * 10));
          [|lia].
        destruct (Z.leb_spec (decimal_from s (n * 10 + digit_value c))
                    18446744073709551615); [lia|reflexivity].
Qed.

Lemma ParseUint_decimal (s : string) :
  s <> "" -> all_digits s = true ->
  ParseUint s
  = if Z.leb (decimal s) maxUint64 then (decimal s, None)
    else (maxUint64, Some ErrRange).
Proof.
  intros Hne Hd. unfold ParseUint, decimal. destruct s as [|c s]; [congruence|].
  apply parse_digits_decimal; [exact Hd|]. unfold maxUint64. lia.
Qed.

Lemma decimal_nonneg (s : string) : all_digits s = true -> 0 <= decimal s.
Proof. intros H. apply (decimal_from_ge s 0 H). lia. Qed.

Lemma ParseUint_fst_decimal (s : string) :
  s <> "" -> all_digits s = true ->
  fst (ParseUint s) = Z.min (decimal s) maxUint64.
Proof.
  intros Hne Hd. rewrite (ParseUint_decimal s Hne Hd).
  destruct (Z.leb_spec (decimal s) maxUint64); cbn [fst]; lia.
Qed.

Lemma ParseLogs_added_digits (a v : string) (accounts : list PublicKey) :
  a <> "" -> all_digits a = true -> v <> "" -> all_digits v = true ->
  ParseLogs ["Program log: Added " +:+ a +:+ " to counter. New value: " +:+ v] accounts
  = ([mkCounterAction EventTypeCounterAdded
        (default zeroPublicKey (accounts !! 0%nat)) None
        (Some (wrap64 (fst (ParseUint v) - fst (ParseUint a))))
        (Some (fst (ParseUint v))) (Some (fst (ParseUint a))) None None None], None).
Proof.
  intros Hane Had Hvne Hvd.
  change ("Program log: Added " +:+ a +:+ " to counter. New value: " +:+ v)
    with ("Program log: " +:+ ("Added " +:+ a +:+ " to counter. New value: " +:+ v)).
  rewrite ParseLogs_single, parseLogMessage_line.
  - rewrite parseMessage_added.
    rewrite (Contains_append_r "Added " _ "to counter"
               (Contains_append_r a (" to counter. New value: " +:+ v) "to counter" eq_refl)).
    rewrite (FindStringSubmatch_exact "Added " " to counter. New value: " a v
               " " "to counter. New value: " eq_refl eq_refl Hane Had Hvne Hvd).
    rewrite head_lookup. reflexivity.
  - rewrite !char_in_append, (digits_no_char "g" a eq_refl Had),
      (digits_no_char "g" v eq_refl Hvd). reflexivity.
  - replace ("Added " +:+ a +:+ " to counter. New value: " +:+ v)
      with (("Added " +:+ a +:+ " to counter. New value: ") +:+ v)
      by (rewrite !append_assoc; reflexivity).
    eapply TrimSpace_keeps; [reflexivity|reflexivity|exact Hvne|exact Hvd].
Qed.

Lemma ParseLogs_incremented_digits (s : string) (accounts : list PublicKey) :
  s <> "" -> all_digits s = true ->
  ParseLogs ["Program log: Counter incremented to: " +:+ s] accounts
  = (match ParseUint s with
     | (N, None) =>
         [mkCounterAction EventTypeCounterIncremented
            (default zeroPublicKey (accounts !! 0%nat)) None
            (Some (wrap64 (N - 1))) (Some N) None None None None]
     | (_, Some _) => []
     end, None).
Proof.
  intros Hne Hd.
  change ("Program log: Counter incremented to: " +:+ s)
    with ("Program log: " +:+ ("Counter incremented to: " +:+ s)).
  rewrite ParseLogs_single, parseLogMessage_line.
  - rewrite parseMessage_incremented. unfold extractNumber.
    rewrite TrimPrefix_append, (TrimSpace_digits s Hne Hd), head_lookup.
    destruct (ParseUint s) as [N [e|]]; reflexivity.
  - rewrite char_in_append, (digits_no_char "g" s eq_refl Hd). reflexivity.
  - eapply TrimSpace_keeps; [reflexivity|reflexivity|exact Hne|exact Hd].
Qed.

(** X12. Numbers too large for 64 bits are treated in two ways. For
    non-empty runs of decimal digits [x] and [y]: the line "Counter
    incremented to: x" gives an action only when the number fits in 64
    bits, and no action otherwise; the line "Added x to counter. New value:
    y" always gives an action, in which a number that does not fit is
    replaced by 2^64 - 1 (the parse error being dropped), the old value
    being the difference of the two resulting values modulo 2^64. *)
Theorem ParseLogs_large_numbers (x y : string) (accounts : list PublicKey) :
  x <> "" -> all_digits x = true -> y <> "" -> all_digits y = true ->
  let counter := default zeroPublicKey (accounts !! 0%nat) in
  let X := Z.min (decimal x) maxUint64 in
  let Y := Z.min (decimal y) maxUint64 in
  fst (ParseLogs ["Program log: Counter incremented to: " +:+ x] accounts)
  = (if Z.leb (decimal x) maxUint64
     then [mkCounterAction EventTypeCounterIncremented counter None
             (Some (wrap64 (decimal x - 1))) (Some (decimal x)) None None None None]
     else []) /\
  fst (ParseLogs ["Program log: Added " +:+ x +:+ " to counter. New value: " +:+ y]
         accounts)
  = [mkCounterAction EventTypeCounterAdded counter None
       (Some (wrap64 (Y - X))) (Some Y) (Some X) None None None].
Proof.
  intros Hxne Hxd Hyne Hyd. cbv zeta. split.
  - rewrite (ParseLogs_incremented_digits x accounts Hxne Hxd).
    rewrite (ParseUint_decimal x Hxne Hxd).
    destruct (Z.leb (decimal x) maxUint64); reflexivity.
  - rewrite (ParseLogs_added_digits x y accounts Hxne Hxd Hyne Hyd).
    rewrite (ParseUint_fst_decimal x Hxne Hxd), (ParseUint_fst_decimal y Hyne Hyd).
    reflexivity.
Qed.

(** The witness: a 21-digit increment and amount. *)
Lemma ParseLogs_large_numbers_witness :
  let counter := default zeroPublicKey (@nil PublicKey !! 0%nat) in
  let X := Z.min (decimal "100000000000000000000") maxUint64 in
  let Y := Z.min (decimal "7") maxUint64 in
  fst (ParseLogs ["Program log: Counter incremented to: " +:+ "100000000000000000000"] [])
  = (if Z.leb (decimal "100000000000000000000") maxUint64
     then [mkCounterAction EventTypeCounterIncremented counter None
             (Some (wrap64 (decimal "100000000000000000000" - 1)))
             (Some (decimal "100000000000000000000")) None None None None]
     else []) /\
  fst (ParseLogs ["Program log: Added " +:+ "100000000000000000000" +:+
                  " to counter. New value: " +:+ "7"] [])
  = [mkCounterAction EventTypeCounterAdded counter None
       (Some (wrap64 (Y - X))) (Some Y) (Some X) None None None].
Proof.
  apply (ParseLogs_large_numbers "100000000000000000000" "7" []);
    [discriminate|reflexivity|discriminate|reflexivity].
Defined.

Lemma ParseLogs_decremented_line (s : string) (N : Z) (accounts : list PublicKey) :
  ParseUint s = (N, None) ->
  ParseLogs ["Program log: Counter decremented to: " +:+ s] accounts
  = ([mkCounterAction EventTypeCounterDecremented
        (default zeroPublicKey (accounts !! 0%nat)) None
        (Some (wrap64 (N + 1))) (Some N) None None None None], None).
Proof.
  intros HN. destruct (ParseUint_ok s N HN) as (Hne & Hd & Hr).
  change ("Program log: Counter decremented to: " +:+ s)
    with ("Program log: " +:+ ("Counter decremented to: " +:+ s)).
  rewrite ParseLogs_single, parseLogMessage_line.
  - rewrite parseMessage_decremented, (extractNumber_digits _ s N HN), head_lookup.
    reflexivity.
  - rewrite char_in_append, (digits_no_char "g" s eq_refl Hd). reflexivity.
  - eapply TrimSpace_keeps; [reflexivity|reflexivity|exact Hne|exact Hd].
Qed.

(** X13. A decrement line. For every text [s] that [ParseUint] accepts
    with value [N], the line "Counter decremented to: s" gives exactly one
    action, converted to a [CounterDecrementedEvent] with new value [N] and
    old value [N + 1] computed in 64 bits: [N + 1] below the largest value,
    and 0 for [N = 2^64 - 1]. *)
Theorem ParseLogs_counter_decremented (s : string) (N : Z) (accounts : list PublicKey) :
  ParseUint s = (N, None) ->
  map convertCounterActionToEvent
    (fst (ParseLogs ["Program log: Counter decremented to: " +:+ s] accounts))
  = [AnyVal (CounterDecrementedEvent zeroBaseEvent
               (default zeroPublicKey (accounts !! 0%nat))
               (if Z.eqb N maxUint64 then 0 else N + 1) N)].
Proof.
  intros HN. destruct (ParseUint_ok s N HN) as (_ & _ & Hr).
  rewrite (ParseLogs_decremented_line s N accounts HN). cbn [fst map].
  unfold convertCounterActionToEvent. cbn [Type_ String.eqb Ascii.eqb Bool.eqb].
  cbn [OldValue NewValue Counter valueOrDefault].
  replace (wrap64 (N + 1)) with (if Z.eqb N maxUint64 then 0 else N + 1);
    [reflexivity|].
  unfold wrap64, maxUint64. destruct (Z.eqb_spec N (2 ^ 64 - 1)) as [->|Hne].
  - reflexivity.
  - symmetry. apply Z.mod_small. lia.
Qed.

Lemma ParseLogs_counter_decremented_witness :
  map convertCounterActionToEvent
    (fst (ParseLogs ["Program log: Counter decremented to: " +:+ "18446744073709551615"]
            [repeat x07 32]))
  = [AnyVal (CounterDecrementedEvent zeroBaseEvent
               (default zeroPublicKey ([repeat x07 32] !! 0%nat))
               (if Z.eqb 18446744073709551615 maxUint64 then 0
                else 18446744073709551615 + 1) 18446744073709551615)].
Proof.
  exact (ParseLogs_counter_decremented "18446744073709551615" 18446744073709551615
           [repeat x07 32] eq_refl).
Defined.

End ParserLines.

Section Pipelines.
Import models decoder programdata logparser repository processor indexer stored indexing.

Lemma decoded_handled (t : EventType) : In t decodedTypes -> In t handledTypes.
Proof.
  unfold decodedTypes, handledTypes. cbn [In]. intros H.
  repeat (destruct H as [<-|H]; [tauto|]). destruct H.
Qed.

Section AnyStore.

Variable Repo : Type.
Variable SaveEventAt : nat -> Repo -> Any -> Repo * option error.
Variable clock : nat -> Z.
Variable rd : nat -> Dec (list byte).
Variable render : error -> string.
Variable itoa : Z -> string.
Variable sigString : solana.Signature -> string.
Variable rpc_GetTransaction : solana.Signature -> error + option TransactionResult.
Variable transport : solana.Request -> error + list solana.TransactionSignature.

Lemma starterEvents_keeps_store (p : EventProcessor) (signature : string)
    (slot blockTime : Z) (datas : list (list byte)) (w : World Repo) (k : nat) :
  let '(w', _, out) :=
    starterEvents Repo SaveEventAt clock rd render itoa p signature slot blockTime
      datas w k in
  repo Repo w' = repo Repo w /\
  match out with
  | Panicked _ => existsb (decodable rd) datas = true
  | Returned err => err = None /\ existsb (decodable rd) datas = false
  end.
Proof.
  revert w k. induction datas as [|data rest IH]; intros w k; cbn [starterEvents existsb].
  - auto.
  - unfold decodable at 1 3.
    destruct (DecodeEvent rd NewEventDecoder data) as [[t v] err] eqn:Hd.
    pose proof (DecodeEvent_shape rd data t v err Hd) as [_ Hs].
    destruct err as [e|].
    + cbn [orb].
      specialize (IH (log_line Repo w ("failed to decode event: " +:+ render e)) k).
      destruct (starterEvents _ _ _ _ _ _ _ _ _ _ rest _ k) as [[w' k'] out].
      exact IH.
    + destruct Hs as (Ht & e & -> & He).
      rewrite (ProcessEvent_pointer_panics Repo (SaveEventAt k) p (clock k) w
                 signature slot blockTime t e (decoded_handled t Ht)).
      split; reflexivity.
Qed.

Lemma processStarterTransaction_store (i : Indexer)
    (signature : solana.Signature) (w : World Repo) (k : nat) :
  repo Repo
    (fst (fst (processStarterTransaction Repo SaveEventAt clock rd render itoa
                 sigString rpc_GetTransaction i signature w k)))
  = repo Repo w.
Proof.
  unfold processStarterTransaction.
  destruct (GetTransaction rpc_GetTransaction signature) as [err|[tx|]];
    [reflexivity| |reflexivity].
  destruct (tx_logs tx) as [logs|]; [|reflexivity].
  destruct (tx_block_time tx) as [blockTime|]; [|reflexivity].
  destruct (length logs =? 0)%nat; [reflexivity|]. cbv zeta.
  pose proof (starterEvents_keeps_store (mkEventProcessor (starterProgramID i))
                (sigString signature) (tx_slot tx) blockTime
                (ParseProgramData logs) w k) as H.
  destruct (starterEvents _ _ _ _ _ _ _ _ _ _ _ w k) as [[w' k'] out].
  exact (proj1 H).
Qed.

(** X14. The starter path stores nothing. Whatever the node returns for a
    signature and whatever the store's [SaveEvent] would do,
    [processStarterTransaction] leaves the store as it is. It returns an
    error only when the transaction cannot be fetched; it returns nil only
    when no program data of the logs decodes without error; and when some
    program data does decode, the call panics, the decoder handing over a
    pointer where [ProcessEvent] asserts a struct. The only other panic is
    that of a transaction with meta data and no block time. *)
Theorem processStarterTransaction_never_saves (i : Indexer)
    (signature : solana.Signature) (w : World Repo) (k : nat) :
  let '(w', _, out) :=
    processStarterTransaction Repo SaveEventAt clock rd render itoa sigString
      rpc_GetTransaction i signature w k in
  repo Repo w' = repo Repo w /\
  match out with
  | Panicked _ =>
      exists tx logs,
        rpc_GetTransaction signature = inr (Some tx) /\ tx_logs tx = Some logs /\
        (tx_block_time tx = None \/
         existsb (decodable rd) (ParseProgramData logs) = true)
  | Returned (Some err) =>
      exists cause,
        rpc_GetTransaction signature = inl cause /\
        err = Wrapf "get transaction" (Wrapf "get transaction" cause)
  | Returned None =>
      match rpc_GetTransaction signature with
      | inr (Some tx) =>
          match tx_logs tx with
          | Some logs =>
              tx_block_time tx <> None /\
              existsb (decodable rd) (ParseProgramData logs) = false
          | None => True
          end
      | inr None => True
      | inl _ => False
      end
  end.
Proof.
  unfold processStarterTransaction, GetTransaction.
  destruct (rpc_GetTransaction signature) as [cause|[tx|]].
  - split; [reflexivity|]. exists cause. split; reflexivity.
  - destruct (tx_logs tx) as [logs|] eqn:Hl; [|split; [reflexivity|exact I]].
    destruct (tx_block_time tx) as [blockTime|] eqn:Hb.
    + destruct logs as [|l logs].
      * cbn [length Nat.eqb]. split; [reflexivity|]. split; [discriminate|reflexivity].
      * cbn [length Nat.eqb]. cbv zeta.
        pose proof (starterEvents_keeps_store (mkEventProcessor (starterProgramID i))
                      (sigString signature) (tx_slot tx) blockTime
                      (ParseProgramData (l :: logs)) w k) as H.
        destruct (starterEvents _ _ _ _ _ _ _ _ _ _ _ w k) as [[w' k'] out].
        destruct H as [Hr Ho]. split; [exact Hr|].
        destruct out as [[err|]|msg].
        -- destruct Ho as [Ho _]. discriminate Ho.
        -- split; [discriminate|apply Ho].
        -- exists tx, (l :: logs). auto.
    + split; [reflexivity|]. exists tx, logs. auto.
  - split; [reflexivity|exact I].
Qed.

Lemma counterEvents_returns (p : EventProcessor) (signature : string)
    (slot blockTime : Z) (actions : list CounterAction) (w : World Repo) (k : nat) :
  Forall (fun a => In (Type_ a) counterTypes) actions ->
  snd (counterEvents Repo SaveEventAt clock render itoa p signature slot blockTime
         actions w k) = Returned None.
Proof.
  intros Hall. revert w k.
  induction Hall as [|a rest Ha _ IH]; intros w k; cbn [counterEvents]; [reflexivity|].
  cbv zeta. destruct (convert_typed a Ha) as (e & -> & <- & _).
  rewrite ProcessEvent_value.
  destruct (SaveEventAt k (repo Repo w) _) as [r [err|]]; apply IH.
Qed.

Lemma parsed_actions_typed (logs : list string) (accounts : list PublicKey) :
  Forall (fun a => In (Type_ a) counterTypes) (fst (ParseLogs logs accounts)).
Proof.
  unfold ParseLogs. cbn [fst]. rewrite ParseLogs_loop_omap. cbn [app].
  induction logs as [|log rest IH]; [constructor|].
  rewrite omap_step. destruct (parseLogMessage log accounts) as [a|] eqn:Ha; [|exact IH].
  constructor; [|exact IH]. exact (parseLogMessage_type log accounts a Ha).
Qed.

Lemma processCounterTransaction_outcome (i : Indexer) (signature : solana.Signature)
    (w : World Repo) (k : nat) :
  match snd (processCounterTransaction Repo SaveEventAt clock render itoa sigString
               rpc_GetTransaction i signature w k) with
  | Panicked _ => lacks_block_time (rpc_GetTransaction signature) = true
  | Returned _ => lacks_block_time (rpc_GetTransaction signature) = false
  end.
Proof.
  unfold processCounterTransaction, GetTransaction, lacks_block_time.
  destruct (rpc_GetTransaction signature) as [err|[tx|]]; [reflexivity| |reflexivity].
  destruct (tx_logs tx) as [logs|]; [|reflexivity].
  destruct (tx_block_time tx) as [blockTime|]; [|reflexivity].
  destruct (length logs =? 0)%nat; [reflexivity|]. cbv zeta.
  pose proof (parsed_actions_typed logs (default [] (tx_accounts tx))) as Hall.
  destruct (ParseLogs logs (default [] (tx_accounts tx))) as [actions [err|]];
    [reflexivity|].
  rewrite counterEvents_returns by exact Hall. reflexivity.
Qed.

Lemma transactions_counter_outcome (i : Indexer)
    (sigs : list solana.TransactionSignature) (w : World Repo) (k : nat) :
  match snd (transactions Repo render sigString
               (processCounterTransaction Repo SaveEventAt clock render itoa sigString
                  rpc_GetTransaction i)
               "error processing counter transaction " sigs w k) with
  | Some _ =>
      existsb (fun s => lacks_block_time (rpc_GetTransaction (solana.sig s))) sigs = true
  | None =>
      existsb (fun s => lacks_block_time (rpc_GetTransaction (solana.sig s))) sigs = false
  end.
Proof.
  revert w k. induction sigs as [|s rest IH]; intros w k; cbn [transactions existsb];
    [reflexivity|].
  pose proof (processCounterTransaction_outcome i (solana.sig s) w k) as H.
  destruct (processCounterTransaction _ _ _ _ _ _ _ i (solana.sig s) w k)
    as [[w' k'] out].
  cbn [snd] in H. destruct out as [[err|]|msg]; rewrite H; cbn [orb snd];
    [apply IH|apply IH|reflexivity].
Qed.

Lemma transactions_starter_keeps_store (i : Indexer)
    (sigs : list solana.TransactionSignature) (w : World Repo) (k : nat) :
  repo Repo
    (fst (fst (transactions Repo render sigString
                 (processStarterTransaction Repo SaveEventAt clock rd render itoa
                    sigString rpc_GetTransaction i)
                 "error processing starter transaction " sigs w k)))
  = repo Repo w.
Proof.
  revert w k. induction sigs as [|s rest IH]; intros w k; cbn [transactions];
    [reflexivity|].
  pose proof (processStarterTransaction_store i (solana.sig s) w k) as Hr.
  destruct (processStarterTransaction _ _ _ _ _ _ _ _ i (solana.sig s) w k)
    as [[w' k'] out].
  cbn [fst] in Hr. destruct out as [[err|]|msg].
  - rewrite IH. exact Hr.
  - rewrite IH. exact Hr.
  - exact Hr.
Qed.

Lemma request_sent (address : PublicKey) (limit : Z)
    (before until : option solana.Signature) :
  solana.GetSignaturesForAddress transport address limit before until
  = ([solana.mkRequest "getSignaturesForAddress" address None],
     match transport (solana.mkRequest "getSignaturesForAddress" address None) with
     | inl err => inl (Wrapf "get signatures for address" err)
     | inr sigs => inr sigs
     end).
Proof.
  unfold solana.GetSignaturesForAddress, solana.rpc_GetSignaturesForAddress,
    solana.rpc_GetSignaturesForAddressWithOpts.
  destruct (transport _); reflexivity.
Qed.

(** X15. One poll of the counter program. The request sent names the
    program and carries no options, so it is the same whatever the saved
    cursor and the batch size are. If the node answers with an error, that
    error comes back wrapped twice and the indexer, the store and the log
    are as before; an empty page changes nothing. On a non-empty page the
    call panics exactly when a transaction of the page comes with meta
    data and without a block time, the indexer being as before; otherwise
    it returns nil and the counter cursor is the last signature of the
    page, also when transactions of the page failed. The starter cursor is
    never touched. *)
Theorem processCounterSignatures_cursor (i : Indexer) (w : World Repo) (k : nat) :
  let request := solana.mkRequest "getSignaturesForAddress" (counterProgramID i) None in
  let '(reqs, i', w', _, out) :=
    processCounterSignatures Repo SaveEventAt clock render itoa sigString
      rpc_GetTransaction transport i w k in
  reqs = [request] /\
  lastStarterSig i' = lastStarterSig i /\
  match transport request with
  | inl err =>
      out = Returned (Some (Wrapf "get signatures"
                              (Wrapf "get signatures for address" err))) /\
      i' = i /\ w' = w
  | inr sigs =>
      match last sigs, out with
      | None, _ => out = Returned None /\ i' = i /\ w' = w
      | Some s, Returned err =>
          err = None /\ lastCounterSig i' = Some (solana.sig s) /\
          existsb (fun s => lacks_block_time (rpc_GetTransaction (solana.sig s))) sigs
          = false
      | Some s, Panicked _ =>
          i' = i /\
          existsb (fun s => lacks_block_time (rpc_GetTransaction (solana.sig s))) sigs
          = true
      end
  end.
Proof.
  cbv zeta. unfold processCounterSignatures. rewrite request_sent.
  destruct (transport _) as [err|sigs]; [auto|].
  destruct (last sigs) as [s|]; [|auto 6].
  pose proof (transactions_counter_outcome i sigs
                (log_line Repo w ("processing " +:+ itoa (Z.of_nat (length sigs)) +:+
                                  " counter program signatures")) k) as H.
  destruct (transactions _ _ _ _ _ sigs _ k) as [[w' k'] [msg|]];
    cbn [snd] in H; auto 6.
Qed.

(** X16. One poll of the starter program. The request carries no options,
    whatever the cursor and the batch size are, and the store is never
    written, whatever the page holds. The starter cursor moves to the last
    signature of a non-empty page unless a transaction of the page makes
    the call panic, in which case the indexer is as before. *)
Theorem processStarterSignatures_cursor (i : Indexer) (w : World Repo) (k : nat) :
  let request := solana.mkRequest "getSignaturesForAddress" (starterProgramID i) None in
  let '(reqs, i', w', _, out) :=
    processStarterSignatures Repo SaveEventAt clock rd render itoa sigString
      rpc_GetTransaction transport i w k in
  reqs = [request] /\
  repo Repo w' = repo Repo w /\
  match transport request with
  | inl err =>
      out = Returned (Some (Wrapf "get signatures"
                              (Wrapf "get signatures for address" err))) /\
      i' = i /\ w' = w
  | inr sigs =>
      lastCounterSig i' = lastCounterSig i /\
      match last sigs, out with
      | None, _ => out = Returned None /\ i' = i /\ w' = w
      | Some s, Returned err => err = None /\ lastStarterSig i' = Some (solana.sig s)
      | Some s, Panicked _ => i' = i
      end
  end.
Proof.
  cbv zeta. unfold processStarterSignatures. rewrite request_sent.
  destruct (transport _) as [err|sigs]; [auto|].
  destruct (last sigs) as [s|]; [|auto 6].
  pose proof (transactions_starter_keeps_store i sigs
                (log_line Repo w ("processing " +:+ itoa (Z.of_nat (length sigs)) +:+
                                  " starter program signatures")) k) as H.
  destruct (transactions _ _ _ _ _ sigs _ k) as [[w' k'] [msg|]];
    cbn [fst log_line repo] in H; auto.
Qed.

End AnyStore.

End Pipelines.

Section CounterOverStore.
Import models decoder programdata logparser repository processor indexer stored indexing.

Variable faults : nat -> option error.
Variable clock : nat -> Z.
Variable render : error -> string.
Variable itoa : Z -> string.
Variable sigString : solana.Signature -> string.
Variable rpc_GetTransaction : solana.Signature -> error + option TransactionResult.

(** Once the signature is in the store, the loop stores nothing more. *)
Lemma counterEvents_refused (p : EventProcessor) (signature : string)
    (slot blockTime : Z) (actions : list CounterAction) (d : Document) :
  Forall (fun a => In (Type_ a) counterTypes) actions ->
  forall (r : MongoRepository) (lg : list string) (k : nat),
    In signatureIndex (indexes (collection r)) ->
    In d (docs (collection r)) -> signature_of d = Some (VString signature) ->
    repo _ (fst (fst (counterEvents MongoRepository (fun k => SaveEvent (faults k))
                        clock render itoa p signature slot blockTime actions
                        (mkWorld _ r lg) k))) = r.
Proof.
  intros Hall. induction Hall as [|a rest Ha _ IH]; intros r lg k Hidx Hd Hs;
    cbn [counterEvents]; [reflexivity|].
  cbv zeta. destruct (convert_typed a Ha) as (e & -> & <- & _).
  rewrite ProcessEvent_over_store. destruct (faults k) as [err|].
  { apply IH; assumption. }
  cbv zeta.
  destruct (violated_signature (indexes (collection r)) (docs (collection r)) d
              (stored_document (next_id (collection r)) (programID p) (clock k)
                 signature slot blockTime e) signature Hidx Hd Hs eq_refl)
    as [idx ->].
  apply IH; assumption.
Qed.

Lemma counterEvents_at_most_one (p : EventProcessor) (signature : string)
    (slot blockTime : Z) (actions : list CounterAction) :
  Forall (fun a => In (Type_ a) counterTypes) actions ->
  forall (r : MongoRepository) (lg : list string) (k : nat),
    In signatureIndex (indexes (collection r)) ->
    let r' := repo _ (fst (fst (counterEvents MongoRepository
                                  (fun k => SaveEvent (faults k))
                                  clock render itoa p signature slot blockTime actions
                                  (mkWorld _ r lg) k))) in
    r' = r \/
    exists doc,
      docs (collection r') = docs (collection r) ++ [doc] /\
      indexes (collection r') = indexes (collection r) /\
      signature_of doc = Some (VString signature) /\
      field "program_id" doc = Some (VBinary (programID p)).
Proof.
  intros Hall. induction Hall as [|a rest Ha Hrest IH]; intros r lg k Hidx; cbv zeta;
    cbn [counterEvents]; [left; reflexivity|].
  cbv zeta. destruct (convert_typed a Ha) as (e & -> & <- & _).
  rewrite ProcessEvent_over_store. destruct (faults k) as [err|].
  { apply IH; assumption. }
  cbv zeta.
  set (doc := stored_document (next_id (collection r)) (programID p) (clock k)
                signature slot blockTime e).
  destruct (violated (indexes (collection r)) (docs (collection r)) doc) as [idx|].
  { apply IH; assumption. }
  right. exists doc. unfold log_line. cbn [repo logged].
  rewrite (counterEvents_refused p signature slot blockTime rest doc Hrest);
    [cbn [collection docs indexes]; repeat split; reflexivity
    |exact Hidx
    |cbn [collection docs]; apply in_or_app; right; left; reflexivity
    |reflexivity].
Qed.

(** X17. At most one event per counter transaction. On a store with the
    unique index on [signature], [processCounterTransaction] panics only
    on a transaction with meta data and no block time and, however many
    actions the logs of the transaction give and whatever connection
    failures occur, leaves the store as it was or with exactly one more
    document, which carries the signature of the transaction and the
    counter program id; the events of the other actions are refused by the
    index and only logged. *)
Theorem processCounterTransaction_stores_at_most_one (i : Indexer)
    (signature : solana.Signature) (r : MongoRepository) (lg : list string) (k : nat) :
  In signatureIndex (indexes (collection r)) ->
  let '(w', _, out) :=
    processCounterTransaction MongoRepository (fun k => SaveEvent (faults k))
      clock render itoa sigString rpc_GetTransaction i signature (mkWorld _ r lg) k in
  match out with
  | Panicked _ => lacks_block_time (rpc_GetTransaction signature) = true
  | Returned _ => lacks_block_time (rpc_GetTransaction signature) = false
  end /\
  (repo _ w' = r \/
   exists doc,
     docs (collection (repo _ w')) = docs (collection r) ++ [doc] /\
     indexes (collection (repo _ w')) = indexes (collection r) /\
     signature_of doc = Some (VString (sigString signature)) /\
     field "program_id" doc = Some (VBinary (counterProgramID i))).
Proof.
  intros Hidx.
  pose proof (processCounterTransaction_outcome MongoRepository
                (fun k => SaveEvent (faults k)) clock render itoa sigString
                rpc_GetTransaction i signature (mkWorld _ r lg) k) as Hret.
  revert Hret. unfold processCounterTransaction.
  destruct (GetTransaction rpc_GetTransaction signature) as [err|[tx|]];
    [intros Hret; split; [exact Hret|left; reflexivity]
    | |intros Hret; split; [exact Hret|left; reflexivity]].
  destruct (tx_logs tx) as [logs|];
    [|intros Hret; split; [exact Hret|left; reflexivity]].
  destruct (tx_block_time tx) as [blockTime|];
    [|intros Hret; split; [exact Hret|left; reflexivity]].
  destruct (length logs =? 0)%nat;
    [intros Hret; split; [exact Hret|left; reflexivity]|].
  cbv zeta.
  pose proof (parsed_actions_typed logs (default [] (tx_accounts tx))) as Hall.
  destruct (ParseLogs logs (default [] (tx_accounts tx))) as [actions [err|]];
    [intros Hret; split; [exact Hret|left; reflexivity]|].
  cbn [fst] in Hall.
  pose proof (counterEvents_at_most_one (mkEventProcessor (counterProgramID i))
                (sigString signature) (tx_slot tx) blockTime actions Hall
                r lg k Hidx) as Hone.
  cbv zeta in Hone.
  destruct (counterEvents _ _ _ _ _ _ _ _ _ actions _ k) as [[w' k'] out].
  cbn [snd fst] in *. intros Hret. split; [exact Hret|exact Hone].
Qed.

End CounterOverStore.

(** The witness: a transaction whose logs hold an initialisation and two
    increments, on the indexed store. *)
Lemma processCounterTransaction_stores_at_most_one_witness :
  let tx := indexing.mkTransactionResult 7 (Some 1700000000)
              (Some ["Program log: Counter initialized";
                     "Program log: Counter incremented to: 1";
                     "Program log: Counter incremented to: 2"])
              (Some [repeat x07 32]) in
  let i := indexing.mkIndexer 10 models.zeroPublicKey (repeat x09 32) None None in
  let '(w', _, out) :=
    indexing.processCounterTransaction repository.MongoRepository
      (fun k => repository.SaveEvent None)
      (fun k => 1700000001) (fun _ => "error") (fun _ => "7") (fun _ => "sig1")
      (fun _ => inr (Some tx)) i solana.sigA
      (processor.mkWorld _ repository.indexedStore []) 0 in
  match out with
  | processor.Panicked _ => indexing.lacks_block_time (inr (Some tx)) = true
  | processor.Returned _ => indexing.lacks_block_time (inr (Some tx)) = false
  end /\
  (processor.repo _ w' = repository.indexedStore \/
   exists doc,
     repository.docs (repository.collection (processor.repo _ w'))
     = repository.docs (repository.collection repository.indexedStore) ++ [doc] /\
     repository.indexes (repository.collection (processor.repo _ w'))
     = repository.indexes (repository.collection repository.indexedStore) /\
     repository.signature_of doc = Some (repository.VString "sig1") /\
     repository.field "program_id" doc
     = Some (repository.VBinary (indexing.counterProgramID i))).
Proof.
  cbv zeta.
  apply (processCounterTransaction_stores_at_most_one (fun _ => None)
           (fun k => 1700000001) (fun _ => "error") (fun _ => "7") (fun _ => "sig1")
           (fun _ => inr (Some (indexing.mkTransactionResult 7 (Some 1700000000)
              (Some ["Program log: Counter initialized";
                     "Program log: Counter incremented to: 1";
                     "Program log: Counter incremented to: 2"])
              (Some [repeat x07 32]))))
           (indexing.mkIndexer 10 models.zeroPublicKey (repeat x09 32) None None)
           solana.sigA repository.indexedStore [] 0).
  vm_compute. tauto.
Defined.

Section Configuration.
Import config.

Variable Getenv : string -> string.
Variable Sscanf_d : string -> option Z.

Lemma getEnvOrDefault_nonempty (key defaultValue : string) :
  defaultValue <> "" -> String.eqb (getEnvOrDefault Getenv key defaultValue) "" = false.
Proof.
  intros Hd. unfold getEnvOrDefault. cbv zeta.
  destruct (String.eqb_spec (Getenv key) "") as [He|Hne]; cbn [negb];
    apply String.eqb_neq; assumption.
Qed.

Lemma getEnvOrDefault_cases (key defaultValue : string) :
  (Getenv key = "" /\ getEnvOrDefault Getenv key defaultValue = defaultValue) \/
  (Getenv key <> "" /\ getEnvOrDefault Getenv key defaultValue = Getenv key).
Proof.
  unfold getEnvOrDefault. cbv zeta.
  destruct (String.eqb_spec (Getenv key) ""); cbn [negb]; auto.
Qed.

Lemma getEnvIntOrDefault_cases (key : string) (defaultValue : Z) :
  getEnvIntOrDefault Getenv Sscanf_d key defaultValue = defaultValue \/
  (Getenv key <> "" /\
   Sscanf_d (Getenv key) = Some (getEnvIntOrDefault Getenv Sscanf_d key defaultValue)).
Proof.
  unfold getEnvIntOrDefault. cbv zeta.
  destruct (String.eqb_spec (Getenv key) "") as [He|Hne]; cbn [negb]; [auto|].
  destruct (Sscanf_d (Getenv key)); auto.
Qed.

Lemma Validate_cases (c : Config) :
  match Validate c with
  | None =>
      SolanaRPCURL c <> "" /\ StarterProgramID c <> "" /\
      0 < BatchSize c /\ 0 < MaxConcurrency c /\ 1 <= ServerPort c <= 65535 /\
      (DatabaseType c = DatabaseTypeMongo \/ DatabaseType c = DatabaseTypePostgres) /\
      DatabaseURL c <> "" /\ DatabaseName c <> ""
  | Some err =>
      (err = Errorf "SOLANA_RPC_URL is required" /\ SolanaRPCURL c = "") \/
      (err = Errorf "STARTER_PROGRAM_ID is required" /\ StarterProgramID c = "") \/
      (err = Errorf "BATCH_SIZE must be positive" /\ BatchSize c <= 0) \/
      (err = Errorf "MAX_CONCURRENCY must be positive" /\ MaxConcurrency c <= 0) \/
      (err = Errorf "SERVER_PORT must be between 1 and 65535" /\
       (ServerPort c <= 0 \/ 65535 < ServerPort c)) \/
      (err = Errorf "DATABASE_TYPE must be 'mongodb' or 'postgres'" /\
       DatabaseType c <> DatabaseTypeMongo /\ DatabaseType c <> DatabaseTypePostgres) \/
      (err = Errorf "DATABASE_URL is required" /\ DatabaseURL c = "") \/
      (err = Errorf "DATABASE_NAME is required" /\ DatabaseName c = "")
  end.
Proof.
  unfold Validate.
  destruct (String.eqb_spec (SolanaRPCURL c) ""); [auto|].
  destruct (String.eqb_spec (StarterProgramID c) ""); [auto|].
  destruct (Z.leb_spec (BatchSize c) 0); [auto 6|].
  destruct (Z.leb_spec (MaxConcurrency c) 0); [auto 6|].
  destruct (Z.leb_spec (ServerPort c) 0); cbn [orb]; [auto 8|].
  destruct (Z.ltb_spec 65535 (ServerPort c)); [auto 8|].
  destruct (String.eqb_spec (DatabaseType c) DatabaseTypeMongo); cbn [negb andb].
  - destruct (String.eqb_spec (DatabaseURL c) ""); [auto 10|].
    destruct (String.eqb_spec (DatabaseName c) ""); [auto 10|].
    repeat split; try assumption; try lia. left. assumption.
  - destruct (String.eqb_spec (DatabaseType c) DatabaseTypePostgres); cbn [negb].
    + destruct (String.eqb_spec (DatabaseURL c) ""); [auto 10|].
      destruct (String.eqb_spec (DatabaseName c) ""); [auto 10|].
      repeat split; try assumption; try lia. right. assumption.
    + auto 10.
Qed.

(** X18. What [Load] can return. Whatever the environment holds, [Load]
    fails only for a number that was read and is out of range (BATCH_SIZE
    or MAX_CONCURRENCY not positive, SERVER_PORT outside 1..65535) or for a
    DATABASE_TYPE set to something other than mongodb and postgres; the
    four "is required" errors of [Validate] cannot occur, an empty variable
    being replaced by a non-empty default, and a number that does not read
    is replaced by its default. A configuration it returns passes
    [Validate] and has every text field non-empty. *)
Theorem Load_outcome :
  match Load Getenv Sscanf_d with
  | inr cfg =>
      Validate cfg = None /\
      SolanaRPCURL cfg <> "" /\ SolanaWSURL cfg <> "" /\
      StarterProgramID cfg <> "" /\ CounterProgramID cfg <> "" /\
      DatabaseURL cfg <> "" /\ DatabaseName cfg <> "" /\ LogLevel cfg <> "" /\
      0 < BatchSize cfg /\ 0 < MaxConcurrency cfg /\ 1 <= ServerPort cfg <= 65535 /\
      (DatabaseType cfg = DatabaseTypeMongo \/ DatabaseType cfg = DatabaseTypePostgres)
  | inl err =>
      (err = Wrapf "invalid configuration" (Errorf "BATCH_SIZE must be positive") /\
       exists v, Getenv "BATCH_SIZE" <> "" /\
                 Sscanf_d (Getenv "BATCH_SIZE") = Some v /\ v <= 0) \/
      (err = Wrapf "invalid configuration" (Errorf "MAX_CONCURRENCY must be positive") /\
       exists v, Getenv "MAX_CONCURRENCY" <> "" /\
                 Sscanf_d (Getenv "MAX_CONCURRENCY") = Some v /\ v <= 0) \/
      (err = Wrapf "invalid configuration"
               (Errorf "SERVER_PORT must be between 1 and 65535") /\
       exists v, Getenv "SERVER_PORT" <> "" /\
                 Sscanf_d (Getenv "SERVER_PORT") = Some v /\ (v <= 0 \/ 65535 < v)) \/
      (err = Wrapf "invalid configuration"
               (Errorf "DATABASE_TYPE must be 'mongodb' or 'postgres'") /\
       Getenv "DATABASE_TYPE" <> "" /\
       Getenv "DATABASE_TYPE" <> DatabaseTypeMongo /\
       Getenv "DATABASE_TYPE" <> DatabaseTypePostgres)
  end.
Proof.
  unfold Load. cbv zeta.
  set (cfg := mkConfig _ _ _ _ _ _ _ _ _ _ _ _ _).
  pose proof (Validate_cases cfg) as Hc.
  pose proof (getEnvOrDefault_nonempty "SOLANA_RPC_URL" "https://api.devnet.solana.com"
                ltac:(discriminate)) as H1.
  pose proof (getEnvOrDefault_nonempty "SOLANA_WS_URL" "wss://api.devnet.solana.com"
                ltac:(discriminate)) as H2.
  pose proof (getEnvOrDefault_nonempty "STARTER_PROGRAM_ID"
                "gARh1g6reuvsAHB7DXqiuYzzyiJeoiJmtmCpV8Y5uWC" ltac:(discriminate)) as H3.
  pose proof (getEnvOrDefault_nonempty "COUNTER_PROGRAM_ID"
                "CounzVsCGF4VzNkAwePKC9mXr6YWiFYF4kLW6YdV8Cc" ltac:(discriminate)) as H4.
  pose proof (getEnvOrDefault_nonempty "DATABASE_URL" "mongodb://localhost:27017"
                ltac:(discriminate)) as H5.
  pose proof (getEnvOrDefault_nonempty "DATABASE_NAME" "solana_indexer"
                ltac:(discriminate)) as H6.
  pose proof (getEnvOrDefault_nonempty "LOG_LEVEL" "info" ltac:(discriminate)) as H7.
  apply String.eqb_neq in H1, H2, H3, H4, H5, H6, H7.
  destruct (Validate cfg) as [err|] eqn:Hv.
  - subst cfg.
    cbn [SolanaRPCURL StarterProgramID BatchSize MaxConcurrency DatabaseType
         DatabaseURL DatabaseName ServerPort] in Hc.
    destruct Hc as [[-> He]|[[-> He]|[[-> He]|[[-> He]|[[-> He]|[[-> He]|[[-> He]|[-> He]]]]]]]].
    + contradiction.
    + contradiction.
    + left. split; [reflexivity|].
      destruct (getEnvIntOrDefault_cases "BATCH_SIZE" 10) as [Hd|[Hne Hs]]; [lia|].
      eexists. split; [exact Hne|]. split; [exact Hs|exact He].
    + right; left. split; [reflexivity|].
      destruct (getEnvIntOrDefault_cases "MAX_CONCURRENCY" 5) as [Hd|[Hne Hs]]; [lia|].
      eexists. split; [exact Hne|]. split; [exact Hs|exact He].
    + right; right; left. split; [reflexivity|].
      destruct (getEnvIntOrDefault_cases "SERVER_PORT" 8080) as [Hd|[Hne Hs]]; [lia|].
      eexists. split; [exact Hne|]. split; [exact Hs|exact He].
    + right; right; right. split; [reflexivity|]. destruct He as [Hm Hp].
      destruct (getEnvOrDefault_cases "DATABASE_TYPE" "mongodb") as [[_ Hd]|[Hne Hd]].
      * rewrite Hd in Hm. elim Hm. reflexivity.
      * rewrite Hd in Hm, Hp. auto.
    + contradiction.
    + contradiction.
  - split; [exact Hv|]. subst cfg.
    cbn [SolanaRPCURL SolanaWSURL StarterProgramID CounterProgramID BatchSize
         MaxConcurrency DatabaseType DatabaseURL DatabaseName ServerPort LogLevel]
      in Hc |- *.
    destruct Hc as (_ & _ & Hb & Hm & Hp & Ht & _ & _).
    repeat (split; [assumption|]). exact Ht.
Qed.

End Configuration.

Section Construction.
Import models config lifecycle.

Variable Repo : Type.
Variable PublicKeyFromBase58 : string -> error + PublicKey.
Variable NewMongoRepository : string -> string -> error + Repo.

(** X19. [Validate] and [New] disagree on postgres. A configuration with
    database type postgres that passes [Validate] is refused by [New]: if
    both program ids parse, the error is "unsupported database type:
    postgres", and no indexer is built in any case. *)
Theorem New_refuses_postgres (cfg : Config) :
  Validate cfg = None ->
  DatabaseType cfg = DatabaseTypePostgres ->
  match New Repo PublicKeyFromBase58 NewMongoRepository (Some cfg) with
  | inl err =>
      match PublicKeyFromBase58 (StarterProgramID cfg),
            PublicKeyFromBase58 (CounterProgramID cfg) with
      | inr _, inr _ => err = Errorf "unsupported database type: postgres"
      | inl cause, _ => err = Wrapf "parse starter program ID" cause
      | inr _, inl cause => err = Wrapf "parse counter program ID" cause
      end
  | inr _ => False
  end.
Proof.
  intros Hv Hpg. unfold New, NewClient.
  assert (String.eqb (SolanaRPCURL cfg) "" = false) as ->.
  { unfold Validate in Hv. destruct (String.eqb (SolanaRPCURL cfg) ""); [discriminate Hv|].
    reflexivity. }
  destruct (PublicKeyFromBase58 (StarterProgramID cfg)) as [c1|k1]; [reflexivity|].
  destruct (PublicKeyFromBase58 (CounterProgramID cfg)) as [c2|k2]; [reflexivity|].
  rewrite Hpg. reflexivity.
Qed.

End Construction.

Lemma New_refuses_postgres_witness :
  let cfg := config.mkConfig "https://api.devnet.solana.com" "wss://api.devnet.solana.com"
               "gARh1g6reuvsAHB7DXqiuYzzyiJeoiJmtmCpV8Y5uWC"
               "CounzVsCGF4VzNkAwePKC9mXr6YWiFYF4kLW6YdV8Cc"
               0 1000000000 10 5 "postgres" "postgres://localhost:5432"
               "solana_indexer" 8080 "info" in
  match lifecycle.New repository.MongoRepository (fun _ => inr models.zeroPublicKey)
          (fun _ _ => inr repository.indexedStore) (Some cfg) with
  | inl err => err = Errorf "unsupported database type: postgres"
  | inr _ => False
  end.
Proof.
  exact (New_refuses_postgres repository.MongoRepository
           (fun _ => inr models.zeroPublicKey) (fun _ _ => inr repository.indexedStore)
           (config.mkConfig "https://api.devnet.solana.com" "wss://api.devnet.solana.com"
              "gARh1g6reuvsAHB7DXqiuYzzyiJeoiJmtmCpV8Y5uWC"
              "CounzVsCGF4VzNkAwePKC9mXr6YWiFYF4kLW6YdV8Cc"
              0 1000000000 10 5 "postgres" "postgres://localhost:5432"
              "solana_indexer" 8080 "info") eq_refl eq_refl).
Defined.

Section LifeCycle.
Import lifecycle.

Variable Repo : Type.
Variable Close : Repo -> Repo * option error.



End LifeCycle.

Section Reads.
Import models repository processor indexer stored reads.

Lemma find_split {A} (f : A -> bool) (l : list A) :
  match List.find f l with
  | Some x => exists before after,
                l = before ++ x :: after /\ f x = true /\
                Forall (fun y => f y = false) before
  | None => Forall (fun y => f y = false) l
  end.
Proof.
  induction l as [|a l IH]; cbn [List.find]; [constructor|].
  destruct (f a) eqn:Ha.
  - exists [], l. repeat split; [exact Ha|constructor].
  - destruct (List.find f l) as [x|].
    + destruct IH as (before & after & -> & Hx & Hb).
      exists (a :: before), after. repeat split; [exact Hx|constructor; assumption].
    + constructor; assumption.
Qed.

Lemma find_last {A} (f : A -> bool) (l : list A) (x : A) :
  Forall (fun y => f y = false) l -> f x = true -> List.find f (l ++ [x]) = Some x.
Proof.
  intros Hl Hx. induction Hl as [|a l Ha _ IH]; cbn [app List.find].
  - rewrite Hx. reflexivity.
  - rewrite Ha. exact IH.
Qed.

(** X21. [GetEventBySignature] returns the oldest stored document with
    the signature, and (nil, nil) exactly when the store holds none; any
    failure of the lookup other than "no documents" comes back wrapped as
    "find event by signature", without a document. *)
Theorem GetEventBySignature_finds_oldest (fault : option error) (r : MongoRepository)
    (signature : string) :
  match fault, GetEventBySignature fault r signature with
  | Some cause, (event, err) =>
      event = None /\
      err = (if bool_decide (cause = ErrNoDocuments) then None
             else Some (Wrapf "find event by signature" cause))
  | None, (Some d, err) =>
      err = None /\
      exists before after,
        docs (collection r) = before ++ d :: after /\
        signature_of d = Some (VString signature) /\
        Forall (fun d' => signature_of d' <> Some (VString signature)) before
  | None, (None, err) =>
      err = None /\
      Forall (fun d' => signature_of d' <> Some (VString signature)) (docs (collection r))
  end.
Proof.
  unfold GetEventBySignature, FindOne. destruct fault as [cause|].
  { destruct (bool_decide (cause = ErrNoDocuments)); split; reflexivity. }
  pose proof (find_split (fun d => bool_decide (field "signature" d
                                                = Some (VString signature)))
                (docs (collection r))) as H.
  destruct (List.find _ (docs (collection r))) as [d|].
  - destruct H as (before & after & Hl & Hd & Hb). split; [reflexivity|].
    exists before, after. split; [exact Hl|]. split.
    + apply bool_decide_eq_true in Hd. exact Hd.
    + eapply Forall_impl; [exact Hb|]. intros d' Hd'.
      apply bool_decide_eq_false in Hd'. exact Hd'.
  - cbn. split; [reflexivity|].
    eapply Forall_impl; [exact H|]. intros d' Hd'.
    apply bool_decide_eq_false in Hd'. exact Hd'.
Qed.

Lemma violated_none_signature (idxs : list IndexModel) (ds : list Document)
    (doc : Document) :
  In signatureIndex idxs -> violated idxs ds doc = None ->
  Forall (fun d => signature_of d <> signature_of doc) ds.
Proof.
  intros Hidx Hv. unfold violated in Hv.
  pose proof (List.find_none _ _ Hv signatureIndex Hidx) as Hk.
  cbn [Unique signatureIndex andb] in Hk. fold signatureIndex in Hk.
  apply Forall_forall. intros d Hd Heq.
  apply (key_taken_false signatureIndex ds doc Hk).
  apply in_map_iff. exists d. split; [|apply list_elem_of_In; exact Hd].
  unfold index_key. cbn [Keys signatureIndex map fst].
  fold (signature_of d). fold (signature_of doc). congruence.
Qed.

(** X22. Store, then look up. On a store with the unique index on
    [signature], when [ProcessEvent] has stored an event (it returned nil),
    [GetEventBySignature] with the signature of that call returns the
    document just stored: the envelope of the call and the fields of the
    struct. *)
Theorem GetEventBySignature_after_ProcessEvent (fault : option error)
    (p : EventProcessor) (now : Z) (r : MongoRepository) (lg : list string)
    (signature : string) (slot blockTime : Z) (e : Event)
    (w1 : World MongoRepository) :
  In signatureIndex (indexes (collection r)) ->
  ProcessEvent MongoRepository (SaveEvent fault) p now (mkWorld _ r lg)
    signature slot blockTime (struct_name e) (AnyVal e) = (w1, Returned None) ->
  GetEventBySignature None (repo _ w1) signature
  = (Some (stored_document (next_id (collection r)) (programID p) now
             signature slot blockTime e), None).
Proof.
  intros Hidx H. rewrite ProcessEvent_over_store in H.
  destruct fault as [err|]; [discriminate H|]. cbv zeta in H.
  destruct (violated _ _ _) as [idx0|] eqn:Hv; [discriminate H|].
  injection H as <-. cbn [repo].
  unfold GetEventBySignature, FindOne. cbn [collection docs].
  rewrite find_last; [reflexivity| |apply bool_decide_eq_true; reflexivity].
  pose proof (violated_none_signature _ _ _ Hidx Hv) as Hnone.
  eapply Forall_impl; [exact Hnone|]. intros d Hd.
  apply bool_decide_eq_false. exact Hd.
Qed.

Lemma GetEventBySignature_after_ProcessEvent_witness :
  GetEventBySignature None
    (repo _ (fst (ProcessEvent MongoRepository (SaveEvent None)
                    (mkEventProcessor zeroPublicKey) 1700000001
                    (mkWorld _ indexedStore []) "sig1" 7 1700000000
                    (struct_name sampleMinted) (AnyVal sampleMinted))))
    "sig1"
  = (Some (stored_document (next_id (collection indexedStore)) zeroPublicKey
             1700000001 "sig1" 7 1700000000 sampleMinted), None).
Proof.
  apply (GetEventBySignature_after_ProcessEvent None (mkEventProcessor zeroPublicKey)
           1700000001 indexedStore [] "sig1" 7 1700000000 sampleMinted).
  - vm_compute. tauto.
  - reflexivity.
Defined.

Lemma to_int64_small (x : Z) :
  0 <= x < 2 ^ 63 -> decoder.to_int64 (gostrings.wrap64 x) = x.
Proof.
  intros H. unfold decoder.to_int64, gostrings.wrap64.
  rewrite Z.mod_small by lia. destruct (Z.ltb_spec x (2 ^ 63)); lia.
Qed.

Lemma count_type_cons (t : EventType) (event : BaseEvent) (events : list BaseEvent) :
  count_type t (event :: events)
  = (if String.eqb (EventType_ event) t then 1 else 0) + count_type t events.
Proof.
  unfold count_type. destruct (String.eqb_spec (EventType_ event) t) as [He|Hne].
  - rewrite filter_cons_True by exact He. cbn [length]. lia.
  - rewrite filter_cons_False by exact Hne. lia.
Qed.

Lemma count_type_nonneg (t : EventType) (events : list BaseEvent) :
  0 <= count_type t events.
Proof. unfold count_type. lia. Qed.

Lemma default_some (x : Z) : default 0 (Some x) = x.
Proof. reflexivity. Qed.

Lemma stats_fold (t : EventType) (events : list BaseEvent) (stats : gmap EventType Z) :
  0 <= default 0 (stats !! t) ->
  default 0 (stats !! t) + count_type t events < 2 ^ 63 ->
  fold_left
    (fun stats event =>
       <[EventType_ event :=
           decoder.to_int64
             (gostrings.wrap64 (default 0 (stats !! EventType_ event) + 1))]> stats)
    events stats !! t
  = if Z.eqb (count_type t events) 0 then stats !! t
    else Some (default 0 (stats !! t) + count_type t events).
Proof.
  revert stats. induction events as [|event rest IH]; intros stats H0 Hb;
    cbn [fold_left]; [reflexivity|].
  rewrite count_type_cons in Hb |- *.
  pose proof (count_type_nonneg t rest) as Hc.
  destruct (String.eqb_spec (EventType_ event) t) as [He|Hne].
  - rewrite He. rewrite IH.
    + rewrite lookup_insert_eq. rewrite default_some.
      rewrite to_int64_small by lia.
      destruct (Z.eqb_spec (count_type t rest) 0) as [Hz|Hz];
        destruct (Z.eqb_spec (1 + count_type t rest) 0); try lia.
      * rewrite Hz. f_equal; lia.
      * f_equal; lia.
    + rewrite lookup_insert_eq. rewrite default_some. rewrite to_int64_small by lia.
      lia.
    + rewrite lookup_insert_eq. rewrite default_some. rewrite to_int64_small by lia.
      lia.
  - rewrite IH.
    + rewrite lookup_insert_ne by exact Hne.
      replace (0 + count_type t rest) with (count_type t rest) by lia. reflexivity.
    + rewrite lookup_insert_ne by exact Hne. exact H0.
    + rewrite lookup_insert_ne by exact Hne. lia.
Qed.

(** X23. [GetEventStats] counts by type. When the store returns fewer than
    2^63 events, the map returned has, for every event type, the number of
    returned events of that type, and no key for a type that does not
    occur; an error of the store comes back wrapped as "get events by time
    range", without a map. *)
Theorem GetEventStats_counts (events : list BaseEvent) :
  Z.of_nat (length events) < 2 ^ 63 ->
  exists stats,
    GetEventStats (inr events) = (Some stats, None) /\
    (forall t, stats !! t = if Z.eqb (count_type t events) 0 then None
                            else Some (count_type t events)) /\
    forall cause, GetEventStats (inl cause)
                  = (None, Some (Wrapf "get events by time range" cause)).
Proof.
  intros Hlen. eexists. split; [reflexivity|]. split; [|reflexivity].
  intros t. rewrite stats_fold.
  - rewrite lookup_empty. reflexivity.
  - rewrite lookup_empty. cbn [default]. lia.
  - rewrite lookup_empty. cbn [default]. unfold count_type.
    pose proof (length_filter (fun event => EventType_ event = t) events). lia.
Qed.

Lemma GetEventStats_counts_witness :
  exists stats,
    GetEventStats (inr [sampleBase EventTypeTokensMinted;
                        sampleBase EventTypeTokensBurned;
                        sampleBase EventTypeTokensMinted])
    = (Some stats, None) /\
    (forall t, stats !! t
               = if Z.eqb (count_type t [sampleBase EventTypeTokensMinted;
                                         sampleBase EventTypeTokensBurned;
                                         sampleBase EventTypeTokensMinted]) 0
                 then None
                 else Some (count_type t [sampleBase EventTypeTokensMinted;
                                          sampleBase EventTypeTokensBurned;
                                          sampleBase EventTypeTokensMinted])) /\
    forall cause, GetEventStats (inl cause)
                  = (None, Some (Wrapf "get events by time range" cause)).
Proof.
  apply (GetEventStats_counts [sampleBase EventTypeTokensMinted;
                               sampleBase EventTypeTokensBurned;
                               sampleBase EventTypeTokensMinted]).
  reflexivity.
Defined.

End Reads.

Section ProgramDataRejects.
Import models decoder programdata Base64Dec.

Lemma decode_quanta_length (n : nat) :
  forall (l : list ascii) (bs : list byte),
    (length l <= n)%nat -> decode_quanta l = Some bs ->
    (length l mod 4 = 0)%nat /\
    (length bs <= 3 * (length l / 4) <= length bs + 2)%nat.
Proof.
  induction n as [|n IH]; intros l bs Hn H.
  - destruct l; [|cbn in Hn; lia]. injection H as <-. cbn. lia.
  - destruct l as [|a [|b [|c [|d rest]]]]; try discriminate H.
    + injection H as <-. cbn. lia.
    + cbn [decode_quanta] in H.
      assert (Hlen : length (a :: b :: c :: d :: rest) = (length rest + 1 * 4)%nat)
        by (cbn [length]; lia).
      rewrite Hlen, Nat.Div0.mod_add, Nat.div_add by lia.
      destruct (dec_char a) as [v0|]; [|discriminate H].
      destruct (dec_char b) as [v1|]; [|discriminate H].
      destruct (dec_char c) as [v2|].
      * destruct (dec_char d) as [v3|].
        -- destruct (decode_quanta rest) as [bs'|] eqn:Hrest; [|discriminate H].
           injection H as <-.
           destruct (IH rest bs' ltac:(cbn [length] in Hn; lia) Hrest) as [Hm Hb].
           cbn [length]. lia.
        -- destruct rest; [|discriminate H].
           destruct (is_pad d); [|discriminate H]. injection H as <-. cbn. lia.
      * destruct rest; [|discriminate H].
        destruct (is_pad c && is_pad d); [|discriminate H]. injection H as <-. cbn. lia.
Qed.

Lemma marker_line (log : string) :
  (String.length log <? 14)%nat = false ->
  String.eqb (substring 0 13 log) "Program data:" = true ->
  exists (c : ascii) (text : string),
    log = "Program data:" +:+ String c text /\ gostrings.drop 14 log = text.
Proof.
  intros Hlen Heq. apply String.eqb_eq in Heq. apply Nat.ltb_ge in Hlen.
  do 14 (destruct log as [|? log]; [cbn in Hlen; lia|]).
  cbn in Heq. injection Heq as -> -> -> -> -> -> -> -> -> -> -> -> ->.
  eexists _, log. split; reflexivity.
Qed.

(** X24. Where frames come from. A log line gives a frame only if it
    starts with "Program data:" and has at least one more byte, and the
    text after that byte, line breaks left out, is made of whole groups of
    four characters that decode; the frame then has three bytes for every
    group, less at most two. Every other line gives nothing, without an
    error. *)
Theorem ParseProgramData_frames_only_from_marker (log : string) :
  ParseProgramData [log] = [] \/
  exists (c : ascii) (text : string) (data : list byte),
    log = "Program data:" +:+ String c text /\
    ParseProgramData [log] = [data] /\
    DecodeString text = Some data /\
    let chars := List.filter (fun c => negb (is_newline c)) (list_ascii_of_string text) in
    (length chars mod 4 = 0)%nat /\
    (length data <= 3 * (length chars / 4) <= length data + 2)%nat.
Proof.
  destruct (String.length log <? 14)%nat eqn:Hlen.
  { left. unfold ParseProgramData. cbn [ParseProgramData_loop]. rewrite Hlen.
    reflexivity. }
  destruct (String.eqb (substring 0 13 log) "Program data:") eqn:Hm.
  2:{ left. unfold ParseProgramData. cbn [ParseProgramData_loop]. rewrite Hlen, Hm.
      reflexivity. }
  destruct (marker_line log Hlen Hm) as (c & text & Hlog & Hdrop).
  destruct (DecodeString text) as [data|] eqn:Hd.
  2:{ left. unfold ParseProgramData. cbn [ParseProgramData_loop].
      rewrite Hlen, Hm, Hdrop, Hd. reflexivity. }
  right. exists c, text, data. split; [exact Hlog|]. split.
  { unfold ParseProgramData. cbn [ParseProgramData_loop].
    rewrite Hlen, Hm, Hdrop, Hd. reflexivity. }
  split; [exact Hd|]. cbv zeta.
  unfold DecodeString in Hd.
  exact (decode_quanta_length _ _ data (Nat.le_refl _) Hd).
Qed.

End ProgramDataRejects.

Ltac fields_of_literal :=
  cbn; repeat split; try reflexivity;
  let Hty := fresh "Hty" in
  intros Hty; first [reflexivity | vm_compute in Hty; discriminate Hty].

Section CounterAuthority.
Import models gostrings logparser indexer.

Lemma parseMessage_fields (msg : string) (accounts : list PublicKey)
    (counter : PublicKey) (a : CounterAction) :
  parseMessage msg accounts counter = Some a ->
  Counter a = counter /\ Authority a = None /\
  (Type_ a = EventTypeCounterInitialized -> NewValue a = Some 0) /\
  (Type_ a = EventTypeCounterReset -> OldValue a = None).
Proof.
  unfold parseMessage, parseIncremented, parseDecremented, parseAdded,
    parseReset, parsePayment.
  destruct (String.eqb msg "Counter initialized");
    [intros [= <-]; fields_of_literal|].
  destruct (HasPrefix msg "Counter incremented to: ");
    [destruct (extractNumber msg "Counter incremented to: ");
       [intros [= <-]; fields_of_literal|]|];
  (destruct (HasPrefix msg "Counter decremented to: ");
    [destruct (extractNumber msg "Counter decremented to: ");
       [intros [= <-]; fields_of_literal|]|]);
  (destruct (HasPrefix msg "Added " && Contains msg "to counter");
    [destruct (FindStringSubmatch "Added " _ msg) as [[m1 m2]|];
       [intros [= <-]; fields_of_literal|]|]);
  (destruct (String.eqb msg "Counter reset");
    [intros [= <-]; fields_of_literal|]);
  (destruct (HasPrefix msg "Payment of " && Contains msg "lamports received");
    [destruct (FindStringSubmatch "Payment of " _ msg) as [[m1 m2]|];
       [intros [= <-]; fields_of_literal|]|]);
  intros [=].
Qed.

(** X25. What the logs cannot give. No action of the log parser has an
    authority, so for every line: an initialisation is stored with the
    all-zero key as authority and 0 as initial count, and a reset with the
    all-zero key as authority and 0 as old value, whatever the counter held
    and whoever signed. The counter is the first account of the
    transaction, or the all-zero key. *)
Theorem counter_authority_is_never_known
    (log : string) (accounts : list PublicKey) (a : CounterAction) :
  parseLogMessage log accounts = Some a ->
  Authority a = None /\
  Counter a = default zeroPublicKey (accounts !! 0%nat) /\
  (Type_ a = EventTypeCounterInitialized ->
   convertCounterActionToEvent a
   = AnyVal (CounterInitializedEvent zeroBaseEvent (Counter a) zeroPublicKey 0)) /\
  (Type_ a = EventTypeCounterReset ->
   convertCounterActionToEvent a
   = AnyVal (CounterResetEvent zeroBaseEvent (Counter a) zeroPublicKey 0)).
Proof.
  unfold parseLogMessage.
  destruct (negb (Contains log msgPrefix)); [intros [=]|].
  destruct (Split log msgPrefix !! 1%nat) as [part|]; [|intros [=]].
  cbv zeta. intros H. apply parseMessage_fields in H as (Hc & Ha & Hi & Hr).
  split; [exact Ha|]. split.
  { rewrite Hc. destruct accounts; reflexivity. }
  split; intros Ht; unfold convertCounterActionToEvent; rewrite Ht, Ha;
    cbn [String.eqb Ascii.eqb Bool.eqb].
  - rewrite (Hi Ht). reflexivity.
  - rewrite (Hr Ht). reflexivity.
Qed.

Lemma counter_authority_is_never_known_witness :
  Authority (mkCounterAction EventTypeCounterReset (repeat x07 32) None None (Some 0)
               None None None None) = None /\
  Counter (mkCounterAction EventTypeCounterReset (repeat x07 32) None None (Some 0)
             None None None None)
  = default zeroPublicKey ([repeat x07 32; repeat x08 32] !! 0%nat) /\
  (Type_ (mkCounterAction EventTypeCounterReset (repeat x07 32) None None (Some 0)
            None None None None) = EventTypeCounterInitialized ->
   convertCounterActionToEvent
     (mkCounterAction EventTypeCounterReset (repeat x07 32) None None (Some 0)
        None None None None)
   = AnyVal (CounterInitializedEvent zeroBaseEvent
               (Counter (mkCounterAction EventTypeCounterReset (repeat x07 32) None None
                           (Some 0) None None None None)) zeroPublicKey 0)) /\
  (Type_ (mkCounterAction EventTypeCounterReset (repeat x07 32) None None (Some 0)
            None None None None) = EventTypeCounterReset ->
   convertCounterActionToEvent
     (mkCounterAction EventTypeCounterReset (repeat x07 32) None None (Some 0)
        None None None None)
   = AnyVal (CounterResetEvent zeroBaseEvent
               (Counter (mkCounterAction EventTypeCounterReset (repeat x07 32) None None
                           (Some 0) None None None None)) zeroPublicKey 0)).
Proof.
  exact (counter_authority_is_never_known "Program log: Counter reset"
           [repeat x07 32; repeat x08 32] _ eq_refl).
Defined.

End CounterAuthority.
